(** * CocoPan monitor: the data-access layer of [database_fixed.py]

    A shallow embedding of class [DatabaseManager]: engine selection with
    bounded retry and fallback, the scoped connection of [get_connection],
    schema creation, the three write operations and the read operations,
    followed by the properties of the layer.

    Conventions of the embedding.
    - A Python [str] is a [string]; one character of the model stands for
      one character of the Python string.  Only [len], slicing, [+], [in],
      [startswith] and [==] are used, and they act character by character.
    - A Python [int] is a [Z]; a Python [float] is a binary64 [float].
    - A method is a state transformer on [Sys] that ends with a value or
      with a raised exception; the state reached is kept in both cases, as
      side effects survive a Python exception.
    - The two storage engines, the file system, the clock and the logger
      are the [World].  Whether the [k]-th call that leaves the process
      fails is decided by the oracle [faults] of the world, so a statement
      for every world is a statement for every pattern of engine failure.
    - Callers are sequential: one operation runs at a time. *)

From Stdlib Require Import ZArith List String Ascii Bool Arith Lia Floats.
From Stdlib Require Import Sorted.
Import ListNotations.
Open Scope string_scope.
Open Scope Z_scope.

Set Implicit Arguments.

(** ** Python values used by the module *)

(** [needle in hay] on Python strings. *)
Fixpoint contains (needle hay : string) : bool :=
  prefix needle hay ||
  match hay with
  | EmptyString => false
  | String _ rest => contains needle rest
  end.

(** [hay.startswith(p)]. *)
Definition startswith (hay p : string) : bool := prefix p hay.

(** [s[:n]]. *)
Definition slice_to (n : nat) (s : string) : string := substring 0 n s.

(** The exception classes that occur; all derive from [Exception]. *)
Inductive exn : Type :=
| ValueError            (* raised by [_init_postgresql] on a bad URL *)
| OperationalError      (* psycopg2.OperationalError *)
| PoolError             (* psycopg2.pool.PoolError *)
| DatabaseError         (* an error reported by an engine for a statement *)
| IntegrityError        (* a violated constraint *)
| OSError               (* os.makedirs *)
| AttributeError
| TypeError
| ZeroDivisionError
| OverflowError
| PyException.          (* a plain [Exception(...)] raised by the module *)

Inductive outcome (A : Type) : Type :=
| Ok (a : A)
| Raise (e : exn).
Arguments Ok {A} a.
Arguments Raise {A} e.

(** An integer as the exact binary number it is. *)
Definition Z2SF (z : Z) : spec_float :=
  match z with
  | Z0 => S754_zero false
  | Zpos p => S754_finite false p 0
  | Zneg p => S754_finite true p 0
  end.

(** [a / b] on Python ints: the correctly rounded quotient,
    [ZeroDivisionError] for a zero divisor, [OverflowError] when the
    quotient is too large for a float. *)
Definition int_truediv (a b : Z) : outcome float :=
  if b =? 0 then Raise ZeroDivisionError
  else match SFdiv prec emax (Z2SF a) (Z2SF b) with
       | S754_infinity _ => Raise OverflowError
       | q => Ok (SF2Prim q)
       end.

(** ** Data model *)

(** A cell of a result set. *)
Inductive sqlval : Type :=
| SqlNull
| SqlInt (z : Z)
| SqlReal (f : float)
| SqlText (s : string)
| SqlBool (b : bool)
| SqlTime (t : Z).

Record Store := {
  s_id : Z;
  s_name : string;
  s_url : string;
  s_platform : string;
  s_created_at : Z }.

Record StatusCheck := {
  sc_id : Z;
  sc_store_id : Z;
  sc_is_online : bool;
  sc_checked_at : Z;
  sc_response_time_ms : option Z;
  sc_error_message : option string }.

Record SummaryReport := {
  sr_id : Z;
  sr_total_stores : Z;
  sr_online_stores : Z;
  sr_offline_stores : Z;
  sr_online_percentage : float;
  sr_report_time : Z }.

(** The tables of one engine; [None] is a table that does not exist yet.
    The [_seq] fields are the last surrogate keys handed out.  A timestamp
    is a number of seconds; [sr_online_percentage] holds the value bound
    to the INSERT (the width of the REAL column belongs to the engine). *)
Record Tables := {
  stores : option (list Store);
  status_checks : option (list StatusCheck);
  summary_reports : option (list SummaryReport);
  stores_seq : Z;
  status_checks_seq : Z;
  summary_reports_seq : Z }.

(** An engine: what is committed, and what the open connection sees. *)
Record Engine := {
  committed : Tables;
  working : Tables }.

(** [pd.DataFrame]: ordered, named columns and rows of cells. *)
Record DataFrame := {
  columns : list string;
  rows : list (list sqlval) }.

(** [pd.DataFrame()]. *)
Definition empty_DataFrame : DataFrame := {| columns := []; rows := [] |}.

(** Which connection a scope holds, and where a call outside the process
    goes. *)
Inductive resource : Type := PG | SQLITE | FS.

(** The three join queries whose evaluation is left to the engine. *)
Inductive join_query : Type :=
| LatestStatus
| StoreLogs (limit : Z)
| DailyUptime.

Inductive event : Type :=
| Info (msg : string)
| Error (msg : string)
| Slept (seconds : Z).

(** [config]: the fields this module reads. *)
Record Config := {
  USE_SQLITE : bool;
  DATABASE_URL : string;
  SQLITE_PATH : string }.

(** The attributes of a [DatabaseManager] instance.  [connection_pool] is
    [true] once a pool object is stored, [sqlite_path] is [None] until
    [_init_sqlite] sets the attribute. *)
Record DatabaseManager := {
  connection_pool : bool;
  db_type : string;
  max_retries : nat;
  retry_delay : Z;
  sqlite_path : option string }.

(** Everything outside the process.
    - [faults r k]: the [k]-th outside call fails if it goes to [r].
    - [now]: the clock, seconds since the epoch, UTC.
    - [pg_TimeZone]: the UTC offset of the primary engine's session time
      zone; [pg_Asia_Manila]: the offset its time-zone database gives to
      the zone named in the queries.
    - [round_avg c xs]: what engine [c] returns for ROUND(AVG(x), 0) over
      the values [xs] (with the casts the query of that engine applies).
    - [run_query c q t clock]: what engine [c] returns for the join query
      [q] on the tables [t] at time [clock]; these queries are sent to the
      engine as text. *)
Record World := {
  pg : Engine;
  sqlite : Engine;
  faults : resource -> nat -> bool;
  tick : nat;
  now : Z;
  pg_TimeZone : Z;
  pg_Asia_Manila : Z;
  round_avg : resource -> list float -> sqlval;
  run_query : resource -> join_query -> Tables -> Z -> DataFrame;
  log : list event }.

Record Sys := {
  cfg : Config;
  self : DatabaseManager;
  env : World }.

(** *** Field updates *)

Definition with_env (f : World -> World) (s : Sys) : Sys :=
  {| cfg := cfg s; self := self s; env := f (env s) |}.

Definition with_self (f : DatabaseManager -> DatabaseManager) (s : Sys) : Sys :=
  {| cfg := cfg s; self := f (self s); env := env s |}.

Definition set_connection_pool (v : bool) (d : DatabaseManager) :=
  {| connection_pool := v; db_type := db_type d;
     max_retries := max_retries d; retry_delay := retry_delay d;
     sqlite_path := sqlite_path d |}.

Definition set_db_type (v : string) (d : DatabaseManager) :=
  {| connection_pool := connection_pool d; db_type := v;
     max_retries := max_retries d; retry_delay := retry_delay d;
     sqlite_path := sqlite_path d |}.

Definition set_sqlite_path (v : option string) (d : DatabaseManager) :=
  {| connection_pool := connection_pool d; db_type := db_type d;
     max_retries := max_retries d; retry_delay := retry_delay d;
     sqlite_path := v |}.

Definition engine_of (c : resource) (w : World) : Engine :=
  match c with PG => pg w | _ => sqlite w end.

Definition set_engine (c : resource) (e : Engine) (w : World) : World :=
  {| pg := match c with PG => e | _ => pg w end;
     sqlite := match c with PG => sqlite w | _ => e end;
     faults := faults w; tick := tick w; now := now w;
     pg_TimeZone := pg_TimeZone w; pg_Asia_Manila := pg_Asia_Manila w;
     round_avg := round_avg w; run_query := run_query w; log := log w |}.

Definition set_tick (n : nat) (w : World) : World :=
  {| pg := pg w; sqlite := sqlite w; faults := faults w; tick := n;
     now := now w; pg_TimeZone := pg_TimeZone w;
     pg_Asia_Manila := pg_Asia_Manila w; round_avg := round_avg w;
     run_query := run_query w; log := log w |}.

Definition set_now (t : Z) (w : World) : World :=
  {| pg := pg w; sqlite := sqlite w; faults := faults w; tick := tick w;
     now := t; pg_TimeZone := pg_TimeZone w;
     pg_Asia_Manila := pg_Asia_Manila w; round_avg := round_avg w;
     run_query := run_query w; log := log w |}.

Definition add_log (e : event) (w : World) : World :=
  {| pg := pg w; sqlite := sqlite w; faults := faults w; tick := tick w;
     now := now w; pg_TimeZone := pg_TimeZone w;
     pg_Asia_Manila := pg_Asia_Manila w; round_avg := round_avg w;
     run_query := run_query w; log := (log w ++ [e])%list |}.

Definition set_working (t : Tables) (e : Engine) : Engine :=
  {| committed := committed e; working := t |}.

Definition set_committed (t : Tables) (e : Engine) : Engine :=
  {| committed := t; working := working e |}.

(** ** The monad of methods *)

Definition M (A : Type) : Type := Sys -> outcome A * Sys.

Definition ret {A} (a : A) : M A := fun s => (Ok a, s).

Definition raise {A} (e : exn) : M A := fun s => (Raise e, s).

Definition bind {A B} (m : M A) (k : A -> M B) : M B :=
  fun s => match m s with
           | (Ok a, s') => k a s'
           | (Raise e, s') => (Raise e, s')
           end.

Notation "x <- m ;; k" := (bind m (fun x => k))
  (at level 61, m at next level, right associativity).
Notation "m ;; k" := (bind m (fun _ => k))
  (at level 61, right associativity).

Definition gets {A} (f : Sys -> A) : M A := fun s => (Ok (f s), s).

Definition modify (f : Sys -> Sys) : M unit := fun s => (Ok tt, f s).

(** [try: body except Exception as e: handler e]. *)
Definition try_except {A} (body : M A) (handler : exn -> M A) : M A :=
  fun s => match body s with
           | (Ok a, s') => (Ok a, s')
           | (Raise e, s') => handler e s'
           end.

(** What one pass through the body of a [for] loop leads to: the next
    pass, with the local variables as the pass left them, or a [return]. *)
Inductive flow (L A : Type) : Type :=
| Next (l : L)
| Return (a : A).
Arguments Next {L A} l.
Arguments Return {L A} a.

(** [for i in <indices>: body]; a loop that runs out makes the function
    return [None]. *)
Fixpoint for_range {L A} (indices : list nat)
    (body : nat -> L -> M (flow L A)) (l : L) : M (option A) :=
  match indices with
  | [] => ret None
  | i :: rest =>
      f <- body i l ;;
      match f with
      | Return a => ret (Some a)
      | Next l' => for_range rest body l'
      end
  end.

(** [range(n)]. *)
Definition range (n : nat) : list nat := seq 0 n.

(** *** The outside world *)

Definition logger_info (msg : string) : M unit :=
  modify (with_env (add_log (Info msg))).

Definition logger_error (msg : string) : M unit :=
  modify (with_env (add_log (Error msg))).

(** [time.sleep(d)]. *)
Definition time_sleep (d : Z) : M unit :=
  modify (with_env (fun w => add_log (Slept d) (set_now (now w + d) w))).

(** A call that leaves the process: it takes the next slot of the oracle
    and raises [e] if that slot is a fault of [r]. *)
Definition outside (r : resource) (e : exn) : M unit :=
  fun s =>
    let w := env s in
    let s' := with_env (set_tick (S (tick w))) s in
    if faults w r (tick w) then (Raise e, s') else (Ok tt, s').

(** [try: body finally: cleanup], for a cleanup that cannot raise. *)
Definition try_finally {A} (body : M A) (cleanup : Sys -> Sys) : M A :=
  fun s => let (r, s') := body s in (r, cleanup s').

(** *** Connections and statements *)

Definition set_stores (v : option (list Store)) (seq : Z) (t : Tables) :=
  {| stores := v; status_checks := status_checks t;
     summary_reports := summary_reports t; stores_seq := seq;
     status_checks_seq := status_checks_seq t;
     summary_reports_seq := summary_reports_seq t |}.

Definition set_status_checks (v : option (list StatusCheck)) (seq : Z)
    (t : Tables) :=
  {| stores := stores t; status_checks := v;
     summary_reports := summary_reports t; stores_seq := stores_seq t;
     status_checks_seq := seq;
     summary_reports_seq := summary_reports_seq t |}.

Definition set_summary_reports (v : option (list SummaryReport)) (seq : Z)
    (t : Tables) :=
  {| stores := stores t; status_checks := status_checks t;
     summary_reports := v; stores_seq := stores_seq t;
     status_checks_seq := status_checks_seq t;
     summary_reports_seq := seq |}.

(** The tables the connection [c] sees. *)
Definition view (c : resource) (s : Sys) : Tables :=
  working (engine_of c (env s)).

Definition set_view (c : resource) (t : Tables) : Sys -> Sys :=
  with_env (fun w => set_engine c (set_working t (engine_of c w)) w).

(** A connection handed out by the pool, or newly opened, sees what is
    committed.  Rolling back, returning the connection to the pool (which
    rolls an open transaction back) and closing it all drop what was not
    committed; a failure of these calls is swallowed by the module and
    loses the uncommitted work as well. *)
Definition fresh_view (c : resource) : Sys -> Sys :=
  with_env (fun w =>
    set_engine c (set_working (committed (engine_of c w)) (engine_of c w)) w).

(** [conn.commit()]. *)
Definition commit (c : resource) : M unit :=
  outside c DatabaseError ;;
  modify (with_env (fun w =>
    set_engine c (set_committed (working (engine_of c w)) (engine_of c w)) w)).

(** CURRENT_TIMESTAMP as stored in a TIMESTAMP column: UTC on the embedded
    engine, the wall clock of the session time zone on the primary one. *)
Definition current_timestamp (c : resource) (w : World) : Z :=
  match c with
  | PG => now w + pg_TimeZone w
  | _ => now w
  end.

Definition create_if_not_exists {A} (t : option (list A)) : option (list A) :=
  match t with
  | None => Some []
  | Some l => Some l
  end.

(** CREATE TABLE IF NOT EXISTS stores (...). *)
Definition execute_create_stores (c : resource) : M unit :=
  outside c DatabaseError ;;
  t <- gets (view c) ;;
  modify (set_view c (set_stores (create_if_not_exists (stores t))
                                 (stores_seq t) t)).

(** CREATE TABLE IF NOT EXISTS status_checks (...).  On the primary engine
    the column constraint REFERENCES stores(id) needs the stores table. *)
Definition execute_create_status_checks (c : resource) : M unit :=
  outside c DatabaseError ;;
  t <- gets (view c) ;;
  match c, stores t with
  | PG, None => raise DatabaseError
  | _, _ =>
      modify (set_view c (set_status_checks
                (create_if_not_exists (status_checks t))
                (status_checks_seq t) t))
  end.

(** CREATE TABLE IF NOT EXISTS summary_reports (...). *)
Definition execute_create_summary_reports (c : resource) : M unit :=
  outside c DatabaseError ;;
  t <- gets (view c) ;;
  modify (set_view c (set_summary_reports
            (create_if_not_exists (summary_reports t))
            (summary_reports_seq t) t)).

(** SELECT id FROM stores WHERE url = <url>, then [fetchone()]. *)
Definition execute_select_store_id (c : resource) (url : string)
    : M (option Z) :=
  outside c DatabaseError ;;
  t <- gets (view c) ;;
  match stores t with
  | None => raise DatabaseError
  | Some l =>
      ret (option_map s_id (find (fun r => (s_url r =? url)%string) l))
  end.

(** INSERT INTO stores (name, url, platform) VALUES (...); the result is
    the key of the new row ([RETURNING id], [cursor.lastrowid]).  The url
    column is UNIQUE. *)
Definition execute_insert_store (c : resource) (name url platform : string)
    : M Z :=
  outside c DatabaseError ;;
  t <- gets (view c) ;;
  w <- gets env ;;
  match stores t with
  | None => raise DatabaseError
  | Some l =>
      if existsb (fun r => (s_url r =? url)%string) l
      then raise IntegrityError
      else
        let id := stores_seq t + 1 in
        let row := {| s_id := id; s_name := name; s_url := url;
                      s_platform := platform;
                      s_created_at := current_timestamp c w |} in
        modify (set_view c (set_stores (Some (l ++ [row])%list) id t)) ;;
        ret id
  end.

(** INSERT INTO status_checks (store_id, is_online, response_time_ms,
    error_message) VALUES (...).  The reference to stores is enforced by
    the primary engine only. *)
Definition execute_insert_status_check (c : resource) (store_id : Z)
    (is_online : bool) (response_time_ms : option Z)
    (error_message : option string) : M unit :=
  outside c DatabaseError ;;
  t <- gets (view c) ;;
  w <- gets env ;;
  match status_checks t with
  | None => raise DatabaseError
  | Some l =>
      let referenced :=
        match c, stores t with
        | PG, Some ss => existsb (fun r => s_id r =? store_id) ss
        | PG, None => false
        | _, _ => true
        end in
      if negb referenced then raise IntegrityError
      else
        let id := status_checks_seq t + 1 in
        let row := {| sc_id := id; sc_store_id := store_id;
                      sc_is_online := is_online;
                      sc_checked_at := current_timestamp c w;
                      sc_response_time_ms := response_time_ms;
                      sc_error_message := error_message |} in
        modify (set_view c (set_status_checks (Some (l ++ [row])%list) id t))
  end.

(** INSERT INTO summary_reports (total_stores, online_stores,
    offline_stores, online_percentage) VALUES (...). *)
Definition execute_insert_summary_report (c : resource)
    (total online offline : Z) (percentage : float) : M unit :=
  outside c DatabaseError ;;
  t <- gets (view c) ;;
  w <- gets env ;;
  match summary_reports t with
  | None => raise DatabaseError
  | Some l =>
      let id := summary_reports_seq t + 1 in
      let row := {| sr_id := id; sr_total_stores := total;
                    sr_online_stores := online;
                    sr_offline_stores := offline;
                    sr_online_percentage := percentage;
                    sr_report_time := current_timestamp c w |} in
      modify (set_view c (set_summary_reports (Some (l ++ [row])%list) id t))
  end.

(** ** class DatabaseManager *)

Definition the_db_type : M string := gets (fun s => db_type (self s)).

Definition is_postgresql (dbt : string) : bool := (dbt =? "postgresql")%string.

(** [_init_postgresql]: the URL check, a throwaway test connection, the
    pool.  The re-raising handlers log; the hint that the first of them
    picks from the text of the error is a log line only. *)
Definition _init_postgresql : M unit :=
  try_except
    (db_url <- gets (fun s => DATABASE_URL (cfg s)) ;;
     logger_info "Attempting PostgreSQL connection..." ;;
     (if negb (startswith db_url "postgresql://")
      then raise ValueError else ret tt) ;;
     outside PG OperationalError ;;
     logger_info "PostgreSQL test connection successful" ;;
     outside PG OperationalError ;;
     modify (with_self (set_connection_pool true)) ;;
     logger_info "PostgreSQL connection pool created")
    (fun e =>
       match e with
       | OperationalError =>
           logger_error "PostgreSQL operational error" ;; raise e
       | _ =>
           logger_error "Unexpected PostgreSQL error" ;; raise e
       end).

(** [_init_sqlite]: make the directory, open the file, probe it. *)
Definition _init_sqlite : M unit :=
  path <- gets (fun s => SQLITE_PATH (cfg s)) ;;
  modify (with_self (set_sqlite_path (Some path))) ;;
  try_except
    (outside FS OSError ;;
     outside SQLITE OperationalError ;;
     outside SQLITE OperationalError ;;
     logger_info "SQLite database ready")
    (fun e => logger_error "SQLite connection failed" ;; raise e).

(** [get_connection]: the context manager, applied to the body of the
    [with] statement.  Whatever is raised while the connection is being
    obtained, probed or used is logged and replaced by a plain
    [Exception]; the connection goes back (or is closed) on every path. *)
Definition get_connection {A} (body : resource -> M A) : M A :=
  dbt <- the_db_type ;;
  if is_postgresql dbt then
    pool <- gets (fun s => connection_pool (self s)) ;;
    if negb pool then
      logger_error "Database connection error" ;; raise PyException
    else
      try_except (outside PG PoolError)
        (fun _ => logger_error "Database connection error" ;;
                  raise PyException) ;;
      modify (fresh_view PG) ;;
      try_finally
        (try_except
           (outside PG OperationalError ;; body PG)
           (fun _ => logger_error "Database connection error" ;;
                     modify (fresh_view PG) ;;
                     raise PyException))
        (fresh_view PG)
  else
    path <- gets (fun s => sqlite_path (self s)) ;;
    match path with
    | None => logger_error "SQLite error" ;; raise PyException
    | Some _ =>
        try_except (outside SQLITE OperationalError)
          (fun _ => logger_error "SQLite error" ;; raise PyException) ;;
        modify (fresh_view SQLITE) ;;
        try_finally
          (try_except
             (outside SQLITE OperationalError ;; body SQLITE)
             (fun _ => logger_error "SQLite error" ;;
                       modify (fresh_view SQLITE) ;;
                       raise PyException))
          (fresh_view SQLITE)
    end.

(** [_create_tables]. *)
Definition _create_tables : M unit :=
  get_connection (fun conn =>
    dbt <- the_db_type ;;
    (if is_postgresql dbt then
       execute_create_stores conn ;;
       execute_create_status_checks conn ;;
       execute_create_summary_reports conn
     else
       execute_create_stores conn ;;
       execute_create_status_checks conn ;;
       execute_create_summary_reports conn) ;;
    commit conn).

Definition the_max_retries : M nat := gets (fun s => max_retries (self s)).

(** [attempt < self.max_retries - 1]. *)
Definition retries_left (attempt : nat) : M bool :=
  n <- the_max_retries ;;
  ret (Z.of_nat attempt <? Z.of_nat n - 1).

Definition sleep_retry_delay : M unit :=
  d <- gets (fun s => retry_delay (self s)) ;;
  time_sleep d.

(** The [try] block of [_initialize_database]. *)
Definition initialize_attempt : M unit :=
  dbt <- the_db_type ;;
  (if is_postgresql dbt then _init_postgresql else _init_sqlite) ;;
  _create_tables ;;
  logger_info "Database initialized".

(** The last [else] branch of [_initialize_database]. *)
Definition fallback_to_sqlite : M unit :=
  logger_error "All database initialization attempts failed" ;;
  modify (with_self (set_db_type "sqlite")) ;;
  _init_sqlite ;;
  _create_tables.

(** [_initialize_database]. *)
Definition _initialize_database : M unit :=
  n <- the_max_retries ;;
  for_range (range n) (fun attempt (_ : unit) =>
    try_except
      (initialize_attempt ;; ret (Return tt))
      (fun _ =>
         logger_error "Database initialization failed" ;;
         again <- retries_left attempt ;;
         if again then
           logger_info "Retrying" ;;
           sleep_retry_delay ;;
           ret (Next tt)
         else
           fallback_to_sqlite ;;
           ret (Next tt))) tt ;;
  ret tt.

(** [DatabaseManager()]: the attributes set by [__init__], then
    [_initialize_database]. *)
Definition new_DatabaseManager (c : Config) : DatabaseManager :=
  {| connection_pool := false;
     db_type := if USE_SQLITE c then "sqlite" else "postgresql";
     max_retries := 3;
     retry_delay := 5;
     sqlite_path := None |}.

Definition __init__ (c : Config) (w : World) : outcome unit * Sys :=
  _initialize_database
    {| cfg := c; self := new_DatabaseManager c; env := w |}.

(** An operation that cannot touch the state. *)
Definition lift {A} (o : outcome A) : M A := fun s => (o, s).

(** *** Write operations *)

(** ["foodpanda" if "foodpanda.ph" in url else "grabfood"]. *)
Definition platform_of (url : string) : string :=
  if contains "foodpanda.ph" url then "foodpanda" else "grabfood".

(** [get_or_create_store]. *)
Definition get_or_create_store (name url : string) : M (option Z) :=
  let platform := platform_of url in
  n <- the_max_retries ;;
  for_range (range n) (fun attempt (_ : unit) =>
    try_except
      (get_connection (fun conn =>
         dbt <- the_db_type ;;
         found_or_new <-
           (if is_postgresql dbt then
              result <- execute_select_store_id conn url ;;
              match result with
              | Some id => ret (inl id)
              | None =>
                  store_id <- execute_insert_store conn name url platform ;;
                  ret (inr store_id)
              end
            else
              result <- execute_select_store_id conn url ;;
              match result with
              | Some id => ret (inl id)
              | None =>
                  store_id <- execute_insert_store conn name url platform ;;
                  ret (inr store_id)
              end) ;;
         match found_or_new with
         | inl id => ret (Return id)
         | inr store_id => commit conn ;; ret (Return store_id)
         end))
      (fun _ =>
         logger_error "Failed to get_or_create_store" ;;
         again <- retries_left attempt ;;
         if again then sleep_retry_delay ;; ret (Next tt)
         else raise PyException)) tt.

(** The two lines that shorten a long [error_message]. *)
Definition truncate_error_message (error_message : option string)
    : option string :=
  match error_message with
  | Some msg =>
      if negb (msg =? "")%string && (500 <? String.length msg)%nat
      then Some (slice_to 500 msg ++ "...")
      else Some msg
  | None => None
  end.

(** [save_status_check].  The arguments are typed, so [bool(is_online)]
    and [int(response_time_ms)] leave them as they are; [error_message]
    is reassigned in the loop and is carried from one pass to the next. *)
Definition save_status_check (store_id : Z) (is_online : bool)
    (response_time_ms : option Z) (error_message : option string)
    : M (option bool) :=
  n <- the_max_retries ;;
  for_range (range n) (fun attempt error_message =>
    let is_online_value := is_online in
    let error_message := truncate_error_message error_message in
    try_except
      (get_connection (fun conn =>
         dbt <- the_db_type ;;
         (if is_postgresql dbt then
            execute_insert_status_check conn store_id is_online_value
              response_time_ms error_message
          else
            execute_insert_status_check conn store_id is_online_value
              response_time_ms error_message) ;;
         commit conn ;;
         ret (Return true)))
      (fun _ =>
         logger_error "Failed to save status check" ;;
         again <- retries_left attempt ;;
         if again then sleep_retry_delay ;; ret (Next error_message)
         else
           logger_error "Failed to save status check after all attempts" ;;
           ret (Return false))) error_message.

(** [(online_stores / total_stores * 100) if total_stores > 0 else 0],
    then [float(...)]. *)
Definition online_percentage_of (total_stores online_stores : Z)
    : outcome float :=
  if total_stores >? 0 then
    match int_truediv online_stores total_stores with
    | Ok q => Ok (q * 100)%float
    | Raise e => Raise e
    end
  else Ok 0%float.

(** [save_summary_report]; [int(...)] leaves the typed counts as they
    are. *)
Definition save_summary_report (total_stores online_stores offline_stores : Z)
    : M (option bool) :=
  n <- the_max_retries ;;
  for_range (range n) (fun attempt (_ : unit) =>
    try_except
      (online_percentage <-
         lift (online_percentage_of total_stores online_stores) ;;
       get_connection (fun conn =>
         dbt <- the_db_type ;;
         (if is_postgresql dbt then
            execute_insert_summary_report conn total_stores online_stores
              offline_stores online_percentage
          else
            execute_insert_summary_report conn total_stores online_stores
              offline_stores online_percentage) ;;
         commit conn ;;
         ret (Return true)))
      (fun _ =>
         logger_error "Failed to save summary report" ;;
         again <- retries_left attempt ;;
         if again then sleep_retry_delay ;; ret (Next tt)
         else
           logger_error "Failed to save summary report after all attempts" ;;
           ret (Return false))) tt.

(** *** Read operations *)

(** [pd.read_sql_query(query, conn)] for one of the three join queries,
    which need the stores and status_checks tables. *)
Definition read_join_query (c : resource) (q : join_query) : M DataFrame :=
  outside c DatabaseError ;;
  t <- gets (view c) ;;
  w <- gets env ;;
  match stores t, status_checks t with
  | Some _, Some _ => ret (run_query w c q t (now w))
  | _, _ => raise DatabaseError
  end.

(** [get_latest_status]: its [try] block, then the method. *)
Definition latest_status_try : M DataFrame :=
  get_connection (fun conn => read_join_query conn LatestStatus).

Definition get_latest_status : M DataFrame :=
  try_except latest_status_try
    (fun _ => logger_error "Failed to get latest status" ;;
              ret empty_DataFrame).

(** The calendar day and the hour of the day of a timestamp. *)
Definition day_of (t : Z) : Z := t / 86400.
Definition hour_of (t : Z) : Z := (t mod 86400) / 3600.

Definition hours (n : Z) : Z := n * 3600.

Definition digit (d : Z) : ascii := ascii_of_nat (48 + Z.to_nat d).

(** strftime('%H', ...): two decimal digits. *)
Definition two_digits (h : Z) : string :=
  String (digit (h / 10)) (String (digit (h mod 10)) EmptyString).

(** [t AT TIME ZONE 'Asia/Manila'] for a TIMESTAMP column of the primary
    engine: [t] is taken as a wall clock of that zone, and the resulting
    instant is read in the session time zone by EXTRACT and DATE. *)
Definition pg_at_time_zone_manila (w : World) (t : Z) : Z :=
  t - pg_Asia_Manila w + pg_TimeZone w.

(** CURRENT_DATE of the primary engine. *)
Definition pg_current_date (w : World) : Z := day_of (now w + pg_TimeZone w).

(** SELECT <hour>, ROUND(AVG(online_percentage), 0),
    ROUND(AVG(100 - online_percentage), 0), COUNT( * ) FROM summary_reports
    WHERE <today> GROUP BY <hour> ORDER BY hour: the shape both dialects
    of the hourly query share. *)
Definition hourly_query (ra : list float -> sqlval)
    (today : SummaryReport -> bool) (hour : SummaryReport -> Z)
    (label : Z -> sqlval) (l : list SummaryReport) : DataFrame :=
  {| columns := ["hour"; "online_pct"; "offline_pct"; "data_points"];
     rows :=
       flat_map
         (fun h =>
            match filter (fun r => hour r =? h) (filter today l) with
            | [] => []
            | bucket =>
                [[label h;
                  ra (map sr_online_percentage bucket);
                  ra (map (fun r => (100 - sr_online_percentage r)%float)
                          bucket);
                  SqlInt (Z.of_nat (List.length bucket))]]
            end)
         (map Z.of_nat (seq 0 24)) |}.

(** The hourly query in the dialect of the primary engine. *)
Definition hourly_query_postgresql (w : World) (l : list SummaryReport)
    : DataFrame :=
  hourly_query (round_avg w PG)
    (fun r => day_of (pg_at_time_zone_manila w (sr_report_time r))
              =? pg_current_date w)
    (fun r => hour_of (pg_at_time_zone_manila w (sr_report_time r)))
    SqlInt l.

(** The hourly query in the dialect of the embedded engine. *)
Definition hourly_query_sqlite (w : World) (l : list SummaryReport)
    : DataFrame :=
  hourly_query (round_avg w SQLITE)
    (fun r => day_of (sr_report_time r + hours 8)
              =? day_of (now w + hours 8))
    (fun r => hour_of (sr_report_time r))
    (fun h => SqlText (two_digits h)) l.

(** [pd.read_sql_query(query, conn)] for a query on summary_reports. *)
Definition read_summary_query (c : resource)
    (q : World -> list SummaryReport -> DataFrame) : M DataFrame :=
  outside c DatabaseError ;;
  t <- gets (view c) ;;
  w <- gets env ;;
  match summary_reports t with
  | Some l => ret (q w l)
  | None => raise DatabaseError
  end.

(** [get_hourly_data]. *)
Definition hourly_data_try : M DataFrame :=
  get_connection (fun conn =>
    dbt <- the_db_type ;;
    if is_postgresql dbt
    then read_summary_query conn hourly_query_postgresql
    else read_summary_query conn hourly_query_sqlite).

Definition get_hourly_data : M DataFrame :=
  try_except hourly_data_try
    (fun _ => logger_error "Failed to get hourly data" ;;
              ret empty_DataFrame).

(** [get_store_logs]. *)
Definition store_logs_try (limit : Z) : M DataFrame :=
  get_connection (fun conn =>
    dbt <- the_db_type ;;
    if is_postgresql dbt
    then read_join_query conn (StoreLogs limit)
    else read_join_query conn (StoreLogs limit)).

Definition get_store_logs (limit : Z) : M DataFrame :=
  try_except (store_logs_try limit)
    (fun _ => logger_error "Failed to get store logs" ;;
              ret empty_DataFrame).

(** [get_daily_uptime]. *)
Definition daily_uptime_try : M DataFrame :=
  get_connection (fun conn =>
    dbt <- the_db_type ;;
    if is_postgresql dbt
    then read_join_query conn DailyUptime
    else read_join_query conn DailyUptime).

Definition get_daily_uptime : M DataFrame :=
  try_except daily_uptime_try
    (fun _ => logger_error "Failed to get daily uptime" ;;
              ret empty_DataFrame).

(** The dictionary returned by [get_database_stats]. *)
Record Stats := {
  store_count : Z;
  platforms : list (string * Z);
  total_checks : Z;
  latest_summary : option (list (string * sqlval));
  stats_db_type : string }.

(** SELECT platform, COUNT( * ) FROM stores GROUP BY platform, as the
    dictionary [dict(cursor.fetchall())]. *)
Definition platform_counts (l : list Store) : list (string * Z) :=
  map (fun p =>
         (p, Z.of_nat (List.length
                (filter (fun r => (s_platform r =? p)%string) l))))
      (nodup string_dec (map s_platform l)).

(** SELECT * FROM summary_reports ORDER BY report_time DESC LIMIT 1; among
    rows of the same time the earliest inserted is taken. *)
Fixpoint latest_report (l : list SummaryReport) : option SummaryReport :=
  match l with
  | [] => None
  | r :: rest =>
      match latest_report rest with
      | Some r' =>
          if sr_report_time r' >? sr_report_time r then Some r' else Some r
      | None => Some r
      end
  end.

(** [dict(latest_summary)]: a [sqlite3.Row] has keys; the tuple that the
    cursor of the primary engine returns is not a sequence of pairs. *)
Definition dict_of_row (c : resource) (r : SummaryReport)
    : outcome (list (string * sqlval)) :=
  match c with
  | PG => Raise TypeError
  | _ =>
      Ok [("id", SqlInt (sr_id r));
          ("total_stores", SqlInt (sr_total_stores r));
          ("online_stores", SqlInt (sr_online_stores r));
          ("offline_stores", SqlInt (sr_offline_stores r));
          ("online_percentage", SqlReal (sr_online_percentage r));
          ("report_time", SqlTime (sr_report_time r))]
  end.

Definition select_stores (c : resource) : M (list Store) :=
  outside c DatabaseError ;;
  t <- gets (view c) ;;
  match stores t with
  | Some l => ret l
  | None => raise DatabaseError
  end.

Definition select_count_status_checks (c : resource) : M Z :=
  outside c DatabaseError ;;
  t <- gets (view c) ;;
  match status_checks t with
  | Some l => ret (Z.of_nat (List.length l))
  | None => raise DatabaseError
  end.

Definition select_latest_summary (c : resource) : M (option SummaryReport) :=
  outside c DatabaseError ;;
  t <- gets (view c) ;;
  match summary_reports t with
  | Some l => ret (latest_report l)
  | None => raise DatabaseError
  end.

(** The dictionary of the [except] branch of [get_database_stats]. *)
Definition fallback_stats (dbt : string) : Stats :=
  {| store_count := 0; platforms := []; total_checks := 0;
     latest_summary := None; stats_db_type := dbt |}.

(** [get_database_stats]. *)
Definition database_stats_try : M Stats :=
  get_connection (fun conn =>
    ss <- select_stores conn ;;
    let store_count := Z.of_nat (List.length ss) in
    ss' <- select_stores conn ;;
    let platforms := platform_counts ss' in
    total_checks <- select_count_status_checks conn ;;
    latest_summary <- select_latest_summary conn ;;
    summary <-
      match latest_summary with
      | Some r => d <- lift (dict_of_row conn r) ;; ret (Some d)
      | None => ret None
      end ;;
    dbt <- the_db_type ;;
    ret {| store_count := store_count; platforms := platforms;
           total_checks := total_checks; latest_summary := summary;
           stats_db_type := dbt |}).

Definition get_database_stats : M Stats :=
  try_except database_stats_try
    (fun _ =>
       logger_error "Failed to get database stats" ;;
       dbt <- the_db_type ;;
       ret (fallback_stats dbt)).

(** [close]. *)
Definition close : M unit :=
  pool <- gets (fun s => connection_pool (self s)) ;;
  if pool then
    try_except
      (outside PG PoolError ;; logger_info "Connection pool closed")
      (fun _ => logger_error "Error closing connection pool")
  else ret tt.

(** ** The retry loop

    The four loops of the module ([_initialize_database] and the three
    write operations) are one loop: a pass updates the locals, runs a
    [try] block, and the handler logs, then either pauses and goes to the
    next pass or does what the last pass does. *)
Section Retry.
Variables L A : Type.
Variable upd : L -> L.
Variable try_block : L -> M (flow L A).
Variable err : string.
Variable on_retry : M unit.
Variable final : M (flow L A).

Definition retry_pass (attempt : nat) (l : L) : M (flow L A) :=
  let l' := upd l in
  try_except (try_block l')
    (fun _ =>
       logger_error err ;;
       again <- retries_left attempt ;;
       if again then on_retry ;; ret (Next l') else final).

Definition retry_loop (l : L) : M (option A) :=
  n <- the_max_retries ;;
  for_range (range n) retry_pass l.

(** The state in which the next pass starts after a pass that raised. *)
Definition between_passes (s : Sys) : Sys :=
  snd ((logger_error err ;; on_retry) s).

(** [failed_passes k l s l' s']: from locals [l] and state [s], [k]
    passes in a row raise in their [try] block; the next pass would
    start with locals [l'] in state [s']. *)
Inductive failed_passes : nat -> L -> Sys -> L -> Sys -> Prop :=
| failed_O : forall l s, failed_passes 0 l s l s
| failed_S : forall k l s e s1 l2 s2,
    try_block (upd l) s = (Raise e, s1) ->
    failed_passes k (upd l) (between_passes s1) l2 s2 ->
    failed_passes (S k) l s l2 s2.
End Retry.

(** The [try] blocks of the write operations. *)
Definition store_try (name url : string) : M (flow unit Z) :=
  get_connection (fun conn =>
    dbt <- the_db_type ;;
    found_or_new <-
      (if is_postgresql dbt then
         result <- execute_select_store_id conn url ;;
         match result with
         | Some id => ret (inl id)
         | None =>
             store_id <-
               execute_insert_store conn name url (platform_of url) ;;
             ret (inr store_id)
         end
       else
         result <- execute_select_store_id conn url ;;
         match result with
         | Some id => ret (inl id)
         | None =>
             store_id <-
               execute_insert_store conn name url (platform_of url) ;;
             ret (inr store_id)
         end) ;;
    match found_or_new with
    | inl id => ret (Return id)
    | inr store_id => commit conn ;; ret (Return store_id)
    end).

Definition status_try (store_id : Z) (is_online : bool)
    (response_time_ms : option Z) (error_message : option string)
    : M (flow (option string) bool) :=
  get_connection (fun conn =>
    dbt <- the_db_type ;;
    (if is_postgresql dbt then
       execute_insert_status_check conn store_id is_online
         response_time_ms error_message
     else
       execute_insert_status_check conn store_id is_online
         response_time_ms error_message) ;;
    commit conn ;;
    ret (Return true)).

Definition summary_try (total_stores online_stores offline_stores : Z)
    : M (flow unit bool) :=
  online_percentage <-
    lift (online_percentage_of total_stores online_stores) ;;
  get_connection (fun conn =>
    dbt <- the_db_type ;;
    (if is_postgresql dbt then
       execute_insert_summary_report conn total_stores online_stores
         offline_stores online_percentage
     else
       execute_insert_summary_report conn total_stores online_stores
         offline_stores online_percentage) ;;
    commit conn ;;
    ret (Return true)).

(** [k] failed attempts in a row, for each of the four loops. *)
Definition initialize_attempts_failed (k : nat) (s s' : Sys) : Prop :=
  failed_passes (fun _ : unit => tt)
    (fun _ => initialize_attempt ;; ret (Return tt))
    "Database initialization failed"
    (logger_info "Retrying" ;; sleep_retry_delay) k tt s tt s'.

Definition store_attempts_failed (name url : string) (k : nat)
    (s s' : Sys) : Prop :=
  failed_passes (fun _ : unit => tt) (fun _ => store_try name url)
    "Failed to get_or_create_store" sleep_retry_delay k tt s tt s'.

Definition status_attempts_failed (store_id : Z) (is_online : bool)
    (response_time_ms : option Z) (error_message : option string)
    (k : nat) (s s' : Sys) : Prop :=
  exists m',
    failed_passes truncate_error_message
      (status_try store_id is_online response_time_ms)
      "Failed to save status check" sleep_retry_delay
      k error_message s m' s'.

Definition summary_attempts_failed (total online offline : Z) (k : nat)
    (s s' : Sys) : Prop :=
  failed_passes (fun _ : unit => tt)
    (fun _ => summary_try total online offline)
    "Failed to save summary report" sleep_retry_delay k tt s tt s'.

(** ** Relations between the states of a run *)

(** The configuration and the parts of the world that no method changes. *)
Definition same_world (s s' : Sys) : Prop :=
  cfg s' = cfg s /\
  faults (env s') = faults (env s) /\
  pg_TimeZone (env s') = pg_TimeZone (env s) /\
  pg_Asia_Manila (env s') = pg_Asia_Manila (env s) /\
  round_avg (env s') = round_avg (env s) /\
  run_query (env s') = run_query (env s).

(** The attributes of the instance are the same. *)
Definition same_self (s s' : Sys) : Prop := self s' = self s.

(** The attributes that steer the retry loops are the same. *)
Definition same_retries (s s' : Sys) : Prop :=
  max_retries (self s') = max_retries (self s) /\
  retry_delay (self s') = retry_delay (self s).

(** The engine tag is kept or has become the embedded engine. *)
Definition engine_choice (s s' : Sys) : Prop :=
  db_type (self s') = db_type (self s) \/ db_type (self s') = "sqlite".

(** Nothing was committed and no attribute was assigned. *)
Definition same_data (s s' : Sys) : Prop :=
  self s' = self s /\
  committed (pg (env s')) = committed (pg (env s)) /\
  committed (sqlite (env s')) = committed (sqlite (env s)).

(** The connection [get_connection] hands out in state [s]. *)
Definition conn_of (s : Sys) : resource :=
  if is_postgresql (db_type (self s)) then PG else SQLITE.

(** [acquired c s s0]: [s0] is the state in which the body of a [with]
    statement entered in state [s] starts, holding connection [c]. *)
Definition acquired (c : resource) (s s0 : Sys) : Prop :=
  same_data s s0 /\ same_world s s0 /\ c = conn_of s /\
  view c s0 = committed (engine_of c (env s0)) /\
  now (env s0) = now (env s).

(** Calls to [r] do not fail. *)
Definition healthy (r : resource) (s : Sys) : Prop :=
  forall k, faults (env s) r k = false.

(** Calls to [r] all fail. *)
Definition unreachable (r : resource) (s : Sys) : Prop :=
  forall k, faults (env s) r k = true.

(** The three tables exist. *)
Definition schema_created (t : Tables) : Prop :=
  stores t <> None /\ status_checks t <> None /\ summary_reports t <> None.

(** The committed tables of the engine the instance uses. *)
Definition active_tables (s : Sys) : Tables :=
  committed (engine_of (conn_of s) (env s)).

(** The UNIQUE constraint on stores.url holds in [t]. *)
Definition urls_unique (t : Tables) : Prop :=
  forall l, stores t = Some l -> NoDup (map s_url l).

(** The operations offered after construction. *)
Inductive operation : Type :=
| Op_get_or_create_store (name url : string)
| Op_save_status_check (store_id : Z) (is_online : bool)
    (response_time_ms : option Z) (error_message : option string)
| Op_save_summary_report (total online offline : Z)
| Op_get_latest_status
| Op_get_hourly_data
| Op_get_store_logs (limit : Z)
| Op_get_daily_uptime
| Op_get_database_stats
| Op_close.

(** The state an operation leaves, whether it returns or raises. *)
Definition after (o : operation) (s : Sys) : Sys :=
  match o with
  | Op_get_or_create_store name url => snd (get_or_create_store name url s)
  | Op_save_status_check i b r m => snd (save_status_check i b r m s)
  | Op_save_summary_report t o f => snd (save_summary_report t o f s)
  | Op_get_latest_status => snd (get_latest_status s)
  | Op_get_hourly_data => snd (get_hourly_data s)
  | Op_get_store_logs limit => snd (get_store_logs limit s)
  | Op_get_daily_uptime => snd (get_daily_uptime s)
  | Op_get_database_stats => snd (get_database_stats s)
  | Op_close => snd (close s)
  end.

(** The state after a sequence of operations. *)
Definition after_all (os : list operation) (s : Sys) : Sys :=
  fold_left (fun s o => after o s) os s.

(** ** Sample configurations and worlds *)

(** A sample engine: it averages in binary64 and rounds to the nearest
    whole number (adding and subtracting 2^52 does that for the
    percentages, which lie between 0 and 100). *)
Definition sample_round_avg (_ : resource) (xs : list float) : sqlval :=
  let n := fold_left (fun a _ => (a + 1)%float) xs 0%float in
  let avg := (fold_left PrimFloat.add xs 0 / n)%float in
  SqlReal ((avg + 4503599627370496) - 4503599627370496)%float.

Definition no_tables : Tables :=
  {| stores := None; status_checks := None; summary_reports := None;
     stores_seq := 0; status_checks_seq := 0; summary_reports_seq := 0 |}.

Definition new_engine : Engine :=
  {| committed := no_tables; working := no_tables |}.

(** A world with two empty engines, at 2024-01-01 02:30:00 UTC, the
    primary engine's session in UTC, with the fault oracle [f]. *)
Definition sample_world (f : resource -> nat -> bool) : World :=
  {| pg := new_engine; sqlite := new_engine; faults := f; tick := 0;
     now := 1704076200; pg_TimeZone := 0; pg_Asia_Manila := hours 8;
     round_avg := sample_round_avg;
     run_query := fun _ _ _ _ => empty_DataFrame; log := [] |}.

Definition all_up : resource -> nat -> bool := fun _ _ => false.

Definition primary_down : resource -> nat -> bool :=
  fun r _ => match r with PG => true | _ => false end.

Definition all_down : resource -> nat -> bool := fun _ _ => true.

Definition cfg_primary : Config :=
  {| USE_SQLITE := false;
     DATABASE_URL := "postgresql://cocopan:secret@db:5432/monitor";
     SQLITE_PATH := "data/store_monitor.db" |}.


(** The instance started with the primary engine down: it runs on the
    embedded engine. *)
Definition on_sqlite : Sys := snd (__init__ cfg_primary (sample_world primary_down)).

(** The instance started with both engines up. *)
Definition on_postgresql : Sys := snd (__init__ cfg_primary (sample_world all_up)).

(** A message of [n] characters. *)
Fixpoint repeat_char (c : ascii) (n : nat) : string :=
  match n with
  | O => ""
  | S n' => String c (repeat_char c n')
  end.

(** [best_effort op try_block fallback s]: run in [s], the operation [op]
    does not raise; it returns what its [try] block returns, and the
    fallback value when the [try] block raises. *)
Definition best_effort {A} (op try_block : M A) (fallback : Sys -> A)
    (s : Sys) : Prop :=
  (exists a s', op s = (Ok a, s')) /\
  (forall a s1, try_block s = (Ok a, s1) -> op s = (Ok a, s1)) /\
  (forall e s1,
      try_block s = (Raise e, s1) ->
      exists s', op s = (Ok (fallback s), s')).

(** The instance on the embedded engine, after that engine has become
    unreachable too. *)
Definition sqlite_lost : Sys :=
  with_env (fun w =>
    {| pg := pg w; sqlite := sqlite w; faults := all_down; tick := tick w;
       now := now w; pg_TimeZone := pg_TimeZone w;
       pg_Asia_Manila := pg_Asia_Manila w; round_avg := round_avg w;
       run_query := run_query w; log := log w |}) on_sqlite.


(** The state in which [__init__] calls [_initialize_database]. *)
Definition constructed (c : Config) (w : World) : Sys :=
  {| cfg := c; self := new_DatabaseManager c; env := w |}.






(** The data_points cell of a row of the hourly result, and their sum. *)
Definition data_points_of (row : list sqlval) : Z :=
  match nth 3 row SqlNull with
  | SqlInt n => n
  | _ => 0
  end.

Definition total_data_points (df : DataFrame) : Z :=
  fold_right Z.add 0 (map data_points_of (rows df)).


(** The instance on each engine after two reports of the same minute. *)
Definition two_reports (s : Sys) : Sys :=
  after_all [Op_save_summary_report 10 7 3; Op_save_summary_report 10 8 2] s.

(** The sum of [g] over the hours [hs]. *)
Definition sum_over (hs : list Z) (g : Z -> Z) : Z :=
  fold_right Z.add 0 (map g hs).

(** The hours of the day, as the hourly query lists them. *)
Definition hours_of_day : list Z := map Z.of_nat (seq 0 24).

(** ** Further notions *)

(** The clock has not moved. *)
Definition same_clock (s s' : Sys) : Prop := now (env s') = now (env s).

(** The engine tag is the same. *)
Definition same_engine (s s' : Sys) : Prop :=
  db_type (self s') = db_type (self s).

(** The instance runs on the primary engine, which answers and has its
    schema. *)
Definition primary_ready (s : Sys) : Prop :=
  db_type (self s) = "postgresql" /\
  connection_pool (self s) = true /\
  (0 < max_retries (self s))%nat /\
  healthy PG s /\
  schema_created (committed (pg (env s))).

(** The instance on the primary engine after its first summary report. *)
Definition first_report : Sys :=
  after (Op_save_summary_report 10 7 3) on_postgresql.

(** The sum of the counts of a platform dictionary. *)
Definition total_count (ps : list (string * Z)) : Z :=
  fold_right Z.add 0 (map snd ps).

(** The instance on the embedded engine after one store was created. *)
Definition one_store : Sys :=
  after (Op_get_or_create_store "Cocopan Anonas"
           "https://www.foodpanda.ph/restaurant/cocopan-anonas") on_sqlite.

(** Every table that exists in [t] exists in [t'] with the same rows. *)
Definition rows_kept (t t' : Tables) : Prop :=
  (forall l, stores t = Some l -> stores t' = Some l) /\
  (forall l, status_checks t = Some l -> status_checks t' = Some l) /\
  (forall l, summary_reports t = Some l -> summary_reports t' = Some l).

(** Nothing committed to either engine has been lost. *)
Definition keeps_rows (s s' : Sys) : Prop :=
  rows_kept (committed (pg (env s))) (committed (pg (env s'))) /\
  rows_kept (committed (sqlite (env s))) (committed (sqlite (env s'))).

(** The engine that connection [c] does not belong to. *)
Definition other (c : resource) : resource :=
  match c with
  | PG => SQLITE
  | _ => PG
  end.

(** The stores table is well formed: urls and ids are distinct, no id is
    above the last one handed out, and the platform of every store is
    the one its url gives. *)
Definition stores_wellformed (t : Tables) : Prop :=
  forall l,
    stores t = Some l ->
    NoDup (map s_url l) /\ NoDup (map s_id l) /\
    forall r, In r l ->
      s_id r <= stores_seq t /\ s_platform r = platform_of (s_url r).

(** The WHERE clause of the hourly query of the engine in use. *)
Definition reported_today (s : Sys) (r : SummaryReport) : bool :=
  if is_postgresql (db_type (self s))
  then day_of (pg_at_time_zone_manila (env s) (sr_report_time r))
       =? pg_current_date (env s)
  else day_of (sr_report_time r + hours 8) =? day_of (now (env s) + hours 8).

(** With connection [c] in use: no attribute was assigned and nothing was
    committed to the engine that [c] does not belong to. *)
Definition kept_on (c : resource) (s s' : Sys) : Prop :=
  self s' = self s /\
  committed (engine_of (other c) (env s'))
  = committed (engine_of (other c) (env s)).

(** The same for the connection that the instance hands out. *)
Definition idle_kept (s s' : Sys) : Prop := kept_on (conn_of s) s s'.

(** The hour cell of the hourly query of the engine in use. *)
Definition hour_label (s : Sys) (h : Z) : sqlval :=
  if is_postgresql (db_type (self s)) then SqlInt h
  else SqlText (two_digits h).

(** * Properties of the layer *)

(** The four loops are instances of [retry_loop]. *)
Lemma _initialize_database_retry :
  _initialize_database =
  (retry_loop (fun _ : unit => tt)
     (fun _ => initialize_attempt ;; ret (Return tt))
     "Database initialization failed"
     (logger_info "Retrying" ;; sleep_retry_delay)
     (fallback_to_sqlite ;; ret (Next tt)) tt ;; ret tt).
Proof. reflexivity. Qed.

Lemma get_or_create_store_retry name url :
  get_or_create_store name url =
  retry_loop (fun _ : unit => tt) (fun _ => store_try name url)
    "Failed to get_or_create_store" sleep_retry_delay
    (raise PyException) tt.
Proof. reflexivity. Qed.

Lemma save_status_check_retry store_id is_online rt msg :
  save_status_check store_id is_online rt msg =
  retry_loop truncate_error_message (status_try store_id is_online rt)
    "Failed to save status check" sleep_retry_delay
    (logger_error "Failed to save status check after all attempts" ;;
     ret (Return false)) msg.
Proof. reflexivity. Qed.

Lemma save_summary_report_retry total online offline :
  save_summary_report total online offline =
  retry_loop (fun _ : unit => tt)
    (fun _ => summary_try total online offline)
    "Failed to save summary report" sleep_retry_delay
    (logger_error "Failed to save summary report after all attempts" ;;
     ret (Return false)) tt.
Proof. reflexivity. Qed.

(** ** Stepping through a method *)

Lemma bind_ok A B (m : M A) (k : A -> M B) s a s' :
  m s = (Ok a, s') -> bind m k s = k a s'.
Proof. unfold bind; intros ->; reflexivity. Qed.

Lemma bind_raise A B (m : M A) (k : A -> M B) s e s' :
  m s = (Raise e, s') -> bind m k s = (Raise e, s').
Proof. unfold bind; intros ->; reflexivity. Qed.

Lemma bind_inv A B (m : M A) (k : A -> M B) s r s' :
  bind m k s = (r, s') ->
  (exists a s1, m s = (Ok a, s1) /\ k a s1 = (r, s')) \/
  (exists e, m s = (Raise e, s') /\ r = Raise e).
Proof.
  unfold bind; destruct (m s) as [[a|e] s1]; intros H.
  - left; eauto.
  - right; inversion H; subst; eauto.
Qed.

Lemma outside_ok r e s :
  faults (env s) r (tick (env s)) = false ->
  outside r e s = (Ok tt, with_env (set_tick (S (tick (env s)))) s).
Proof. unfold outside; intros ->; reflexivity. Qed.

Lemma outside_fault r e s :
  faults (env s) r (tick (env s)) = true ->
  outside r e s = (Raise e, with_env (set_tick (S (tick (env s)))) s).
Proof. unfold outside; intros ->; reflexivity. Qed.

Lemma outside_inv r e s o s' :
  outside r e s = (o, s') ->
  s' = with_env (set_tick (S (tick (env s)))) s /\
  (o = Ok tt \/ o = Raise e).
Proof.
  unfold outside; destruct (faults _ _ _); intros H; inversion H; auto.
Qed.

Create HintDb respects.

(** ** Relations that every step of a method keeps

    [respects R m]: the state [m] ends in is [R]-related to the state it
    starts in, whether [m] returns or raises. *)
Section Respects.
Variable R : Sys -> Sys -> Prop.
Hypothesis R_refl : forall s, R s s.
Hypothesis R_trans : forall s1 s2 s3, R s1 s2 -> R s2 s3 -> R s1 s3.

Definition respects A (m : M A) : Prop := forall s, R s (snd (m s)).

Lemma respects_ret A (a : A) : respects (ret a).
Proof. intros s; apply R_refl. Qed.

Lemma respects_raise A e : respects (@raise A e).
Proof. intros s; apply R_refl. Qed.

Lemma respects_gets A (f : Sys -> A) : respects (gets f).
Proof. intros s; apply R_refl. Qed.

Lemma respects_lift A (o : outcome A) : respects (lift o).
Proof. intros s; apply R_refl. Qed.

Lemma respects_modify f : (forall s, R s (f s)) -> respects (modify f).
Proof. intros H s; apply H. Qed.

Lemma respects_bind A B (m : M A) (k : A -> M B) :
  respects m -> (forall a, respects (k a)) -> respects (bind m k).
Proof.
  intros Hm Hk s; unfold bind.
  specialize (Hm s); destruct (m s) as [[a|e] s1]; simpl in *; auto.
  eapply R_trans; [exact Hm | apply Hk].
Qed.

Lemma respects_try_except A (m : M A) h :
  respects m -> (forall e, respects (h e)) -> respects (try_except m h).
Proof.
  intros Hm Hh s; unfold try_except.
  specialize (Hm s); destruct (m s) as [[a|e] s1]; simpl in *; auto.
  eapply R_trans; [exact Hm | apply Hh].
Qed.

Lemma respects_try_finally A (m : M A) f :
  respects m -> (forall s, R s (f s)) -> respects (try_finally m f).
Proof.
  intros Hm Hf s; unfold try_finally.
  specialize (Hm s); destruct (m s) as [r s1]; simpl in *.
  eapply R_trans; [exact Hm | apply Hf].
Qed.

Lemma respects_for_range L A (body : nat -> L -> M (flow L A)) indices :
  (forall i l, respects (body i l)) ->
  forall l, respects (for_range indices body l).
Proof.
  intros Hb; induction indices as [|i rest IH]; intros l; simpl.
  - apply respects_ret.
  - apply respects_bind; [apply Hb|].
    intros [l'|a]; [apply IH | apply respects_ret].
Qed.

Lemma respects_if A (b : bool) (m1 m2 : M A) :
  respects m1 -> respects m2 -> respects (if b then m1 else m2).
Proof. destruct b; auto. Qed.

(** Steps that touch the clock, the log, the oracle position and the
    engines only. *)
Hypothesis R_tick : forall s n, R s (with_env (set_tick n) s).
Hypothesis R_log : forall s e, R s (with_env (add_log e) s).
Hypothesis R_now : forall s t, R s (with_env (set_now t) s).
Hypothesis R_engine : forall s c e, R s (with_env (set_engine c e) s).

Lemma R_set_view s c t : R s (set_view c t s).
Proof. apply (R_engine s c (set_working t (engine_of c (env s)))). Qed.

Lemma R_fresh_view s c : R s (fresh_view c s).
Proof. apply (R_set_view s c (committed (engine_of c (env s)))). Qed.

Lemma respects_outside r e : respects (outside r e).
Proof.
  intros s; unfold outside; destruct (faults _ _ _); simpl; apply R_tick.
Qed.

Lemma respects_logger_info msg : respects (logger_info msg).
Proof. intros s; apply R_log. Qed.

Lemma respects_logger_error msg : respects (logger_error msg).
Proof. intros s; apply R_log. Qed.

Lemma respects_time_sleep d : respects (time_sleep d).
Proof.
  intros s; simpl.
  eapply R_trans; [apply (R_now s (now (env s) + d))|].
  apply (R_log (with_env (set_now (now (env s) + d)) s) (Slept d)).
Qed.

Lemma respects_commit c : respects (commit c).
Proof.
  apply respects_bind; [apply respects_outside|]; intros _.
  apply respects_modify; intros s.
  apply (R_engine s c
           (set_committed (working (engine_of c (env s)))
                          (engine_of c (env s)))).
Qed.

Hint Resolve respects_ret respects_raise respects_gets respects_lift
  respects_outside respects_logger_info respects_logger_error
  respects_time_sleep respects_commit R_set_view R_fresh_view : respects.

(** A method built from the steps above respects [R]: split it at its
    [bind]s and branches. *)
Ltac respects_steps :=
  repeat first
    [ match goal with |- forall _, _ => intro end
    | solve [auto with respects]
    | match goal with
      | |- respects (bind _ _) => apply respects_bind
      | |- respects (try_except _ _) => apply respects_try_except
      | |- respects (try_finally _ _) => apply respects_try_finally
      | |- respects (for_range _ _ _) => apply respects_for_range
      | |- respects (modify _) => apply respects_modify
      | |- respects (if ?b then _ else _) => destruct b
      | |- respects (match ?x with _ => _ end) => destruct x
      end ].

Lemma respects_sleep_retry_delay : respects sleep_retry_delay.
Proof. unfold sleep_retry_delay; respects_steps. Qed.

Lemma respects_retries_left i : respects (retries_left i).
Proof. unfold retries_left, the_max_retries; respects_steps. Qed.

Lemma respects_get_connection A (body : resource -> M A) :
  (forall c, respects (body c)) -> respects (get_connection body).
Proof.
  intros Hb; unfold get_connection, the_db_type; respects_steps.
Qed.

Hint Resolve respects_sleep_retry_delay respects_retries_left : respects.

Lemma respects_create_tables : respects _create_tables.
Proof.
  unfold _create_tables; apply respects_get_connection; intros c.
  unfold the_db_type, execute_create_stores, execute_create_status_checks,
    execute_create_summary_reports; respects_steps.
Qed.

Lemma respects_store_try name url : respects (store_try name url).
Proof.
  unfold store_try; apply respects_get_connection; intros c.
  unfold the_db_type, execute_select_store_id, execute_insert_store;
    respects_steps.
Qed.

Lemma respects_status_try store_id is_online rt msg :
  respects (status_try store_id is_online rt msg).
Proof.
  unfold status_try; apply respects_get_connection; intros c.
  unfold the_db_type, execute_insert_status_check; respects_steps.
Qed.

Lemma respects_summary_try total online offline :
  respects (summary_try total online offline).
Proof.
  unfold summary_try; apply respects_bind; [apply respects_lift|].
  intros p; apply respects_get_connection; intros c.
  unfold the_db_type, execute_insert_summary_report; respects_steps.
Qed.

Lemma respects_retry_loop L A upd (blk : L -> M (flow L A)) err
    on_retry final :
  (forall l, respects (blk l)) -> respects on_retry -> respects final ->
  forall l, respects (retry_loop upd blk err on_retry final l).
Proof.
  intros Hb Hr Hf l; unfold retry_loop, retry_pass, the_max_retries.
  respects_steps.
Qed.

Hint Resolve respects_store_try respects_status_try respects_summary_try
  respects_create_tables : respects.

Lemma respects_get_or_create_store name url :
  respects (get_or_create_store name url).
Proof.
  rewrite get_or_create_store_retry.
  apply respects_retry_loop; auto with respects.
Qed.

Lemma respects_save_status_check store_id is_online rt msg :
  respects (save_status_check store_id is_online rt msg).
Proof.
  rewrite save_status_check_retry.
  apply respects_retry_loop; auto with respects; respects_steps.
Qed.

Lemma respects_save_summary_report total online offline :
  respects (save_summary_report total online offline).
Proof.
  rewrite save_summary_report_retry.
  apply respects_retry_loop; auto with respects; respects_steps.
Qed.

Lemma respects_read_join_query c q : respects (read_join_query c q).
Proof. unfold read_join_query; respects_steps. Qed.

Lemma respects_read_summary_query c q : respects (read_summary_query c q).
Proof. unfold read_summary_query; respects_steps. Qed.

Hint Resolve respects_read_join_query respects_read_summary_query
  : respects.

Lemma respects_get_latest_status : respects get_latest_status.
Proof.
  unfold get_latest_status, latest_status_try; apply respects_try_except;
    [apply respects_get_connection|]; respects_steps.
Qed.

Lemma respects_get_hourly_data : respects get_hourly_data.
Proof.
  unfold get_hourly_data, hourly_data_try, the_db_type;
    apply respects_try_except;
    [apply respects_get_connection|]; respects_steps.
Qed.

Lemma respects_get_store_logs limit : respects (get_store_logs limit).
Proof.
  unfold get_store_logs, store_logs_try, the_db_type;
    apply respects_try_except;
    [apply respects_get_connection|]; respects_steps.
Qed.

Lemma respects_get_daily_uptime : respects get_daily_uptime.
Proof.
  unfold get_daily_uptime, daily_uptime_try, the_db_type;
    apply respects_try_except;
    [apply respects_get_connection|]; respects_steps.
Qed.

Lemma respects_get_database_stats : respects get_database_stats.
Proof.
  unfold get_database_stats, database_stats_try, the_db_type, select_stores,
    select_count_status_checks, select_latest_summary;
    apply respects_try_except;
    [apply respects_get_connection|]; respects_steps.
Qed.

Lemma respects_close : respects close.
Proof. unfold close; respects_steps. Qed.

(** Initialization also assigns attributes. *)
Hypothesis R_pool : forall s v, R s (with_self (set_connection_pool v) s).
Hypothesis R_path : forall s v, R s (with_self (set_sqlite_path v) s).
Hypothesis R_sqlite : forall s, R s (with_self (set_db_type "sqlite") s).

Lemma respects_init_postgresql : respects _init_postgresql.
Proof. unfold _init_postgresql; respects_steps. Qed.

Lemma respects_init_sqlite : respects _init_sqlite.
Proof. unfold _init_sqlite; respects_steps. Qed.

Hint Resolve respects_init_postgresql respects_init_sqlite : respects.

Lemma respects_initialize_attempt : respects initialize_attempt.
Proof. unfold initialize_attempt, the_db_type; respects_steps. Qed.

Lemma respects_fallback_to_sqlite : respects fallback_to_sqlite.
Proof. unfold fallback_to_sqlite; respects_steps. Qed.

Hint Resolve respects_initialize_attempt respects_fallback_to_sqlite
  : respects.

Lemma respects_initialize_database : respects _initialize_database.
Proof.
  rewrite _initialize_database_retry.
  apply respects_bind; [|intros; apply respects_ret].
  apply respects_retry_loop; respects_steps.
Qed.
End Respects.

(** ** The relations are kept *)

Lemma same_world_refl s : same_world s s.
Proof. unfold same_world; auto 10. Qed.

Lemma same_world_trans s1 s2 s3 :
  same_world s1 s2 -> same_world s2 s3 -> same_world s1 s3.
Proof. unfold same_world; intuition congruence. Qed.

Lemma same_self_refl s : same_self s s.
Proof. reflexivity. Qed.

Lemma same_self_trans s1 s2 s3 :
  same_self s1 s2 -> same_self s2 s3 -> same_self s1 s3.
Proof. unfold same_self; congruence. Qed.

Lemma same_retries_refl s : same_retries s s.
Proof. split; reflexivity. Qed.

Lemma same_retries_trans s1 s2 s3 :
  same_retries s1 s2 -> same_retries s2 s3 -> same_retries s1 s3.
Proof. unfold same_retries; intuition congruence. Qed.

Lemma engine_choice_refl s : engine_choice s s.
Proof. left; reflexivity. Qed.

Lemma engine_choice_trans s1 s2 s3 :
  engine_choice s1 s2 -> engine_choice s2 s3 -> engine_choice s1 s3.
Proof. unfold engine_choice; intuition congruence. Qed.

(** ** The retry loop, pass by pass *)
Section RetryFacts.
Variables L A : Type.
Variable upd : L -> L.
Variable try_block : L -> M (flow L A).
Variable err : string.
Variable on_retry : M unit.
Variable final : M (flow L A).

Hypothesis block_retries : forall l, respects same_retries (try_block l).
Hypothesis on_retry_retries : respects same_retries on_retry.
Hypothesis on_retry_ok : forall s, exists s', on_retry s = (Ok tt, s').

Let pass := retry_pass upd try_block err on_retry final.
Let failed := failed_passes upd try_block err on_retry.
Let between := between_passes err on_retry.

Lemma between_retries s e s1 l :
  try_block l s = (Raise e, s1) ->
  max_retries (self (between s1)) = max_retries (self s).
Proof.
  intros H. pose proof (block_retries l s) as [H1 _]. rewrite H in H1.
  simpl in H1. rewrite <- H1.
  unfold between, between_passes, bind, logger_error, modify.
  pose proof (on_retry_retries
                (with_env (add_log (Error err)) s1)) as [H2 _].
  destruct (on_retry _) as [[[]|e'] s2]; simpl in *; exact H2.
Qed.

(** A pass whose [try] block raises, with passes left: the loop goes on
    from the state in between. *)
Lemma pass_again i l s e s1 :
  try_block (upd l) s = (Raise e, s1) ->
  (S i < max_retries (self s))%nat ->
  pass i l s = (Ok (Next (upd l)), between s1).
Proof.
  intros H Hi.
  pose proof (block_retries (upd l) s) as [H1 _]. rewrite H in H1.
  simpl in H1.
  unfold pass, retry_pass, try_except. rewrite H.
  unfold between, between_passes, bind, logger_error, modify,
    retries_left, the_max_retries, gets, ret. simpl.
  rewrite H1.
  replace (Z.of_nat i <? Z.of_nat (max_retries (self s)) - 1) with true
    by (symmetry; apply Z.ltb_lt; lia).
  destruct (on_retry_ok (with_env (add_log (Error err)) s1)) as [s2 ->].
  reflexivity.
Qed.

(** The last pass, when its [try] block raises. *)
Lemma pass_last i l s e s1 :
  try_block (upd l) s = (Raise e, s1) ->
  max_retries (self s) = S i ->
  pass i l s = final (with_env (add_log (Error err)) s1).
Proof.
  intros H Hi.
  pose proof (block_retries (upd l) s) as [H1 _]. rewrite H in H1.
  simpl in H1.
  unfold pass, retry_pass, try_except. rewrite H.
  unfold bind, logger_error, modify, retries_left, the_max_retries,
    gets, ret. simpl.
  rewrite H1, Hi.
  replace (Z.of_nat i <? Z.of_nat (S i) - 1) with false
    by (symmetry; apply Z.ltb_ge; lia).
  reflexivity.
Qed.

Lemma pass_returns i l s a s1 :
  try_block (upd l) s = (Ok (Return a), s1) ->
  pass i l s = (Ok (Return a), s1).
Proof.
  intros H; unfold pass, retry_pass, try_except; rewrite H; reflexivity.
Qed.

(** What the loop returns after its last pass has raised. *)
Definition after_final (s : Sys) : outcome (option A) * Sys :=
  match final (with_env (add_log (Error err)) s) with
  | (Ok (Return a), s') => (Ok (Some a), s')
  | (Ok (Next _), s') => (Ok None, s')
  | (Raise e, s') => (Raise e, s')
  end.

Lemma loop_success_from k l s l1 s1 :
  failed k l s l1 s1 ->
  forall i m a s2,
    max_retries (self s) = (i + m)%nat -> (k < m)%nat ->
    try_block (upd l1) s1 = (Ok (Return a), s2) ->
    for_range (seq i m) pass l s = (Ok (Some a), s2).
Proof.
  induction 1 as [l s | k l s e s1 l2 s2 Hraise Hrest IH];
    intros i m a s3 Hn Hk Hok.
  - destruct m as [|m]; [lia|]. simpl.
    erewrite bind_ok by (apply pass_returns; exact Hok). reflexivity.
  - destruct m as [|m]; [lia|]. simpl.
    erewrite bind_ok by (eapply pass_again; [exact Hraise | lia]).
    apply IH; [|lia|exact Hok].
    fold between.
    rewrite (between_retries Hraise). lia.
Qed.

Lemma loop_exhausted_from k l s l1 s1 :
  failed k l s l1 s1 ->
  forall i e s2,
    max_retries (self s) = (i + S k)%nat ->
    try_block (upd l1) s1 = (Raise e, s2) ->
    for_range (seq i (S k)) pass l s = after_final s2.
Proof.
  induction 1 as [l s | k l s e s1 l2 s2 Hraise Hrest IH];
    intros i e' s3 Hn Hlast.
  - simpl. unfold bind.
    rewrite (pass_last (i:=i) Hlast) by lia.
    unfold after_final.
    destruct (final _) as [[[l'|a]|e''] s4]; reflexivity.
  - change (seq i (S (S k))) with (i :: seq (S i) (S k)).
    cbn [for_range].
    erewrite bind_ok by (eapply pass_again; [exact Hraise | lia]).
    apply IH with (e := e'); [|exact Hlast].
    fold between.
    rewrite (between_retries Hraise). lia.
Qed.

(** Passes either reach a [try] block that returns, or all raise. *)
Lemma passes_cases m :
  (forall l s l' s', try_block l s <> (Ok (Next l'), s')) ->
  forall l s,
    (exists k l1 s1 a s2,
        failed k l s l1 s1 /\ (k < S m)%nat /\
        try_block (upd l1) s1 = (Ok (Return a), s2)) \/
    (exists l1 s1 e s2,
        failed m l s l1 s1 /\ try_block (upd l1) s1 = (Raise e, s2)).
Proof.
  intros Hnext; induction m as [|m IH]; intros l s.
  - destruct (try_block (upd l) s) as [[[l'|a]|e] s1] eqn:E.
    + exfalso; exact (Hnext _ _ _ _ E).
    + left; exists 0%nat, l, s, a, s1.
      split; [apply failed_O | split; [lia | exact E]].
    + right; exists l, s, e, s1; split; auto. apply failed_O.
  - destruct (try_block (upd l) s) as [[[l'|a]|e] s1] eqn:E.
    + exfalso; exact (Hnext _ _ _ _ E).
    + left; exists 0%nat, l, s, a, s1.
      split; [apply failed_O | split; [lia | exact E]].
    + destruct (IH (upd l) (between s1))
        as [(k & l1 & s2 & a & s3 & Hf & Hk & Hok)
           |(l1 & s2 & e' & s3 & Hf & Hr)].
      * left; exists (S k), l1, s2, a, s3.
        split; [eapply failed_S; eauto | split; [lia | exact Hok]].
      * right; exists l1, s2, e', s3; split; auto.
        eapply failed_S; eauto.
Qed.

(** The passes that raise keep every relation that a raising [try]
    block and the pause keep. *)
Lemma failed_passes_keep (R : Sys -> Sys -> Prop) :
  (forall s, R s s) ->
  (forall s1 s2 s3, R s1 s2 -> R s2 s3 -> R s1 s3) ->
  (forall l s e s1, try_block l s = (Raise e, s1) -> R s s1) ->
  (forall s, R s (between s)) ->
  forall k l s l1 s1, failed k l s l1 s1 -> R s s1.
Proof.
  intros Hrefl Htrans Hblk Hbtw; induction 1; auto.
  eapply Htrans; [eapply Hblk; eauto|].
  eapply Htrans; [apply Hbtw|]; auto.
Qed.

Lemma failed_snoc k l s l1 s1 :
  failed k l s l1 s1 ->
  forall e s2,
    try_block (upd l1) s1 = (Raise e, s2) ->
    failed (S k) l s (upd l1) (between s2).
Proof.
  induction 1 as [l s | k l s e s1 l2 s2 Hraise Hrest IH]; intros e' s3 H.
  - eapply failed_S; [exact H | apply failed_O].
  - eapply failed_S; [exact Hraise | eapply IH; exact H].
Qed.

(** Passes that raise in a row: each of them raises. *)
Lemma failed_split k l s l1 s1 :
  failed k l s l1 s1 ->
  forall j l2 s2,
    failed (k + S j) l s l2 s2 ->
    exists e s', try_block (upd l1) s1 = (Raise e, s').
Proof.
  induction 1 as [l s | k l s e s1 l2 s2 Hraise Hrest IH];
    intros j l3 s3 H; simpl in H; inversion H; subst.
  - eauto.
  - match goal with
    | H1 : try_block (upd l) s = (Raise ?e1, ?sa) |- _ =>
        rewrite Hraise in H1; inversion H1; subst
    end.
    eapply IH; eauto.
Qed.

(** The last of the passes that raise in a row. *)
Lemma failed_last k : forall l s l2 s2,
  failed (S k) l s l2 s2 ->
  exists l1 s1 e s',
    failed k l s l1 s1 /\ try_block (upd l1) s1 = (Raise e, s').
Proof.
  induction k as [|k IH]; intros l s l2 s2 H; inversion H; subst.
  - exists l, s, e, s1. split; [apply failed_O | assumption].
  - match goal with
    | Hrest : failed_passes _ _ _ _ (S k) _ _ _ _ |- _ =>
        destruct (IH _ _ _ _ Hrest) as (l1 & sa & e' & sb & Hf & Hr)
    end.
    exists l1, sa, e', sb. split; [|exact Hr].
    eapply failed_S; eauto.
Qed.

Let loop := retry_loop upd try_block err on_retry final.

(** After [k] failed passes, with passes left, a [try] block that
    returns ends the loop with its value. *)
Lemma retry_loop_success k l s l1 s1 a s2 :
  failed k l s l1 s1 ->
  (k < max_retries (self s))%nat ->
  try_block (upd l1) s1 = (Ok (Return a), s2) ->
  loop l s = (Ok (Some a), s2).
Proof.
  intros Hf Hk Hok. unfold loop, retry_loop, the_max_retries, range.
  unfold bind at 1, gets.
  eapply loop_success_from; eauto.
Qed.

(** When all [max_retries] passes raise, the loop ends as the last
    branch of the handler says. *)
Lemma retry_loop_exhausted k l s l1 s1 e s2 :
  failed k l s l1 s1 ->
  max_retries (self s) = S k ->
  try_block (upd l1) s1 = (Raise e, s2) ->
  loop l s = after_final s2.
Proof.
  intros Hf Hk Hlast. unfold loop, retry_loop, the_max_retries, range.
  unfold bind at 1, gets. rewrite Hk.
  eapply loop_exhausted_from; eauto.
Qed.

Lemma retry_loop_zero l s :
  max_retries (self s) = 0%nat -> loop l s = (Ok None, s).
Proof.
  intros H. unfold loop, retry_loop, the_max_retries, range.
  unfold bind, gets. rewrite H. reflexivity.
Qed.

(** With locals that a second update leaves alone, every pass works on
    the same locals. *)
Lemma failed_locals k l s l1 s1 :
  (forall x, upd (upd x) = upd x) ->
  failed k l s l1 s1 -> upd l1 = upd l.
Proof.
  intros Hupd; induction 1 as [l s | k l s e s1 l2 s2 Hraise Hrest IH].
  - reflexivity.
  - rewrite IH. apply Hupd.
Qed.

(** Every run of the loop is one of the two. *)
Lemma retry_loop_inv l s r s' :
  (0 < max_retries (self s))%nat ->
  (forall l s l' s', try_block l s <> (Ok (Next l'), s')) ->
  loop l s = (r, s') ->
  (exists k l1 s1 a,
      failed k l s l1 s1 /\ (k < max_retries (self s))%nat /\
      try_block (upd l1) s1 = (Ok (Return a), s') /\ r = Ok (Some a)) \/
  (exists k l1 s1 e s2,
      failed k l s l1 s1 /\ max_retries (self s) = S k /\
      try_block (upd l1) s1 = (Raise e, s2) /\ after_final s2 = (r, s')).
Proof.
  intros Hn Hnext Hrun.
  destruct (max_retries (self s)) as [|m] eqn:En; [lia|].
  destruct (passes_cases m Hnext l s)
    as [(k & l1 & s1 & a & s2 & Hf & Hk & Hok)
       |(l1 & s1 & e & s2 & Hf & Hr)].
  - left; exists k, l1, s1, a.
    assert (H : loop l s = (Ok (Some a), s2))
      by (eapply retry_loop_success; eauto; lia).
    rewrite H in Hrun; inversion Hrun; subst; auto.
  - right; exists m, l1, s1, e, s2.
    assert (H : loop l s = after_final s2)
      by (eapply retry_loop_exhausted; eauto).
    rewrite H in Hrun; auto.
Qed.
End RetryFacts.

Lemma same_data_refl s : same_data s s.
Proof. unfold same_data; auto. Qed.

Lemma same_data_trans s1 s2 s3 :
  same_data s1 s2 -> same_data s2 s3 -> same_data s1 s3.
Proof. unfold same_data; intuition congruence. Qed.

Lemma same_data_tick s n : same_data s (with_env (set_tick n) s).
Proof. unfold same_data; auto. Qed.

Lemma same_data_log s e : same_data s (with_env (add_log e) s).
Proof. unfold same_data; auto. Qed.

Lemma same_data_now s t : same_data s (with_env (set_now t) s).
Proof. unfold same_data; auto. Qed.

Lemma same_data_set_view s c t : same_data s (set_view c t s).
Proof. unfold same_data; destruct c; auto. Qed.

Lemma same_data_fresh_view s c : same_data s (fresh_view c s).
Proof. unfold same_data; destruct c; auto. Qed.

#[local] Hint Resolve same_data_refl same_data_tick same_data_log
  same_data_now same_data_set_view same_data_fresh_view : core.

Lemma same_data_active s s' :
  same_data s s' -> active_tables s' = active_tables s.
Proof.
  intros (Hs & Hp & Hl); unfold active_tables, conn_of; rewrite Hs.
  destruct (is_postgresql _); simpl; auto.
Qed.

Lemma same_data_conn s s' : same_data s s' -> conn_of s' = conn_of s.
Proof. intros (Hs & _); unfold conn_of; rewrite Hs; reflexivity. Qed.

(** ** The scoped connection *)

(** A [with self.get_connection()] block either never reaches its body,
    or runs it once on an acquired connection; what the body raises comes
    out as a plain [Exception], and nothing is committed outside the
    body. *)
Lemma get_connection_inv A (body : resource -> M A) s r s' :
  get_connection body s = (r, s') ->
  (r = Raise PyException /\ same_data s s') \/
  (exists s0 r0 s1,
      acquired (conn_of s) s s0 /\ body (conn_of s) s0 = (r0, s1) /\
      same_data s1 s' /\
      r = match r0 with Ok a => Ok a | Raise _ => Raise PyException end).
Proof.
  unfold get_connection, the_db_type, conn_of, bind, gets, try_except,
    try_finally, outside, logger_error, modify, raise.
  destruct (is_postgresql (db_type (self s))) eqn:Edb;
    [destruct (connection_pool (self s))
    |destruct (sqlite_path (self s))]; simpl;
    repeat match goal with
      | |- context [if faults ?w ?c ?k then _ else _] =>
          destruct (faults w c k); simpl
      end;
    try (intros H; inversion H; subst; left; split;
         [reflexivity | unfold same_data; auto]).
  - match goal with |- context [body PG ?s0] =>
      destruct (body PG s0) as [[a|e] s1] eqn:Eb
    end; simpl; intros H; inversion H; subst; right;
    eexists _, _, s1; (split; [|split; [exact Eb|split]]);
    try reflexivity;
    try (unfold acquired, same_data, same_world, conn_of, view;
         simpl; rewrite ?Edb; auto 10);
    unfold same_data; auto.
  - match goal with |- context [body SQLITE ?s0] =>
      destruct (body SQLITE s0) as [[a|e] s1] eqn:Eb
    end; simpl; intros H; inversion H; subst; right;
    eexists _, _, s1; (split; [|split; [exact Eb|split]]);
    try reflexivity;
    try (unfold acquired, same_data, same_world, conn_of, view;
         simpl; rewrite ?Edb; auto 10);
    unfold same_data; auto.
Qed.

(** ** Statements, one by one

    No statement commits; [commit] makes the view of the connection the
    committed state. *)

Ltac run_statement c :=
  unfold bind, gets, ret, raise, modify, outside, view;
  destruct c; simpl;
  repeat match goal with
    | |- context [if faults ?w ?r ?k then _ else _] =>
        destruct (faults w r k); simpl
    end.

Ltac close_statement :=
  let H := fresh in
  solve [intros H; inversion H; subst; clear H; simpl;
         repeat split; eauto 10].

Lemma commit_inv c s r s' :
  commit c s = (r, s') ->
  match r with
  | Raise _ => same_data s s'
  | Ok _ =>
      self s' = self s /\ committed (engine_of c (env s')) = view c s
  end.
Proof. unfold commit; run_statement c; close_statement. Qed.

Lemma execute_select_store_id_inv c url s r s' :
  execute_select_store_id c url s = (r, s') ->
  same_data s s' /\ view c s' = view c s /\
  match r with
  | Raise _ => True
  | Ok res =>
      exists l, stores (view c s) = Some l /\
        res = option_map s_id (find (fun x => (s_url x =? url)%string) l)
  end.
Proof.
  unfold execute_select_store_id; run_statement c;
    try close_statement;
    match goal with
    | |- context [match stores ?t with _ => _ end] =>
        destruct (stores t) eqn:?; simpl
    end; close_statement.
Qed.

Lemma execute_insert_store_inv c name url platform s r s' :
  execute_insert_store c name url platform s = (r, s') ->
  same_data s s' /\
  match r with
  | Raise _ => True
  | Ok id =>
      exists l row,
        stores (view c s) = Some l /\
        existsb (fun x => (s_url x =? url)%string) l = false /\
        view c s' = set_stores (Some (l ++ [row])%list) id (view c s) /\
        s_id row = id /\ s_name row = name /\ s_url row = url /\
        s_platform row = platform
  end.
Proof.
  unfold execute_insert_store; run_statement c;
    try close_statement;
    match goal with
    | |- context [match stores ?t with _ => _ end] =>
        destruct (stores t) as [l|] eqn:?; simpl
    end; try close_statement;
    match goal with
    | |- context [if existsb ?f ?l then _ else _] =>
        destruct (existsb f l) eqn:?; simpl
    end; try close_statement;
    intros H; inversion H; subst; clear H; simpl;
    (split; [unfold same_data; auto|]);
    eexists l, _; repeat split; try reflexivity; eauto.
Qed.

Lemma execute_insert_status_check_inv c store_id is_online rt msg s r s' :
  execute_insert_status_check c store_id is_online rt msg s = (r, s') ->
  same_data s s' /\
  match r with
  | Raise _ => True
  | Ok _ =>
      exists l row,
        status_checks (view c s) = Some l /\
        view c s' =
          set_status_checks (Some (l ++ [row])%list)
            (status_checks_seq (view c s) + 1) (view c s) /\
        sc_store_id row = store_id /\ sc_is_online row = is_online /\
        sc_response_time_ms row = rt /\ sc_error_message row = msg
  end.
Proof.
  unfold execute_insert_status_check; run_statement c;
    try close_statement;
    match goal with
    | |- context [match status_checks ?t with _ => _ end] =>
        destruct (status_checks t) as [l|] eqn:?; simpl
    end; try close_statement;
    try match goal with
    | |- context [if negb ?b then _ else _] => destruct b; simpl
    end; try close_statement;
    intros H; inversion H; subst; clear H; simpl;
    (split; [unfold same_data; auto|]);
    eexists l, _; repeat split; try reflexivity; eauto.
Qed.

Lemma execute_insert_summary_report_inv c total online offline pct s r s' :
  execute_insert_summary_report c total online offline pct s = (r, s') ->
  same_data s s' /\
  match r with
  | Raise _ => True
  | Ok _ =>
      exists l row,
        summary_reports (view c s) = Some l /\
        view c s' =
          set_summary_reports (Some (l ++ [row])%list)
            (summary_reports_seq (view c s) + 1) (view c s) /\
        sr_total_stores row = total /\ sr_online_stores row = online /\
        sr_offline_stores row = offline /\ sr_online_percentage row = pct
  end.
Proof.
  unfold execute_insert_summary_report; run_statement c;
    try close_statement;
    match goal with
    | |- context [match summary_reports ?t with _ => _ end] =>
        destruct (summary_reports t) as [l|] eqn:?; simpl
    end; try close_statement;
    intros H; inversion H; subst; clear H; simpl;
    (split; [unfold same_data; auto|]);
    eexists l, _; repeat split; try reflexivity; eauto.
Qed.

Lemma same_data_committed c s s' :
  same_data s s' ->
  committed (engine_of c (env s')) = committed (engine_of c (env s)).
Proof. intros (_ & Hp & Hl); destruct c; simpl; auto. Qed.

Lemma acquired_view s s0 :
  acquired (conn_of s) s s0 -> view (conn_of s) s0 = active_tables s.
Proof.
  intros (Hd & _ & _ & Hv & _). rewrite Hv.
  apply (same_data_committed (conn_of s) Hd).
Qed.

Lemma committed_active c s1 s' s :
  same_data s1 s' -> self s1 = self s -> c = conn_of s ->
  active_tables s' = committed (engine_of c (env s1)).
Proof.
  intros Hd Hs ->. unfold active_tables.
  rewrite (same_data_conn Hd). unfold conn_of at 1 2. rewrite Hs.
  fold (conn_of s). apply (same_data_committed (conn_of s) Hd).
Qed.

(** ** The [try] blocks of the write operations

    A [try] block that raises has committed nothing; one that returns has
    committed exactly its row. *)

Lemma status_try_inv store_id is_online rt msg s r s' :
  status_try store_id is_online rt msg s = (r, s') ->
  match r with
  | Raise _ => same_data s s'
  | Ok f =>
      f = Return true /\ self s' = self s /\
      exists l row,
        status_checks (active_tables s) = Some l /\
        active_tables s' =
          set_status_checks (Some (l ++ [row])%list)
            (status_checks_seq (active_tables s) + 1) (active_tables s) /\
        sc_store_id row = store_id /\ sc_is_online row = is_online /\
        sc_response_time_ms row = rt /\ sc_error_message row = msg
  end.
Proof.
  intros H.
  apply get_connection_inv in H
    as [[-> Hd] | (s0 & r0 & s1 & Hacq & Hbody & Hd & ->)]; [exact Hd|].
  pose proof Hacq as (Hd0 & _ & Hc & _ & _).
  unfold the_db_type in Hbody. unfold bind at 1, gets in Hbody.
  assert (Hins :
    (execute_insert_status_check (conn_of s) store_id is_online rt msg ;;
     commit (conn_of s) ;; ret (Return (L := option string) true)) s0
    = (r0, s1))
    by (destruct (is_postgresql (db_type (self s0))); exact Hbody).
  clear Hbody.
  apply bind_inv in Hins as [(u & s2 & H1 & H2) | (e & H1 & ->)];
    apply execute_insert_status_check_inv in H1 as (Hd1 & H1).
  - apply bind_inv in H2 as [(u' & s3 & H3 & H4) | (e & H3 & ->)];
      apply commit_inv in H3.
    + inversion H4; subst; clear H4. destruct H3 as (Hs3 & Hc3).
      destruct H1 as (l & row & Hl & Hv & Hrow).
      rewrite (acquired_view Hacq) in Hl, Hv.
      assert (Hself : self s1 = self s).
      { rewrite Hs3. destruct Hd1 as (-> & _). destruct Hd0 as (-> & _).
        reflexivity. }
      split; [reflexivity|]. split.
      * destruct Hd as (-> & _); exact Hself.
      * exists l, row. split; [exact Hl|]. split; [|exact Hrow].
        rewrite (committed_active s Hd Hself eq_refl).
        rewrite Hc3. exact Hv.
    + eapply same_data_trans; [exact Hd0|].
      eapply same_data_trans; [exact Hd1|].
      eapply same_data_trans; [exact H3|exact Hd].
  - eapply same_data_trans; [exact Hd0|].
    eapply same_data_trans; [exact Hd1|exact Hd].
Qed.

Lemma summary_try_inv total online offline s r s' :
  summary_try total online offline s = (r, s') ->
  match r with
  | Raise _ => same_data s s'
  | Ok f =>
      f = Return true /\ self s' = self s /\
      exists pct l row,
        online_percentage_of total online = Ok pct /\
        summary_reports (active_tables s) = Some l /\
        active_tables s' =
          set_summary_reports (Some (l ++ [row])%list)
            (summary_reports_seq (active_tables s) + 1) (active_tables s) /\
        sr_total_stores row = total /\ sr_online_stores row = online /\
        sr_offline_stores row = offline /\ sr_online_percentage row = pct
  end.
Proof.
  unfold summary_try. unfold bind at 1, lift.
  destruct (online_percentage_of total online) as [pct|e] eqn:Epct;
    [|intros H; inversion H; subst; apply same_data_refl].
  intros H.
  apply get_connection_inv in H
    as [[-> Hd] | (s0 & r0 & s1 & Hacq & Hbody & Hd & ->)]; [exact Hd|].
  pose proof Hacq as (Hd0 & _ & Hc & _ & _).
  unfold the_db_type in Hbody. unfold bind at 1, gets in Hbody.
  assert (Hins :
    (execute_insert_summary_report (conn_of s) total online offline pct ;;
     commit (conn_of s) ;; ret (Return (L := unit) true)) s0 = (r0, s1))
    by (destruct (is_postgresql (db_type (self s0))); exact Hbody).
  clear Hbody.
  apply bind_inv in Hins as [(u & s2 & H1 & H2) | (e & H1 & ->)];
    apply execute_insert_summary_report_inv in H1 as (Hd1 & H1).
  - apply bind_inv in H2 as [(u' & s3 & H3 & H4) | (e & H3 & ->)];
      apply commit_inv in H3.
    + inversion H4; subst; clear H4. destruct H3 as (Hs3 & Hc3).
      destruct H1 as (l & row & Hl & Hv & Hrow).
      rewrite (acquired_view Hacq) in Hl, Hv.
      assert (Hself : self s1 = self s).
      { rewrite Hs3. destruct Hd1 as (-> & _). destruct Hd0 as (-> & _).
        reflexivity. }
      split; [reflexivity|]. split.
      * destruct Hd as (-> & _); exact Hself.
      * exists pct, l, row. split; [reflexivity|].
        split; [exact Hl|]. split; [|exact Hrow].
        rewrite (committed_active s Hd Hself eq_refl).
        rewrite Hc3. exact Hv.
    + eapply same_data_trans; [exact Hd0|].
      eapply same_data_trans; [exact Hd1|].
      eapply same_data_trans; [exact H3|exact Hd].
  - eapply same_data_trans; [exact Hd0|].
    eapply same_data_trans; [exact Hd1|exact Hd].
Qed.

Lemma store_try_inv name url s r s' :
  store_try name url s = (r, s') ->
  match r with
  | Raise _ => same_data s s'
  | Ok f =>
      self s' = self s /\
      exists id l,
        f = Return id /\ stores (active_tables s) = Some l /\
        ((exists row,
             find (fun x => (s_url x =? url)%string) l = Some row /\
             s_id row = id /\ same_data s s') \/
         (find (fun x => (s_url x =? url)%string) l = None /\
          exists row,
            active_tables s' =
              set_stores (Some (l ++ [row])%list) id (active_tables s) /\
            s_id row = id /\ s_name row = name /\ s_url row = url /\
            s_platform row = platform_of url))
  end.
Proof.
  intros H.
  apply get_connection_inv in H
    as [[-> Hd] | (s0 & r0 & s1 & Hacq & Hbody & Hd & ->)]; [exact Hd|].
  pose proof Hacq as (Hd0 & _ & Hc & _ & _).
  unfold the_db_type in Hbody. unfold bind at 1, gets in Hbody.
  assert (Hrun :
    (found_or_new <-
       (result <- execute_select_store_id (conn_of s) url ;;
        match result with
        | Some id => ret (inl id)
        | None =>
            store_id <- execute_insert_store (conn_of s) name url
                          (platform_of url) ;;
            ret (inr store_id)
        end) ;;
     match found_or_new with
     | inl id => ret (Return (L := unit) id)
     | inr store_id => commit (conn_of s) ;; ret (Return store_id)
     end) s0 = (r0, s1))
    by (destruct (is_postgresql (db_type (self s0))); exact Hbody).
  clear Hbody.
  apply bind_inv in Hrun as [(v & s2 & H1 & H2) | (e & H1 & ->)].
  - apply bind_inv in H1 as [(res & sa & Hsel & Hres) | (e & Hsel & Heq)];
      [|discriminate Heq].
    apply execute_select_store_id_inv in Hsel as (Hda & Hva & l & Hl & ->).
    rewrite (acquired_view Hacq) in Hl.
    destruct (find (fun x => (s_url x =? url)%string) l) as [row|] eqn:Ef;
      simpl in Hres.
    + inversion Hres; subst; clear Hres. simpl in H2.
      inversion H2; subst; clear H2.
      assert (Hall : same_data s s').
      { eapply same_data_trans; [exact Hd0|].
        eapply same_data_trans; [exact Hda|exact Hd]. }
      split; [destruct Hall as (-> & _); reflexivity|].
      exists (s_id row), l. split; [reflexivity|]. split; [exact Hl|].
      left; exists row; auto.
    + apply bind_inv in Hres as [(sid & sb & Hins & Hr) | (e & Hins & Heq)];
        [|discriminate Heq].
      inversion Hr; subst; clear Hr.
      apply execute_insert_store_inv in Hins
        as (Hdb & l' & row & Hl' & _ & Hv & Hrow).
      rewrite Hva, (acquired_view Hacq) in Hl', Hv.
      rewrite Hl in Hl'; inversion Hl'; subst l'; clear Hl'.
      apply bind_inv in H2 as [(u' & s3 & H3 & H4) | (e & H3 & ->)];
        apply commit_inv in H3.
      * inversion H4; subst; clear H4. destruct H3 as (Hs3 & Hc3).
        assert (Hself : self s1 = self s).
        { rewrite Hs3. destruct Hdb as (-> & _). destruct Hda as (-> & _).
          destruct Hd0 as (-> & _). reflexivity. }
        split; [destruct Hd as (-> & _); exact Hself|].
        exists sid, l. split; [reflexivity|]. split; [exact Hl|].
        right. split; [exact Ef|]. exists row. split; [|exact Hrow].
        rewrite (committed_active s Hd Hself eq_refl).
        rewrite Hc3. exact Hv.
      * eapply same_data_trans; [exact Hd0|].
        eapply same_data_trans; [exact Hda|].
        eapply same_data_trans; [exact Hdb|].
        eapply same_data_trans; [exact H3|exact Hd].
  - apply bind_inv in H1 as [(res & sa & Hsel & Hres) | (e' & Hsel & Heq)].
    + apply execute_select_store_id_inv in Hsel as (Hda & Hva & Hsel).
      destruct res as [id|]; simpl in Hres; [discriminate Hres|].
      apply bind_inv in Hres as [(sid & sb & Hins & Hr) | (e'' & Hins & Heq)];
        [discriminate Hr|].
      apply execute_insert_store_inv in Hins as (Hdb & _).
      eapply same_data_trans; [exact Hd0|].
      eapply same_data_trans; [exact Hda|].
      eapply same_data_trans; [exact Hdb|exact Hd].
    + apply execute_select_store_id_inv in Hsel as (Hda & _).
      eapply same_data_trans; [exact Hd0|].
      eapply same_data_trans; [exact Hda|exact Hd].
Qed.

(** No [try] block of the module falls through to the next pass. *)
Lemma get_connection_not_next L A (body : resource -> M (flow L A)) :
  (forall c s l s', body c s <> (Ok (Next l), s')) ->
  forall s l s', get_connection body s <> (Ok (Next l), s').
Proof.
  intros Hb s l s' H.
  apply get_connection_inv in H
    as [[H _] | (s0 & r0 & s1 & _ & Hbody & _ & H)]; [discriminate H|].
  destruct r0 as [f|e]; [|discriminate H].
  inversion H; subst. exact (Hb _ _ _ _ Hbody).
Qed.

Lemma status_try_not_next store_id is_online rt msg s l s' :
  status_try store_id is_online rt msg s <> (Ok (Next l), s').
Proof.
  intros H. apply status_try_inv in H. destruct H as (H & _).
  discriminate H.
Qed.

Lemma summary_try_not_next total online offline s l s' :
  summary_try total online offline s <> (Ok (Next l), s').
Proof.
  intros H. apply summary_try_inv in H. destruct H as (H & _).
  discriminate H.
Qed.

Lemma store_try_not_next name url s l s' :
  store_try name url s <> (Ok (Next l), s').
Proof.
  intros H. apply store_try_inv in H.
  destruct H as (_ & id & l0 & H & _). discriminate H.
Qed.

(** ** The relations, operation by operation *)

Ltac frame :=
  first
    [ exact same_retries_refl | exact same_retries_trans
    | exact same_world_refl | exact same_world_trans
    | exact same_self_refl | exact same_self_trans
    | exact engine_choice_refl | exact engine_choice_trans
    | solve [intros; unfold same_retries, same_world, same_self; simpl;
             auto 10]
    | solve [intros; left; reflexivity]
    | solve [intros; right; reflexivity] ].

Lemma sleep_retry_delay_ok s : exists s', sleep_retry_delay s = (Ok tt, s').
Proof. eexists; reflexivity. Qed.

Lemma status_try_retries store_id is_online rt msg :
  respects same_retries (status_try store_id is_online rt msg).
Proof. apply respects_status_try; frame. Qed.

Lemma summary_try_retries total online offline :
  respects same_retries (summary_try total online offline).
Proof. apply respects_summary_try; frame. Qed.

Lemma store_try_retries name url :
  respects same_retries (store_try name url).
Proof. apply respects_store_try; frame. Qed.

Lemma sleep_retry_delay_retries : respects same_retries sleep_retry_delay.
Proof. apply respects_sleep_retry_delay; frame. Qed.

Lemma between_same_data err s :
  same_data s (between_passes err sleep_retry_delay s).
Proof. unfold same_data; auto. Qed.

(** ** Strings *)

Lemma length_append s t :
  String.length (s ++ t) = (String.length s + String.length t)%nat.
Proof. induction s as [|c s IH]; simpl; auto. Qed.

Lemma slice_to_length n : forall s,
  (n <= String.length s)%nat -> String.length (slice_to n s) = n.
Proof.
  unfold slice_to; induction n as [|n IH]; intros [|c s] H; simpl in *;
    auto; try lia.
  rewrite IH; auto; lia.
Qed.

Lemma slice_to_append s t : slice_to (String.length s) (s ++ t) = s.
Proof.
  unfold slice_to; induction s as [|c s IH]; simpl.
  - destruct t; reflexivity.
  - rewrite IH; reflexivity.
Qed.

Lemma slice_to_split n : forall s,
  exists rest, s = slice_to n s ++ rest.
Proof.
  unfold slice_to; induction n as [|n IH]; intros [|c s]; simpl.
  - exists ""; reflexivity.
  - exists (String c s); reflexivity.
  - exists ""; reflexivity.
  - destruct (IH s) as [rest Hr]. exists rest. rewrite <- Hr. reflexivity.
Qed.

(** The two lines shorten a message once: a shortened message has 503
    characters, and its first 500 are the first 500 of the original. *)
Lemma truncate_error_message_idem m :
  truncate_error_message (truncate_error_message m) =
  truncate_error_message m.
Proof.
  destruct m as [msg|]; [|reflexivity]. simpl.
  destruct (negb (msg =? "")%string && (500 <? String.length msg)%nat)
    eqn:E; simpl; [|rewrite E; reflexivity].
  apply andb_true_iff in E as [_ E]. apply Nat.ltb_lt in E.
  assert (Hlen : String.length (slice_to 500 msg) = 500%nat)
    by (apply slice_to_length; lia).
  assert (Hnonempty : (slice_to 500 msg ++ "..." =? "")%string = false).
  { apply String.eqb_neq. intros H.
    apply (f_equal String.length) in H. rewrite length_append, Hlen in H.
    discriminate H. }
  rewrite Hnonempty. simpl negb. rewrite andb_true_l.
  rewrite length_append, Hlen.
  change (500 <? 500 + String.length "...")%nat with true. cbv iota.
  rewrite <- Hlen at 1. rewrite slice_to_append. reflexivity.
Qed.

(** What [truncate_error_message] does to a message, in the words of the
    module's comment: longer than 500 characters, the first 500 and an
    ellipsis; otherwise the message. *)
Lemma truncate_error_message_spec msg :
  truncate_error_message (Some msg) =
  Some (if (500 <? String.length msg)%nat
        then slice_to 500 msg ++ "..." else msg).
Proof.
  simpl. destruct (500 <? String.length msg)%nat eqn:E.
  - destruct msg; [discriminate E|]. reflexivity.
  - rewrite andb_false_r. reflexivity.
Qed.

(** ** The write operations, run by run *)

(** All [max_retries] attempts of an operation raised. *)
Definition status_exhausted store_id is_online rt msg (s : Sys) : Prop :=
  exists sx,
    status_attempts_failed store_id is_online rt msg
      (max_retries (self s)) s sx.

Definition summary_exhausted total online offline (s : Sys) : Prop :=
  exists sx,
    summary_attempts_failed total online offline (max_retries (self s)) s sx.

Definition store_exhausted name url (s : Sys) : Prop :=
  exists sx, store_attempts_failed name url (max_retries (self s)) s sx.

Lemma status_failed_same_data store_id is_online rt k msg s m1 s1 :
  failed_passes truncate_error_message
    (status_try store_id is_online rt) "Failed to save status check"
    sleep_retry_delay k msg s m1 s1 ->
  same_data s s1.
Proof.
  apply failed_passes_keep.
  - exact same_data_refl.
  - exact same_data_trans.
  - intros l s0 e s2 H. apply status_try_inv in H. exact H.
  - intros s0. apply between_same_data.
Qed.

Lemma save_status_check_cases store_id is_online rt msg s r s' :
  (0 < max_retries (self s))%nat ->
  save_status_check store_id is_online rt msg s = (r, s') ->
  (r = Ok (Some true) /\ self s' = self s /\
   ~ status_exhausted store_id is_online rt msg s /\
   exists l row,
     status_checks (active_tables s) = Some l /\
     active_tables s' =
       set_status_checks (Some (l ++ [row])%list)
         (status_checks_seq (active_tables s) + 1) (active_tables s) /\
     sc_store_id row = store_id /\ sc_is_online row = is_online /\
     sc_response_time_ms row = rt /\
     sc_error_message row = truncate_error_message msg) \/
  (r = Ok (Some false) /\ same_data s s' /\
   status_exhausted store_id is_online rt msg s).
Proof.
  intros Hn H. rewrite save_status_check_retry in H.
  apply retry_loop_inv in H; auto using status_try_retries,
    sleep_retry_delay_retries, sleep_retry_delay_ok, status_try_not_next.
  destruct H as [(k & m1 & s1 & a & Hf & Hk & Hok & ->)
                |(k & m1 & s1 & e & s2 & Hf & Hk & Hr & Hfin)].
  - left.
    pose proof (status_failed_same_data Hf) as Hd.
    rewrite (failed_locals truncate_error_message_idem Hf) in Hok.
    pose proof (status_try_inv _ _ _ _ _ Hok)
      as (Ha & Hs & l & row & Hl & Hv & Hrow).
    inversion Ha; subst a; clear Ha.
    rewrite (same_data_active Hd) in Hl, Hv.
    split; [reflexivity|]. split.
    { rewrite Hs. destruct Hd as (-> & _). reflexivity. }
    split.
    { intros (sx & m' & Hall).
      assert (Hsplit : exists j, max_retries (self s) = (k + S j)%nat)
        by (exists (max_retries (self s) - S k)%nat; lia).
      destruct Hsplit as (j & Hj). rewrite Hj in Hall.
      destruct (failed_split Hf j Hall) as (e & sy & Hraise).
      rewrite (failed_locals truncate_error_message_idem Hf) in Hraise.
      rewrite Hok in Hraise. discriminate Hraise. }
    exists l, row. auto.
  - right.
    pose proof (status_failed_same_data Hf) as Hd.
    pose proof (status_try_inv _ _ _ _ _ Hr) as Hd2. simpl in Hd2.
    unfold after_final, bind, logger_error, modify, ret in Hfin.
    inversion Hfin; subst; clear Hfin.
    split; [reflexivity|]. split.
    + eapply same_data_trans; [exact Hd|].
      eapply same_data_trans; [exact Hd2|]. unfold same_data; auto.
    + eexists; exists (truncate_error_message m1).
      rewrite Hk. eapply failed_snoc; eauto.
Qed.

Lemma summary_failed_same_data total online offline k s s1 :
  summary_attempts_failed total online offline k s s1 -> same_data s s1.
Proof.
  apply failed_passes_keep.
  - exact same_data_refl.
  - exact same_data_trans.
  - intros l s0 e s2 H. apply summary_try_inv in H. exact H.
  - intros s0. apply between_same_data.
Qed.

Lemma save_summary_report_cases total online offline s r s' :
  (0 < max_retries (self s))%nat ->
  save_summary_report total online offline s = (r, s') ->
  (r = Ok (Some true) /\ self s' = self s /\
   ~ summary_exhausted total online offline s /\
   exists pct l row,
     online_percentage_of total online = Ok pct /\
     summary_reports (active_tables s) = Some l /\
     active_tables s' =
       set_summary_reports (Some (l ++ [row])%list)
         (summary_reports_seq (active_tables s) + 1) (active_tables s) /\
     sr_total_stores row = total /\ sr_online_stores row = online /\
     sr_offline_stores row = offline /\ sr_online_percentage row = pct) \/
  (r = Ok (Some false) /\ same_data s s' /\
   summary_exhausted total online offline s).
Proof.
  intros Hn H. rewrite save_summary_report_retry in H.
  apply retry_loop_inv in H; auto using summary_try_retries,
    sleep_retry_delay_retries, sleep_retry_delay_ok.
  2: { intros _ s0 l' s0'. apply summary_try_not_next. }
  destruct H as [(k & [] & s1 & a & Hf & Hk & Hok & ->)
                |(k & [] & s1 & e & s2 & Hf & Hk & Hr & Hfin)].
  - left.
    pose proof (summary_failed_same_data Hf) as Hd.
    pose proof (summary_try_inv _ _ _ _ Hok)
      as (Ha & Hs & pct & l & row & Hp & Hl & Hv & Hrow).
    inversion Ha; subst a; clear Ha.
    rewrite (same_data_active Hd) in Hl, Hv.
    split; [reflexivity|]. split.
    { rewrite Hs. destruct Hd as (-> & _). reflexivity. }
    split.
    { intros (sx & Hall).
      assert (Hsplit : exists j, max_retries (self s) = (k + S j)%nat)
        by (exists (max_retries (self s) - S k)%nat; lia).
      destruct Hsplit as (j & Hj). unfold summary_attempts_failed in Hall.
      rewrite Hj in Hall.
      destruct (failed_split Hf j Hall) as (e & sy & Hraise).
      rewrite Hok in Hraise. discriminate Hraise. }
    exists pct, l, row. auto.
  - right.
    pose proof (summary_failed_same_data Hf) as Hd.
    pose proof (summary_try_inv _ _ _ _ Hr) as Hd2. simpl in Hd2.
    unfold after_final, bind, logger_error, modify, ret in Hfin.
    inversion Hfin; subst; clear Hfin.
    split; [reflexivity|]. split.
    + eapply same_data_trans; [exact Hd|].
      eapply same_data_trans; [exact Hd2|]. unfold same_data; auto.
    + eexists. unfold summary_attempts_failed.
      rewrite Hk. eapply (failed_snoc Hf). exact Hr.
Qed.

Lemma store_failed_same_data name url k s s1 :
  store_attempts_failed name url k s s1 -> same_data s s1.
Proof.
  apply failed_passes_keep.
  - exact same_data_refl.
  - exact same_data_trans.
  - intros l s0 e s2 H. apply store_try_inv in H. exact H.
  - intros s0. apply between_same_data.
Qed.

Lemma get_or_create_store_cases name url s r s' :
  (0 < max_retries (self s))%nat ->
  get_or_create_store name url s = (r, s') ->
  (self s' = self s /\ ~ store_exhausted name url s /\
   exists id l,
     r = Ok (Some id) /\ stores (active_tables s) = Some l /\
     ((exists row,
          find (fun x => (s_url x =? url)%string) l = Some row /\
          s_id row = id /\ same_data s s') \/
      (find (fun x => (s_url x =? url)%string) l = None /\
       exists row,
         active_tables s' =
           set_stores (Some (l ++ [row])%list) id (active_tables s) /\
         s_id row = id /\ s_name row = name /\ s_url row = url /\
         s_platform row = platform_of url))) \/
  (r = Raise PyException /\ same_data s s' /\ store_exhausted name url s).
Proof.
  intros Hn H. rewrite get_or_create_store_retry in H.
  apply retry_loop_inv in H; auto using store_try_retries,
    sleep_retry_delay_retries, sleep_retry_delay_ok.
  2: { intros _ s0 l' s0'. apply store_try_not_next. }
  destruct H as [(k & [] & s1 & a & Hf & Hk & Hok & ->)
                |(k & [] & s1 & e & s2 & Hf & Hk & Hr & Hfin)].
  - left.
    pose proof (store_failed_same_data Hf) as Hd.
    pose proof (store_try_inv _ _ _ Hok)
      as (Hs & id & l & Ha & Hl & Hcase).
    inversion Ha; subst a; clear Ha.
    rewrite (same_data_active Hd) in Hl.
    split.
    { rewrite Hs. destruct Hd as (-> & _). reflexivity. }
    split.
    { intros (sx & Hall).
      assert (Hsplit : exists j, max_retries (self s) = (k + S j)%nat)
        by (exists (max_retries (self s) - S k)%nat; lia).
      destruct Hsplit as (j & Hj). unfold store_attempts_failed in Hall.
      rewrite Hj in Hall.
      destruct (failed_split Hf j Hall) as (e & sy & Hraise).
      rewrite Hok in Hraise. discriminate Hraise. }
    exists id, l. split; [reflexivity|]. split; [exact Hl|].
    destruct Hcase as [(row & Hfind & Hid & Hd1)
                      |(Hfind & row & Hv & Hrow)].
    + left. exists row.
      split; [exact Hfind|]. split; [exact Hid|].
      eapply same_data_trans; eauto.
    + right. split; [exact Hfind|]. exists row.
      rewrite (same_data_active Hd) in Hv. auto.
  - right.
    pose proof (store_failed_same_data Hf) as Hd.
    pose proof (store_try_inv _ _ _ Hr) as Hd2. simpl in Hd2.
    unfold after_final, raise in Hfin.
    inversion Hfin; subst; clear Hfin.
    split; [reflexivity|]. split.
    + eapply same_data_trans; [exact Hd|].
      eapply same_data_trans; [exact Hd2|]. unfold same_data; auto.
    + eexists. unfold store_attempts_failed.
      rewrite Hk. eapply (failed_snoc Hf). exact Hr.
Qed.

(** ** Substrings *)

Lemma prefix_spec p : forall s,
  prefix p s = true <-> exists post, s = p ++ post.
Proof.
  induction p as [|c p IH]; intros s.
  - split; [intros _; exists s; reflexivity | destruct s; reflexivity].
  - destruct s as [|d s]; simpl.
    + split; [discriminate | intros (post & H); discriminate H].
    + destruct (ascii_dec c d) as [->|Hne].
      * rewrite IH. split; intros (post & H); exists post.
        -- rewrite H; reflexivity.
        -- inversion H; reflexivity.
      * split; [discriminate|].
        intros (post & H); inversion H; congruence.
Qed.

(** [contains] is the substring test. *)
Lemma contains_spec needle : forall hay,
  contains needle hay = true <->
  exists pre post, hay = pre ++ needle ++ post.
Proof.
  induction hay as [|c hay IH]; cbn [contains].
  - rewrite orb_false_r, prefix_spec. split.
    + intros (post & H); exists "", post; exact H.
    + intros ([|d pre] & post & H); [exists post; exact H|discriminate H].
  - rewrite orb_true_iff, prefix_spec, IH. split.
    + intros [(post & H) | (pre & post & H)].
      * exists "", post; exact H.
      * exists (String c pre), post; rewrite H; reflexivity.
    + intros ([|d pre] & post & H).
      * left; exists post; exact H.
      * right; exists pre, post. inversion H; reflexivity.
Qed.

Lemma find_url_none url l :
  find (fun x => (s_url x =? url)%string) l = None ->
  filter (fun x => (s_url x =? url)%string) l = [].
Proof.
  induction l as [|r l IH]; simpl; auto.
  destruct (s_url r =? url)%string; [discriminate|auto].
Qed.

(** C7.  A store that [get_or_create_store] creates for a url gets the
    platform "foodpanda" exactly when the url contains "foodpanda.ph", and
    "grabfood" otherwise. *)
Theorem platform_is_foodpanda_or_grabfood name url s id s' :
  get_or_create_store name url s = (Ok (Some id), s') ->
  forall l,
    stores (active_tables s) = Some l ->
    find (fun x => (s_url x =? url)%string) l = None ->
    exists row,
      stores (active_tables s') = Some (l ++ [row])%list /\
      s_id row = id /\ s_url row = url /\
      (((exists pre post, url = pre ++ "foodpanda.ph" ++ post) /\
        s_platform row = "foodpanda") \/
       (~ (exists pre post, url = pre ++ "foodpanda.ph" ++ post) /\
        s_platform row = "grabfood")).
Proof.
  intros Hrun l Hl Hnew.
  assert (Hn : (0 < max_retries (self s))%nat).
  { destruct (max_retries (self s)) eqn:E; [|lia].
    rewrite get_or_create_store_retry, retry_loop_zero in Hrun by exact E.
    discriminate Hrun. }
  destruct (get_or_create_store_cases _ _ _ Hn Hrun)
    as [(_ & _ & id' & l' & Hr & Hl' & Hcase) | (Hr & _)];
    [|discriminate Hr].
  inversion Hr; subst id'; clear Hr.
  rewrite Hl in Hl'; inversion Hl'; subst l'; clear Hl'.
  destruct Hcase as [(row & Hfind & _) | (_ & row & Hv & Hid & _ & Hurl & Hp)];
    [rewrite Hnew in Hfind; discriminate Hfind|].
  exists row. rewrite Hv.
  split; [reflexivity|]. split; [exact Hid|]. split; [exact Hurl|].
  rewrite Hp. unfold platform_of.
  destruct (contains "foodpanda.ph" url) eqn:E.
  - left. split; [apply contains_spec; exact E | reflexivity].
  - right. split; [|reflexivity].
    intros H. apply contains_spec in H. congruence.
Qed.

Lemma platform_is_foodpanda_or_grabfood_witness :
  exists row,
    stores (active_tables
              (snd (get_or_create_store "Cocopan Anonas"
                      "https://www.foodpanda.ph/restaurant/x1" on_sqlite)))
      = Some ([] ++ [row])%list /\
    s_id row = 1 /\ s_url row = "https://www.foodpanda.ph/restaurant/x1" /\
    (((exists pre post,
          "https://www.foodpanda.ph/restaurant/x1" =
          pre ++ "foodpanda.ph" ++ post) /\
      s_platform row = "foodpanda") \/
     (~ (exists pre post,
          "https://www.foodpanda.ph/restaurant/x1" =
          pre ++ "foodpanda.ph" ++ post) /\
      s_platform row = "grabfood")).
Proof.
  apply (@platform_is_foodpanda_or_grabfood "Cocopan Anonas"
           "https://www.foodpanda.ph/restaurant/x1" on_sqlite 1
           (snd (get_or_create_store "Cocopan Anonas"
                   "https://www.foodpanda.ph/restaurant/x1" on_sqlite))).
  - vm_compute. reflexivity.
  - vm_compute. reflexivity.
  - reflexivity.
Defined.

(** ** The stores table and its UNIQUE url *)

Lemma filter_url_absent url l :
  ~ In url (map s_url l) ->
  filter (fun x => (s_url x =? url)%string) l = [].
Proof.
  induction l as [|r l IH]; simpl; intros H; auto.
  destruct (String.eqb_spec (s_url r) url) as [E|E].
  - exfalso; apply H; left; exact E.
  - apply IH; intros Hin; apply H; right; exact Hin.
Qed.

Lemma find_url_absent url l :
  find (fun x => (s_url x =? url)%string) l = None ->
  ~ In url (map s_url l).
Proof.
  intros Hfind Hin. apply in_map_iff in Hin as (r & Hr & Hin).
  pose proof (find_none _ _ Hfind r Hin) as H. simpl in H.
  apply String.eqb_neq in H. congruence.
Qed.

Lemma find_url_unique url l row :
  NoDup (map s_url l) ->
  find (fun x => (s_url x =? url)%string) l = Some row ->
  List.length (filter (fun x => (s_url x =? url)%string) l) = 1%nat.
Proof.
  induction l as [|r l IH]; simpl; intros Hnd Hfind; [discriminate|].
  inversion Hnd as [|u us Hnotin Hnd']; subst.
  destruct (String.eqb_spec (s_url r) url) as [E|E].
  - simpl. rewrite filter_url_absent; [reflexivity|]. rewrite <- E; exact Hnotin.
  - apply IH; assumption.
Qed.

Lemma find_url_appended url l row :
  find (fun x => (s_url x =? url)%string) l = None ->
  s_url row = url ->
  find (fun x => (s_url x =? url)%string) (l ++ [row]) = Some row.
Proof.
  intros Hfind Hurl; induction l as [|r l IH]; simpl in *.
  - rewrite Hurl, String.eqb_refl; reflexivity.
  - destruct (s_url r =? url)%string; [discriminate|auto].
Qed.

Lemma urls_unique_appended url l row :
  NoDup (map s_url l) ->
  find (fun x => (s_url x =? url)%string) l = None ->
  s_url row = url ->
  NoDup (map s_url (l ++ [row])) /\
  List.length (filter (fun x => (s_url x =? url)%string) (l ++ [row]))
  = 1%nat.
Proof.
  intros Hnd Hfind Hurl. pose proof (find_url_absent _ _ Hfind) as Habs.
  split.
  - rewrite map_app. simpl. apply NoDup_app.
    + exact Hnd.
    + constructor; [intros []|constructor].
    + intros a Ha [Hb|[]]. subst a. rewrite Hurl in Ha. exact (Habs Ha).
  - rewrite filter_app, length_app, (filter_url_absent _ _ Habs). simpl.
    rewrite Hurl, String.eqb_refl. reflexivity.
Qed.

Lemma positive_retries_store name url s r s' :
  get_or_create_store name url s = (Ok (Some r), s') ->
  (0 < max_retries (self s))%nat.
Proof.
  intros Hrun. destruct (max_retries (self s)) eqn:E; [|lia].
  rewrite get_or_create_store_retry, retry_loop_zero in Hrun by exact E.
  discriminate Hrun.
Qed.

Lemma positive_retries_status store_id is_online rt msg s r s' :
  save_status_check store_id is_online rt msg s = (Ok (Some r), s') ->
  (0 < max_retries (self s))%nat.
Proof.
  intros Hrun. destruct (max_retries (self s)) eqn:E; [|lia].
  rewrite save_status_check_retry, retry_loop_zero in Hrun by exact E.
  discriminate Hrun.
Qed.


(** C4.  Two calls of [get_or_create_store] with the same url return the
    same id; the second call finds the row by its url and inserts nothing,
    and the table holds exactly one row for that url, the urls staying
    pairwise distinct. *)
Theorem get_or_create_store_idempotent name name' url s id1 s1 id2 s2 :
  urls_unique (active_tables s) ->
  get_or_create_store name url s = (Ok (Some id1), s1) ->
  get_or_create_store name' url s1 = (Ok (Some id2), s2) ->
  id1 = id2 /\ same_data s1 s2 /\
  exists l1,
    stores (active_tables s1) = Some l1 /\
    stores (active_tables s2) = Some l1 /\
    List.length (filter (fun x => (s_url x =? url)%string) l1) = 1%nat /\
    NoDup (map s_url l1).
Proof.
  intros Huniq Hrun1 Hrun2.
  pose proof (positive_retries_store _ _ _ Hrun1) as Hn1.
  pose proof (positive_retries_store _ _ _ Hrun2) as Hn2.
  destruct (get_or_create_store_cases _ _ _ Hn1 Hrun1)
    as [(_ & _ & i1 & l & Hr1 & Hl & Hcase1) | (Hr1 & _)];
    [|discriminate Hr1].
  inversion Hr1; subst i1; clear Hr1.
  pose proof (Huniq l Hl) as Hnd.
  (* the table after the first call, and the row of the url in it *)
  assert (Hafter : exists l1 row,
             stores (active_tables s1) = Some l1 /\
             find (fun x => (s_url x =? url)%string) l1 = Some row /\
             s_id row = id1 /\
             List.length (filter (fun x => (s_url x =? url)%string) l1)
             = 1%nat /\
             NoDup (map s_url l1)).
  { destruct Hcase1 as [(row & Hfind & Hid & Hd)
                       |(Hfind & row & Hv & Hid & _ & Hurl & _)].
    - exists l, row. rewrite (same_data_active Hd).
      repeat split; auto. eapply find_url_unique; eauto.
    - exists (l ++ [row])%list, row. rewrite Hv.
      destruct (@urls_unique_appended url l row Hnd Hfind Hurl)
        as (Hnd' & Hone).
      repeat split; auto. apply find_url_appended; auto. }
  destruct Hafter as (l1 & row & Hl1 & Hfind1 & Hid1 & Hone & Hnd1).
  destruct (get_or_create_store_cases _ _ _ Hn2 Hrun2)
    as [(_ & _ & i2 & l2 & Hr2 & Hl2 & Hcase2) | (Hr2 & _)];
    [|discriminate Hr2].
  inversion Hr2; subst i2; clear Hr2.
  rewrite Hl1 in Hl2; inversion Hl2; subst l2; clear Hl2.
  destruct Hcase2 as [(row2 & Hfind2 & Hid2 & Hd2) | (Hfind2 & _)];
    [|rewrite Hfind1 in Hfind2; discriminate Hfind2].
  rewrite Hfind1 in Hfind2; inversion Hfind2; subst row2; clear Hfind2.
  split; [congruence|]. split; [exact Hd2|].
  exists l1. rewrite (same_data_active Hd2). auto.
Qed.

Lemma get_or_create_store_idempotent_witness :
  let url := "https://food.grab.com/ph/en/restaurant/cocopan-maysilo" in
  let s1 := snd (get_or_create_store "Cocopan Maysilo" url on_sqlite) in
  let s2 := snd (get_or_create_store "Cocopan Maysilo" url s1) in
  1 = 1 /\ same_data s1 s2 /\
  exists l1,
    stores (active_tables s1) = Some l1 /\
    stores (active_tables s2) = Some l1 /\
    List.length (filter (fun x => (s_url x =? url)%string) l1) = 1%nat /\
    NoDup (map s_url l1).
Proof.
  intros url s1 s2.
  apply (@get_or_create_store_idempotent "Cocopan Maysilo" "Cocopan Maysilo"
           url on_sqlite 1 s1 1 s2).
  - intros l H. vm_compute in H. inversion H. simpl. constructor.
  - vm_compute. reflexivity.
  - vm_compute. reflexivity.
Defined.

(** C6.  A stored error message longer than 500 characters is its first
    500 characters followed by "..."; a message of 500 characters or
    fewer is stored as it is. *)
Theorem long_error_message_is_truncated store_id is_online rt msg s s' :
  save_status_check store_id is_online rt (Some msg) s
  = (Ok (Some true), s') ->
  exists l row,
    status_checks (active_tables s) = Some l /\
    status_checks (active_tables s') = Some (l ++ [row])%list /\
    sc_store_id row = store_id /\
    (((500 < String.length msg)%nat /\
      exists first rest,
        msg = first ++ rest /\ String.length first = 500%nat /\
        sc_error_message row = Some (first ++ "...")) \/
     ((String.length msg <= 500)%nat /\ sc_error_message row = Some msg)).
Proof.
  intros Hrun.
  pose proof (positive_retries_status _ _ _ _ _ Hrun) as Hn.
  destruct (save_status_check_cases _ _ _ _ _ Hn Hrun)
    as [(_ & _ & _ & l & row & Hl & Hv & Hid & _ & _ & Hmsg) | (Hr & _)];
    [|discriminate Hr].
  exists l, row. rewrite Hv. split; [exact Hl|]. split; [reflexivity|].
  split; [exact Hid|].
  rewrite truncate_error_message_spec in Hmsg.
  destruct (500 <? String.length msg)%nat eqn:E.
  - apply Nat.ltb_lt in E. left. split; [exact E|].
    destruct (slice_to_split 500 msg) as (rest & Hrest).
    exists (slice_to 500 msg), rest. split; [exact Hrest|].
    split; [apply slice_to_length; lia | exact Hmsg].
  - apply Nat.ltb_ge in E. right. split; [exact E | exact Hmsg].
Qed.

Lemma long_error_message_is_truncated_witness :
  let msg := repeat_char "x" 501 in
  exists l row,
    status_checks (active_tables on_sqlite) = Some l /\
    status_checks
      (active_tables (snd (save_status_check 1 false None (Some msg)
                             on_sqlite)))
    = Some (l ++ [row])%list /\
    sc_store_id row = 1 /\
    (((500 < String.length msg)%nat /\
      exists first rest,
        msg = first ++ rest /\ String.length first = 500%nat /\
        sc_error_message row = Some (first ++ "...")) \/
     ((String.length msg <= 500)%nat /\ sc_error_message row = Some msg)).
Proof.
  intros msg.
  apply (@long_error_message_is_truncated 1 false None msg on_sqlite
           (snd (save_status_check 1 false None (Some msg) on_sqlite))).
  vm_compute. reflexivity.
Defined.




(** With at least one attempt configured, the two saving operations
    return a boolean, [False] exactly on exhaustion, and
    [get_or_create_store] raises on exhaustion. *)
Lemma write_contract s :
  (0 < max_retries (self s))%nat ->
  (forall store_id is_online rt msg,
      exists b s',
        save_status_check store_id is_online rt msg s = (Ok (Some b), s') /\
        (b = false <-> status_exhausted store_id is_online rt msg s) /\
        (b = false -> same_data s s')) /\
  (forall total online offline,
      exists b s',
        save_summary_report total online offline s = (Ok (Some b), s') /\
        (b = false <-> summary_exhausted total online offline s) /\
        (b = false -> same_data s s')) /\
  (forall name url,
      store_exhausted name url s ->
      exists s', get_or_create_store name url s = (Raise PyException, s')).
Proof.
  intros Hn. split; [|split].
  - intros store_id is_online rt msg.
    destruct (save_status_check store_id is_online rt msg s) as [r s'] eqn:E.
    destruct (save_status_check_cases _ _ _ _ _ Hn E)
      as [(-> & _ & Hnot & _) | (-> & Hd & Hex)].
    + exists true, s'. split; [reflexivity|]. split.
      * split; [discriminate | intros H; exfalso; exact (Hnot H)].
      * discriminate.
    + exists false, s'. split; [reflexivity|]. split; [tauto|auto].
  - intros total online offline.
    destruct (save_summary_report total online offline s) as [r s'] eqn:E.
    destruct (save_summary_report_cases _ _ _ _ Hn E)
      as [(-> & _ & Hnot & _) | (-> & Hd & Hex)].
    + exists true, s'. split; [reflexivity|]. split.
      * split; [discriminate | intros H; exfalso; exact (Hnot H)].
      * discriminate.
    + exists false, s'. split; [reflexivity|]. split; [tauto|auto].
  - intros name url Hex.
    destruct (get_or_create_store name url s) as [r s'] eqn:E.
    destruct (get_or_create_store_cases _ _ _ Hn E)
      as [(_ & Hnot & _) | (-> & _)].
    + exfalso; exact (Hnot Hex).
    + exists s'; reflexivity.
Qed.

(** C3.  [save_status_check] and [save_summary_report] never raise: they
    return [True], or [False] exactly when all [max_retries] attempts
    have failed (and then nothing is stored); [get_or_create_store]
    raises when all its attempts have failed. *)
Theorem writes_report_failure_store_raises s :
  (forall store_id is_online rt msg,
      exists r s',
        save_status_check store_id is_online rt msg s = (Ok r, s') /\
        ((0 < max_retries (self s))%nat ->
         exists b,
           r = Some b /\
           (b = false <-> status_exhausted store_id is_online rt msg s) /\
           (b = false -> same_data s s'))) /\
  (forall total online offline,
      exists r s',
        save_summary_report total online offline s = (Ok r, s') /\
        ((0 < max_retries (self s))%nat ->
         exists b,
           r = Some b /\
           (b = false <-> summary_exhausted total online offline s) /\
           (b = false -> same_data s s'))) /\
  (forall name url,
      (0 < max_retries (self s))%nat ->
      store_exhausted name url s ->
      exists s', get_or_create_store name url s = (Raise PyException, s')).
Proof.
  destruct (max_retries (self s)) as [|n] eqn:En.
  - split; [|split].
    + intros store_id is_online rt msg. exists None, s.
      rewrite save_status_check_retry, retry_loop_zero by exact En.
      split; [reflexivity | lia].
    + intros total online offline. exists None, s.
      rewrite save_summary_report_retry, retry_loop_zero by exact En.
      split; [reflexivity | lia].
    + lia.
  - assert (Hn : (0 < max_retries (self s))%nat) by lia.
    destruct (write_contract s Hn) as (Hstatus & Hsummary & Hstore).
    split; [|split].
    + intros store_id is_online rt msg.
      destruct (Hstatus store_id is_online rt msg) as (b & s' & E & H).
      exists (Some b), s'. split; [exact E|]. intros _. exists b. auto.
    + intros total online offline.
      destruct (Hsummary total online offline) as (b & s' & E & H).
      exists (Some b), s'. split; [exact E|]. intros _. exists b. auto.
    + intros name url _ Hex. apply Hstore. exact Hex.
Qed.

Lemma writes_report_failure_store_raises_witness :
  (0 < max_retries (self on_sqlite))%nat /\
  exists r s',
    save_status_check 1 true (Some 120) None on_sqlite = (Ok r, s') /\
    exists b,
      r = Some b /\
      (b = false <-> status_exhausted 1 true (Some 120) None on_sqlite) /\
      (b = false -> same_data on_sqlite s').
Proof.
  assert (Hn : (0 < max_retries (self on_sqlite))%nat) by (vm_compute; lia).
  split; [exact Hn|].
  destruct (proj1 (writes_report_failure_store_raises on_sqlite)
              1 true (Some 120) None) as (r & s' & E & H).
  exists r, s'. split; [exact E | exact (H Hn)].
Defined.

(** ** Read operations *)

Lemma tabular_best_effort (try_block : M DataFrame) msg s :
  best_effort
    (try_except try_block
       (fun _ => logger_error msg ;; ret empty_DataFrame))
    try_block (fun _ => empty_DataFrame) s.
Proof.
  unfold best_effort, try_except.
  destruct (try_block s) as [[a|e] s1] eqn:E.
  - split; [eauto|]. split.
    + intros a' s1' H; inversion H; subst; reflexivity.
    + intros e s1' H; discriminate H.
  - split; [eexists _, _; reflexivity|]. split.
    + intros a s1' H'; discriminate H'.
    + intros e' s1' H'; eexists; reflexivity.
Qed.

Lemma database_stats_try_self : respects same_self database_stats_try.
Proof.
  unfold database_stats_try. apply respects_get_connection; try frame.
  intros c. unfold select_stores, select_count_status_checks,
    select_latest_summary, the_db_type.
  repeat first
    [ match goal with |- forall _, _ => intro end
    | apply respects_bind; try frame
    | apply respects_outside; frame
    | apply respects_gets; frame
    | apply respects_ret; frame
    | apply respects_raise; frame
    | apply respects_lift; frame
    | match goal with
      | |- respects _ (match ?x with _ => _ end) => destruct x
      end ].
Qed.

Lemma database_stats_best_effort s :
  best_effort get_database_stats database_stats_try
    (fun s => fallback_stats (db_type (self s))) s.
Proof.
  unfold best_effort, get_database_stats, try_except.
  pose proof (database_stats_try_self s) as Hself.
  destruct (database_stats_try s) as [[a|e] s1] eqn:E; simpl in Hself.
  - split; [eauto|]. split.
    + intros a' s1' H; inversion H; subst; reflexivity.
    + intros e s1' H; discriminate H.
  - assert (H : exists s',
        (logger_error "Failed to get database stats" ;;
         dbt <- the_db_type ;; ret (fallback_stats dbt)) s1
        = (Ok (fallback_stats (db_type (self s))), s')).
    { eexists. unfold bind, logger_error, modify, the_db_type, gets, ret.
      simpl. rewrite Hself. reflexivity. }
    destruct H as (s' & H).
    split; [eauto|]. split.
    + intros a s1' H'; discriminate H'.
    + intros e' s1' H'; inversion H'; subst; eauto.
Qed.

(** With the engine of the instance unreachable, no scope is entered. *)
Lemma get_connection_unreachable A (body : resource -> M A) s :
  unreachable (conn_of s) s ->
  exists s', get_connection body s = (Raise PyException, s').
Proof.
  unfold unreachable, conn_of, get_connection, the_db_type, bind, gets,
    try_except, outside, logger_error, modify, raise.
  destruct (is_postgresql (db_type (self s))); intros H.
  - destruct (connection_pool (self s)); simpl; [|eauto].
    rewrite H. eauto.
  - destruct (sqlite_path (self s)); simpl; [|eauto].
    rewrite H. eauto.
Qed.

(** C2.  No read operation raises.  When anything raises inside its [try]
    block, a tabular read returns the empty frame and
    [get_database_stats] returns the all-zero dictionary; in particular
    when the engine is unreachable. *)
Theorem reads_are_best_effort s limit :
  (best_effort get_latest_status latest_status_try
     (fun _ => empty_DataFrame) s /\
   best_effort get_hourly_data hourly_data_try
     (fun _ => empty_DataFrame) s /\
   best_effort (get_store_logs limit) (store_logs_try limit)
     (fun _ => empty_DataFrame) s /\
   best_effort get_daily_uptime daily_uptime_try
     (fun _ => empty_DataFrame) s /\
   best_effort get_database_stats database_stats_try
     (fun s => {| store_count := 0; platforms := []; total_checks := 0;
                  latest_summary := None;
                  stats_db_type := db_type (self s) |}) s) /\
  (unreachable (conn_of s) s ->
   (exists s', get_latest_status s = (Ok empty_DataFrame, s')) /\
   (exists s', get_hourly_data s = (Ok empty_DataFrame, s')) /\
   (exists s', get_store_logs limit s = (Ok empty_DataFrame, s')) /\
   (exists s', get_daily_uptime s = (Ok empty_DataFrame, s')) /\
   (exists s',
       get_database_stats s =
       (Ok {| store_count := 0; platforms := []; total_checks := 0;
              latest_summary := None;
              stats_db_type := db_type (self s) |}, s'))).
Proof.
  assert (Hall :
    best_effort get_latest_status latest_status_try
      (fun _ => empty_DataFrame) s /\
    best_effort get_hourly_data hourly_data_try
      (fun _ => empty_DataFrame) s /\
    best_effort (get_store_logs limit) (store_logs_try limit)
      (fun _ => empty_DataFrame) s /\
    best_effort get_daily_uptime daily_uptime_try
      (fun _ => empty_DataFrame) s /\
    best_effort get_database_stats database_stats_try
      (fun s => fallback_stats (db_type (self s))) s).
  { repeat split; try apply tabular_best_effort;
      apply database_stats_best_effort. }
  split; [exact Hall|].
  intros Hdown.
  destruct Hall as ((_ & _ & H1) & (_ & _ & H2) & (_ & _ & H3) &
                    (_ & _ & H4) & (_ & _ & H5)).
  repeat split.
  - destruct (get_connection_unreachable
                (fun conn => read_join_query conn LatestStatus) Hdown)
      as (s1 & E).
    exact (H1 _ _ E).
  - unfold hourly_data_try in H2.
    match type of H2 with
    | forall e s1, get_connection ?b s = _ -> _ =>
        destruct (get_connection_unreachable b Hdown) as (s1 & E)
    end.
    exact (H2 _ _ E).
  - unfold store_logs_try in H3.
    match type of H3 with
    | forall e s1, get_connection ?b s = _ -> _ =>
        destruct (get_connection_unreachable b Hdown) as (s1 & E)
    end.
    exact (H3 _ _ E).
  - unfold daily_uptime_try in H4.
    match type of H4 with
    | forall e s1, get_connection ?b s = _ -> _ =>
        destruct (get_connection_unreachable b Hdown) as (s1 & E)
    end.
    exact (H4 _ _ E).
  - unfold database_stats_try in H5.
    match type of H5 with
    | forall e s1, get_connection ?b s = _ -> _ =>
        destruct (get_connection_unreachable b Hdown) as (s1 & E)
    end.
    exact (H5 _ _ E).
Qed.

Lemma reads_are_best_effort_witness :
  unreachable (conn_of sqlite_lost) sqlite_lost /\
  (exists s', get_latest_status sqlite_lost = (Ok empty_DataFrame, s')) /\
  (exists s', get_hourly_data sqlite_lost = (Ok empty_DataFrame, s')) /\
  (exists s', get_store_logs 50 sqlite_lost = (Ok empty_DataFrame, s')) /\
  (exists s', get_daily_uptime sqlite_lost = (Ok empty_DataFrame, s')) /\
  (exists s',
      get_database_stats sqlite_lost =
      (Ok {| store_count := 0; platforms := []; total_checks := 0;
             latest_summary := None;
             stats_db_type := db_type (self sqlite_lost) |}, s')).
Proof.
  assert (H : unreachable (conn_of sqlite_lost) sqlite_lost)
    by (intros k; reflexivity).
  split; [exact H|].
  exact (proj2 (reads_are_best_effort sqlite_lost 50) H).
Defined.

(** ** The engine tag *)

Lemma after_same_self o s : same_self s (after o s).
Proof.
  destruct o; simpl.
  - apply respects_get_or_create_store; frame.
  - apply respects_save_status_check; frame.
  - apply respects_save_summary_report; frame.
  - apply respects_get_latest_status; frame.
  - apply respects_get_hourly_data; frame.
  - apply respects_get_store_logs; frame.
  - apply respects_get_daily_uptime; frame.
  - apply respects_get_database_stats; frame.
  - apply respects_close; frame.
Qed.

Lemma after_all_same_self os : forall s, same_self s (after_all os s).
Proof.
  unfold after_all; induction os as [|o os IH]; intros s; simpl.
  - reflexivity.
  - eapply same_self_trans; [apply after_same_self | apply IH].
Qed.

Lemma initialize_database_engine_choice :
  respects engine_choice _initialize_database.
Proof. apply respects_initialize_database; frame. Qed.

Lemma initialize_database_retries :
  respects same_retries _initialize_database.
Proof. apply respects_initialize_database; frame. Qed.

(** C10.  After [__init__] has returned, [db_type] is "postgresql" or
    "sqlite", and no operation assigns it: not [get_connection] around a
    body that assigns no attribute, not the three writes, the five reads
    or [close], in any sequence. *)
Theorem db_type_is_fixed_at_initialization c w s :
  __init__ c w = (Ok tt, s) ->
  (db_type (self s) = "postgresql" \/ db_type (self s) = "sqlite") /\
  (forall os, db_type (self (after_all os s)) = db_type (self s)) /\
  (forall A (body : resource -> M A),
      (forall conn s0, self (snd (body conn s0)) = self s0) ->
      db_type (self (snd (get_connection body s))) = db_type (self s)).
Proof.
  intros Hinit. split; [|split].
  - unfold __init__ in Hinit.
    pose proof (initialize_database_engine_choice
                  {| cfg := c; self := new_DatabaseManager c; env := w |})
      as H.
    rewrite Hinit in H. unfold engine_choice in H. simpl in H.
    destruct H as [H|H]; [|right; exact H].
    rewrite H. destruct (USE_SQLITE c); auto.
  - intros os. rewrite (after_all_same_self os s). reflexivity.
  - intros A body Hbody.
    assert (H : respects same_self (get_connection body))
      by (apply respects_get_connection; try frame;
          intros conn s0; apply Hbody).
    rewrite (H s). reflexivity.
Qed.

Lemma db_type_is_fixed_at_initialization_witness :
  __init__ cfg_primary (sample_world primary_down) = (Ok tt, on_sqlite) /\
  (db_type (self on_sqlite) = "postgresql" \/
   db_type (self on_sqlite) = "sqlite") /\
  (forall os, db_type (self (after_all os on_sqlite))
              = db_type (self on_sqlite)) /\
  (forall A (body : resource -> M A),
      (forall conn s0, self (snd (body conn s0)) = self s0) ->
      db_type (self (snd (get_connection body on_sqlite)))
      = db_type (self on_sqlite)).
Proof.
  assert (H : __init__ cfg_primary (sample_world primary_down)
              = (Ok tt, on_sqlite)) by (vm_compute; reflexivity).
  split; [exact H|].
  exact (db_type_is_fixed_at_initialization
           cfg_primary (sample_world primary_down) H).
Defined.

(** ** Falling back to the embedded engine *)

Ltac unfold_methods :=
  unfold fallback_to_sqlite, _init_sqlite, _create_tables, status_try,
    summary_try, store_try, get_connection, the_db_type,
    execute_create_stores, execute_create_status_checks,
    execute_create_summary_reports, execute_insert_status_check,
    execute_insert_summary_report, execute_insert_store,
    execute_select_store_id, commit, bind, gets, modify, lift,
    try_except, try_finally, outside, logger_info, logger_error, ret, raise.









Lemma initialize_block_retries :
  respects same_retries (initialize_attempt ;; ret (Return (L := unit) tt)).
Proof.
  apply respects_bind;
    [frame | apply respects_initialize_attempt; frame
    | intros; apply respects_ret; frame].
Qed.

Lemma initialize_block_world :
  respects same_world (initialize_attempt ;; ret (Return (L := unit) tt)).
Proof.
  apply respects_bind;
    [frame | apply respects_initialize_attempt; frame
    | intros; apply respects_ret; frame].
Qed.

Lemma retrying_retries :
  respects same_retries (logger_info "Retrying" ;; sleep_retry_delay).
Proof.
  apply respects_bind;
    [frame | apply respects_logger_info; frame
    | intros; apply respects_sleep_retry_delay; frame].
Qed.

Lemma retrying_ok s :
  exists s', (logger_info "Retrying" ;; sleep_retry_delay) s = (Ok tt, s').
Proof. eexists; reflexivity. Qed.

Lemma initialize_failed_keeps k s s' :
  initialize_attempts_failed k s s' -> same_retries s s' /\ same_world s s'.
Proof.
  intros H. split.
  - revert H. apply failed_passes_keep.
    + exact same_retries_refl.
    + exact same_retries_trans.
    + intros l s0 e s1 E. pose proof (initialize_block_retries s0) as H.
      rewrite E in H. exact H.
    + intros s0. unfold same_retries; auto.
  - revert H. apply failed_passes_keep.
    + exact same_world_refl.
    + exact same_world_trans.
    + intros l s0 e s1 E. pose proof (initialize_block_world s0) as H.
      rewrite E in H. exact H.
    + intros s0. unfold same_world; simpl; auto 10.
Qed.

(** When every attempt of [_initialize_database] fails, it ends with the
    fallback, run after the error of the last attempt has been logged. *)
Lemma initialize_database_exhausted s k s1 e s2 :
  max_retries (self s) = S k ->
  initialize_attempts_failed k s s1 ->
  (initialize_attempt ;; ret (Return (L := unit) tt)) s1 = (Raise e, s2) ->
  _initialize_database s =
  (fallback_to_sqlite ;; ret tt)
    (with_env (add_log (Error "Database initialization failed")) s2).
Proof.
  intros Hn Hf Hr. rewrite _initialize_database_retry.
  unfold bind at 1.
  rewrite (retry_loop_exhausted (fallback_to_sqlite ;; ret (Next tt))
             (fun _ => initialize_block_retries)
             retrying_retries retrying_ok Hf Hn Hr).
  unfold after_final, bind.
  destruct (fallback_to_sqlite _) as [[[]|e'] s3]; reflexivity.
Qed.











(** ** A connection string without the scheme prefix *)







(** ** Hours and days *)

Lemma hour_of_range t : 0 <= hour_of t < 24.
Proof.
  unfold hour_of.
  pose proof (Z.mod_pos_bound t 86400 ltac:(lia)) as H.
  split.
  - apply Z.div_pos; lia.
  - apply Z.div_lt_upper_bound; lia.
Qed.




Lemma NoDup_map_of_nat l : NoDup l -> NoDup (map Z.of_nat l).
Proof.
  induction 1 as [|n l Hnotin Hnd IH]; simpl; constructor; auto.
  intros Hin. apply in_map_iff in Hin as (m & Hm & Hin).
  apply Nat2Z.inj in Hm. subst m. exact (Hnotin Hin).
Qed.

Lemma hours_of_day_NoDup : NoDup hours_of_day.
Proof. apply NoDup_map_of_nat, seq_NoDup. Qed.

Lemma hours_of_day_In h : 0 <= h < 24 -> In h hours_of_day.
Proof.
  intros H. unfold hours_of_day. apply in_map_iff.
  exists (Z.to_nat h). split; [lia|]. apply in_seq. lia.
Qed.

(** ** The hourly query *)

Lemma flat_map_all_nil A B (f : A -> list B) hs :
  (forall h, In h hs -> f h = []) -> flat_map f hs = [].
Proof.
  induction hs as [|h hs IH]; intros H; [reflexivity|]. simpl.
  rewrite (H h) by (left; reflexivity). apply IH.
  intros h' Hh'. apply H. right; exact Hh'.
Qed.



Lemma sum_over_indicator_absent x hs :
  ~ In x hs -> sum_over hs (fun h => if x =? h then 1 else 0) = 0.
Proof.
  unfold sum_over; induction hs as [|h hs IH]; intros Hnotin;
    [reflexivity|]. simpl.
  destruct (Z.eqb_spec x h) as [->|_].
  - exfalso; apply Hnotin; left; reflexivity.
  - rewrite IH; [reflexivity|]. intros H; apply Hnotin; right; exact H.
Qed.

Lemma sum_over_indicator x : forall hs,
  NoDup hs -> In x hs ->
  sum_over hs (fun h => if x =? h then 1 else 0) = 1.
Proof.
  induction hs as [|h hs IH]; intros Hnd Hin; [destruct Hin|].
  inversion Hnd as [|y ys Hnotin Hnd']; subst.
  unfold sum_over. simpl. fold (sum_over hs (fun h => if x =? h then 1 else 0)).
  destruct (Z.eqb_spec x h) as [->|Hne].
  - rewrite (sum_over_indicator_absent h hs Hnotin). reflexivity.
  - destruct Hin as [->|Hin]; [congruence|]. rewrite IH; auto.
Qed.

Lemma sum_over_add hs f g :
  sum_over hs (fun h => f h + g h) = sum_over hs f + sum_over hs g.
Proof.
  unfold sum_over; induction hs as [|h hs IH]; simpl; [reflexivity|].
  rewrite IH. lia.
Qed.

Lemma sum_over_ext hs f g :
  (forall h, f h = g h) -> sum_over hs f = sum_over hs g.
Proof.
  intros H; unfold sum_over; induction hs as [|h hs IH]; simpl;
    [reflexivity|]. rewrite IH, H. reflexivity.
Qed.

(** Every selected row is in the bucket of its hour, and in no other. *)
Lemma buckets_partition A (hour : A -> Z) (sel : list A) :
  (forall r, 0 <= hour r < 24) ->
  sum_over hours_of_day
    (fun h => Z.of_nat (List.length (filter (fun r => hour r =? h) sel)))
  = Z.of_nat (List.length sel).
Proof.
  intros Hrange. induction sel as [|r sel IH].
  - simpl. unfold sum_over. induction hours_of_day; simpl; auto.
  - rewrite (sum_over_ext _ _
      (fun h => (if hour r =? h then 1 else 0) +
                Z.of_nat (List.length
                            (filter (fun r => hour r =? h) sel)))).
    + rewrite sum_over_add, IH.
      rewrite (@sum_over_indicator (hour r) hours_of_day
                 hours_of_day_NoDup (hours_of_day_In (Hrange r))).
      simpl List.length. lia.
    + intros h. simpl. destruct (hour r =? h); simpl List.length; lia.
Qed.

Lemma bucket_rows_sum (ra : list float -> sqlval)
    (hour : SummaryReport -> Z) (label : Z -> sqlval)
    (sel : list SummaryReport) hs :
  fold_right Z.add 0
    (map data_points_of
       (flat_map
          (fun h =>
             match filter (fun r => hour r =? h) sel with
             | [] => []
             | bucket =>
                 [[label h;
                   ra (map sr_online_percentage bucket);
                   ra (map (fun r => (100 - sr_online_percentage r)%float)
                           bucket);
                   SqlInt (Z.of_nat (List.length bucket))]]
             end) hs))
  = sum_over hs
      (fun h => Z.of_nat (List.length (filter (fun r => hour r =? h) sel))).
Proof.
  unfold sum_over.
  match goal with |- context [flat_map ?f hs] => set (F := f) end.
  induction hs as [|h hs IH]; [reflexivity|].
  cbn [flat_map]. rewrite map_app, fold_right_app, IH.
  cbn [map fold_right]. unfold F.
  destruct (filter (fun r => hour r =? h) sel) as [|r b]; reflexivity.
Qed.

(** The data points of the result add up to the number of selected
    rows. *)
Lemma hourly_query_total ra today hour label l :
  (forall r, 0 <= hour r < 24) ->
  total_data_points (hourly_query ra today hour label l) =
  Z.of_nat (List.length (filter today l)).
Proof.
  intros Hrange. rewrite <- (buckets_partition hour (filter today l) Hrange).
  unfold total_data_points, hourly_query. cbn [rows].
  apply bucket_rows_sum.
Qed.

Lemma hourly_query_sqlite_ext w w' l :
  round_avg w' = round_avg w -> now w' = now w ->
  hourly_query_sqlite w' l = hourly_query_sqlite w l.
Proof. unfold hourly_query_sqlite; intros -> ->; reflexivity. Qed.

Lemma hourly_query_postgresql_ext w w' l :
  round_avg w' = round_avg w -> now w' = now w ->
  pg_TimeZone w' = pg_TimeZone w -> pg_Asia_Manila w' = pg_Asia_Manila w ->
  hourly_query_postgresql w' l = hourly_query_postgresql w l.
Proof.
  unfold hourly_query_postgresql, pg_at_time_zone_manila, pg_current_date.
  intros -> -> -> ->; reflexivity.
Qed.

Lemma read_summary_query_inv c q s r s' :
  read_summary_query c q s = (r, s') ->
  match r with
  | Raise _ => True
  | Ok df =>
      exists l, summary_reports (view c s) = Some l /\
                df = q (set_tick (S (tick (env s))) (env s)) l
  end.
Proof.
  unfold read_summary_query; run_statement c;
    try (intros H; inversion H; subst; exact I);
    match goal with
    | |- context [match summary_reports ?t with _ => _ end] =>
        destruct (summary_reports t) as [l|] eqn:?; simpl
    end;
    intros H; inversion H; subst; clear H; try exact I;
    exists l; split; reflexivity.
Qed.

(** What the [try] block of [get_hourly_data] returns is the hourly query
    of the engine in use, on the committed summary reports. *)
Lemma hourly_data_try_inv s df s1 :
  hourly_data_try s = (Ok df, s1) ->
  exists l,
    summary_reports (active_tables s) = Some l /\
    df = if is_postgresql (db_type (self s))
         then hourly_query_postgresql (env s) l
         else hourly_query_sqlite (env s) l.
Proof.
  intros H. unfold hourly_data_try in H.
  apply get_connection_inv in H
    as [[H _] | (s0 & r0 & s2 & Hacq & Hbody & _ & Hr)]; [discriminate H|].
  destruct r0 as [df'|e]; [|discriminate Hr].
  inversion Hr; subst df'; clear Hr.
  pose proof Hacq as ((Hself & _) & (_ & _ & Htz & Hman & Hra & _) & _ & _
                      & Hnow).
  unfold the_db_type in Hbody. unfold bind at 1, gets in Hbody.
  rewrite Hself in Hbody.
  unfold conn_of in Hbody, Hacq.
  destruct (is_postgresql (db_type (self s))) eqn:Edb;
    apply read_summary_query_inv in Hbody as (l & Hl & ->);
    fold (conn_of s) in Hacq;
    assert (Hc : conn_of s = if true then conn_of s else conn_of s)
      by reflexivity;
    exists l.
  - split.
    + assert (Hv : view PG s0 = active_tables s).
      { replace PG with (conn_of s) by (unfold conn_of; rewrite Edb; auto).
        apply acquired_view.
        unfold conn_of in *. rewrite Edb in *. exact Hacq. }
      rewrite <- Hv. exact Hl.
    + apply hourly_query_postgresql_ext; simpl; auto.
  - split.
    + assert (Hv : view SQLITE s0 = active_tables s).
      { replace SQLITE with (conn_of s)
          by (unfold conn_of; rewrite Edb; auto).
        apply acquired_view.
        unfold conn_of in *. rewrite Edb in *. exact Hacq. }
      rewrite <- Hv. exact Hl.
    + apply hourly_query_sqlite_ext; simpl; auto.
Qed.




(** * Further properties of the layer *)

(** ** Where the time goes *)

Lemma same_clock_refl s : same_clock s s.
Proof. reflexivity. Qed.

Lemma same_clock_trans s1 s2 s3 :
  same_clock s1 s2 -> same_clock s2 s3 -> same_clock s1 s3.
Proof. unfold same_clock; congruence. Qed.

(** The relations that the steps of a [try] block keep. *)
Ltac quiet :=
  first
    [ exact same_clock_refl | exact same_clock_trans
    | solve [intros; unfold same_clock; reflexivity] ].

Lemma store_try_clock name url : respects same_clock (store_try name url).
Proof. apply respects_store_try; quiet. Qed.

Lemma status_try_clock store_id is_online rt msg :
  respects same_clock (status_try store_id is_online rt msg).
Proof. apply respects_status_try; quiet. Qed.

Lemma summary_try_clock total online offline :
  respects same_clock (summary_try total online offline).
Proof. apply respects_summary_try; quiet. Qed.

Lemma initialize_block_clock :
  respects same_clock (initialize_attempt ;; ret (Return (L := unit) tt)).
Proof.
  apply respects_bind;
    [quiet | apply respects_initialize_attempt; quiet
    | intros; apply respects_ret; quiet].
Qed.

Lemma fallback_to_sqlite_clock : respects same_clock fallback_to_sqlite.
Proof. apply respects_fallback_to_sqlite; quiet. Qed.

(** A loop whose handler pauses for [retry_delay] seconds: after [k]
    passes that raised, the clock is [k] delays on. *)
Section RetryClock.
Variables L A : Type.
Variable upd : L -> L.
Variable try_block : L -> M (flow L A).
Variable err : string.
Variable on_retry : M unit.
Hypothesis block_clock : forall l, respects same_clock (try_block l).
Hypothesis block_retries : forall l, respects same_retries (try_block l).
Hypothesis on_retry_retries : respects same_retries on_retry.
Hypothesis on_retry_pause :
  forall s, now (env (snd (on_retry s))) = now (env s) + retry_delay (self s).

Lemma failed_passes_clock k l s l1 s1 :
  failed_passes upd try_block err on_retry k l s l1 s1 ->
  same_retries s s1 /\
  now (env s1) = now (env s) + Z.of_nat k * retry_delay (self s).
Proof.
  induction 1 as [l s | k l s e s1 l2 s2 Hraise Hrest IH].
  - split; [apply same_retries_refl | simpl; lia].
  - pose proof (block_clock (upd l) s) as Hc.
    pose proof (block_retries (upd l) s) as Hr.
    rewrite Hraise in Hc, Hr. simpl in Hc, Hr.
    set (s1' := with_env (add_log (Error err)) s1) in *.
    assert (Hb : between_passes err on_retry s1 = snd (on_retry s1')).
    { unfold between_passes, bind, logger_error, modify. fold s1'.
      destruct (on_retry s1') as [[u|e'] sx]; reflexivity. }
    rewrite Hb in IH. destruct IH as (Hr2 & Hn2).
    pose proof (on_retry_retries s1') as Hr1.
    pose proof (on_retry_pause s1') as Hn1.
    assert (Hr' : same_retries s (snd (on_retry s1'))).
    { eapply same_retries_trans; [exact Hr|].
      eapply same_retries_trans; [|exact Hr1].
      unfold same_retries; auto. }
    split; [eapply same_retries_trans; [exact Hr'|exact Hr2]|].
    rewrite Hn2, Hn1. destruct Hr' as (_ & ->).
    change (now (env s1')) with (now (env s1)).
    change (retry_delay (self s1')) with (retry_delay (self s1)).
    unfold same_clock in Hc. rewrite Hc.
    destruct Hr as (_ & ->). rewrite Nat2Z.inj_succ. ring.
Qed.
End RetryClock.

Section RetryLoopClock.
Variables L A : Type.
Variable upd : L -> L.
Variable try_block : L -> M (flow L A).
Variable err : string.
Variable on_retry : M unit.
Variable final : M (flow L A).
Hypothesis block_clock : forall l, respects same_clock (try_block l).
Hypothesis block_retries : forall l, respects same_retries (try_block l).
Hypothesis on_retry_retries : respects same_retries on_retry.
Hypothesis on_retry_ok : forall s, exists s', on_retry s = (Ok tt, s').
Hypothesis on_retry_pause :
  forall s, now (env (snd (on_retry s))) = now (env s) + retry_delay (self s).
Hypothesis final_clock : respects same_clock final.
Hypothesis block_not_next :
  forall l s l' s', try_block l s <> (Ok (Next l'), s').

(** The loop pauses once after each pass that raised, except the last
    one. *)
Lemma retry_loop_clock l s r s' :
  (0 < max_retries (self s))%nat ->
  retry_loop upd try_block err on_retry final l s = (r, s') ->
  exists k l1 s1,
    failed_passes upd try_block err on_retry k l s l1 s1 /\
    (k < max_retries (self s))%nat /\
    now (env s') = now (env s) + Z.of_nat k * retry_delay (self s) /\
    ((exists a,
         try_block (upd l1) s1 = (Ok (Return a), s') /\ r = Ok (Some a)) \/
     (S k = max_retries (self s) /\
      exists e s2 f,
        try_block (upd l1) s1 = (Raise e, s2) /\
        final (with_env (add_log (Error err)) s2) = (f, s') /\
        r = match f with
            | Ok (Return a) => Ok (Some a)
            | Ok (Next _) => Ok None
            | Raise e => Raise e
            end)).
Proof.
  intros Hn Hrun.
  apply (retry_loop_inv upd try_block err final block_retries
           on_retry_retries on_retry_ok l s Hn block_not_next) in Hrun
    as [(k & l1 & s1 & a & Hf & Hk & Hok & ->)
       |(k & l1 & s1 & e & s2 & Hf & Hk & Hr & Hfin)];
    destruct (failed_passes_clock block_clock block_retries
                on_retry_retries on_retry_pause Hf) as (_ & Hnow);
    exists k, l1, s1; (split; [exact Hf|]).
  - split; [exact Hk|]. split.
    + pose proof (block_clock (upd l1) s1) as Hc. rewrite Hok in Hc.
      simpl in Hc. unfold same_clock in Hc. rewrite Hc. exact Hnow.
    + left. exists a. auto.
  - split; [lia|].
    pose proof (block_clock (upd l1) s1) as Hc. rewrite Hr in Hc.
    simpl in Hc. unfold same_clock in Hc.
    unfold after_final in Hfin.
    pose proof (final_clock (with_env (add_log (Error err)) s2)) as Hc2.
    destruct (final (with_env (add_log (Error err)) s2))
      as [[[l'|a]|e'] s3] eqn:Ef; inversion Hfin; subst; clear Hfin;
      simpl in Hc2; unfold same_clock in Hc2; simpl in Hc2;
      (split; [rewrite Hc2, Hc; exact Hnow|]);
      right; (split; [symmetry; exact Hk|]);
      eexists e, s2, _;
      (split; [exact Hr | split; [exact Ef | reflexivity]]).
Qed.
End RetryLoopClock.

Lemma sleep_retry_delay_pause s :
  now (env (snd (sleep_retry_delay s))) = now (env s) + retry_delay (self s).
Proof. reflexivity. Qed.

Lemma retrying_pause s :
  now (env (snd ((logger_info "Retrying" ;; sleep_retry_delay) s)))
  = now (env s) + retry_delay (self s).
Proof. reflexivity. Qed.

Lemma return_false_clock L msg :
  respects same_clock (logger_error msg ;; ret (Return (L := L) false)).
Proof. intros s; reflexivity. Qed.

Lemma raise_clock A e : respects same_clock (@raise A e).
Proof. intros s; reflexivity. Qed.

(** X1.  A write operation sleeps only between attempts: when it ends,
    the clock is [k] retry delays on for some [k] below [max_retries],
    and when it reports failure ([False], or the exception of
    [get_or_create_store]) it has slept after every attempt but the
    last. *)
Theorem writes_sleep_between_attempts s :
  (0 < max_retries (self s))%nat ->
  (forall store_id is_online rt msg r s',
      save_status_check store_id is_online rt msg s = (r, s') ->
      exists k,
        (k < max_retries (self s))%nat /\
        now (env s') = now (env s) + Z.of_nat k * retry_delay (self s) /\
        (r = Ok (Some false) -> S k = max_retries (self s))) /\
  (forall total online offline r s',
      save_summary_report total online offline s = (r, s') ->
      exists k,
        (k < max_retries (self s))%nat /\
        now (env s') = now (env s) + Z.of_nat k * retry_delay (self s) /\
        (r = Ok (Some false) -> S k = max_retries (self s))) /\
  (forall name url r s',
      get_or_create_store name url s = (r, s') ->
      exists k,
        (k < max_retries (self s))%nat /\
        now (env s') = now (env s) + Z.of_nat k * retry_delay (self s) /\
        (forall e, r = Raise e -> S k = max_retries (self s))).
Proof.
  intros Hn. split; [|split].
  - intros store_id is_online rt msg r s' Hrun.
    rewrite save_status_check_retry in Hrun.
    destruct (retry_loop_clock truncate_error_message
                (status_try store_id is_online rt)
                "Failed to save status check"
                (status_try_clock store_id is_online rt)
                (status_try_retries store_id is_online rt)
                sleep_retry_delay_retries sleep_retry_delay_ok
                sleep_retry_delay_pause
                (@return_false_clock _ _)
                (fun l s0 l' s'0 =>
                   @status_try_not_next store_id is_online rt l s0 l' s'0)
                msg s Hn Hrun) as (k & l1 & s1 & _ & Hk & Hnow & Hcase).
    exists k. split; [exact Hk|]. split; [exact Hnow|].
    destruct Hcase as [(a & Hok & ->) | (Hlast & _)]; auto.
    apply status_try_inv in Hok as (Ha & _). inversion Ha; subst.
    discriminate.
  - intros total online offline r s' Hrun.
    rewrite save_summary_report_retry in Hrun.
    destruct (retry_loop_clock (fun _ : unit => tt)
                (fun _ => summary_try total online offline)
                "Failed to save summary report"
                (fun _ => summary_try_clock total online offline)
                (fun _ => summary_try_retries total online offline)
                sleep_retry_delay_retries sleep_retry_delay_ok
                sleep_retry_delay_pause
                (@return_false_clock _ _)
                (fun l s0 l' s'0 =>
                   @summary_try_not_next total online offline s0 l' s'0)
                tt s Hn Hrun) as (k & l1 & s1 & _ & Hk & Hnow & Hcase).
    exists k. split; [exact Hk|]. split; [exact Hnow|].
    destruct Hcase as [(a & Hok & ->) | (Hlast & _)]; auto.
    apply summary_try_inv in Hok as (Ha & _). inversion Ha; subst.
    discriminate.
  - intros name url r s' Hrun.
    rewrite get_or_create_store_retry in Hrun.
    destruct (retry_loop_clock (fun _ : unit => tt)
                (fun _ => store_try name url)
                "Failed to get_or_create_store"
                (fun _ => store_try_clock name url)
                (fun _ => store_try_retries name url)
                sleep_retry_delay_retries sleep_retry_delay_ok
                sleep_retry_delay_pause
                (@raise_clock _ _)
                (fun l s0 l' s'0 =>
                   @store_try_not_next name url s0 l' s'0)
                tt s Hn Hrun) as (k & l1 & s1 & _ & Hk & Hnow & Hcase).
    exists k. split; [exact Hk|]. split; [exact Hnow|].
    destruct Hcase as [(a & Hok & ->) | (Hlast & _)]; auto.
    intros e He; discriminate He.
Qed.

Lemma writes_sleep_between_attempts_witness :
  (0 < max_retries (self sqlite_lost))%nat /\
  forall store_id is_online rt msg r s',
    save_status_check store_id is_online rt msg sqlite_lost = (r, s') ->
    exists k,
      (k < max_retries (self sqlite_lost))%nat /\
      now (env s') =
      now (env sqlite_lost) + Z.of_nat k * retry_delay (self sqlite_lost) /\
      (r = Ok (Some false) -> S k = max_retries (self sqlite_lost)).
Proof.
  assert (H : (0 < max_retries (self sqlite_lost))%nat)
    by (vm_compute; lia).
  split; [exact H|].
  exact (proj1 (writes_sleep_between_attempts sqlite_lost H)).
Defined.

Lemma same_engine_refl s : same_engine s s.
Proof. reflexivity. Qed.

Lemma same_engine_trans s1 s2 s3 :
  same_engine s1 s2 -> same_engine s2 s3 -> same_engine s1 s3.
Proof. unfold same_engine; congruence. Qed.

Ltac engine_kept :=
  first
    [ exact same_engine_refl | exact same_engine_trans
    | solve [intros; unfold same_engine; reflexivity] ].

Lemma initialize_block_engine :
  respects same_engine (initialize_attempt ;; ret (Return (L := unit) tt)).
Proof.
  apply respects_bind;
    [engine_kept | apply respects_initialize_attempt; engine_kept
    | intros; apply respects_ret; engine_kept].
Qed.

Lemma initialize_failed_engine k s s' :
  initialize_attempts_failed k s s' -> same_engine s s'.
Proof.
  apply failed_passes_keep.
  - exact same_engine_refl.
  - exact same_engine_trans.
  - intros l s0 e s1 E. pose proof (initialize_block_engine s0) as H.
    rewrite E in H. exact H.
  - intros s0. reflexivity.
Qed.

Lemma initialize_block_not_next (l : unit) s (l' : unit) s' :
  (initialize_attempt ;; ret (Return (L := unit) tt)) s <> (Ok (Next l'), s').
Proof.
  intros H. apply bind_inv in H as [(u & s1 & _ & H) | (e & _ & H)];
    inversion H.
Qed.

Lemma fallback_final_clock :
  respects same_clock (fallback_to_sqlite ;; ret (Next (A := unit) tt)).
Proof.
  apply respects_bind;
    [quiet | exact fallback_to_sqlite_clock
    | intros; apply respects_ret; quiet].
Qed.

(** X2.  The constructor sleeps at most twice, five seconds each time.
    If it has slept fewer than two times it returns, on the engine that
    was configured; only after the second sleep can it raise or run on
    the embedded engine instead of the configured one. *)
Theorem startup_sleeps_at_most_twice c w r s :
  __init__ c w = (r, s) ->
  exists k,
    (k <= 2)%nat /\
    now (env s) = now w + 5 * Z.of_nat k /\
    ((k < 2)%nat ->
     r = Ok tt /\
     db_type (self s) = (if USE_SQLITE c then "sqlite" else "postgresql")).
Proof.
  unfold __init__. fold (constructed c w).
  rewrite _initialize_database_retry. intros Hrun.
  apply bind_inv in Hrun as [(o & s1 & Hloop & Hret) | (e & Hloop & ->)].
  - inversion Hret; subst; clear Hret.
    destruct (retry_loop_clock (fun _ : unit => tt)
                (fun _ => initialize_attempt ;; ret (Return tt))
                "Database initialization failed"
                (fun _ => initialize_block_clock)
                (fun _ => initialize_block_retries)
                retrying_retries retrying_ok retrying_pause
                fallback_final_clock initialize_block_not_next
                tt (constructed c w) (Nat.lt_0_succ 2) Hloop)
      as (k & [] & s0 & Hf & Hk & Hnow & Hcase).
    exists k. simpl in Hk, Hnow. split; [lia|]. split; [lia|].
    intros Hk2. split; [reflexivity|].
    destruct Hcase as [(a & Hok & _) | (Hlast & _)];
      [|simpl in Hlast; lia].
    apply initialize_failed_engine in Hf.
    pose proof (initialize_block_engine s0) as He. rewrite Hok in He.
    simpl in He. unfold same_engine in *. rewrite He, Hf. reflexivity.
  - destruct (retry_loop_clock (fun _ : unit => tt)
                (fun _ => initialize_attempt ;; ret (Return tt))
                "Database initialization failed"
                (fun _ => initialize_block_clock)
                (fun _ => initialize_block_retries)
                retrying_retries retrying_ok retrying_pause
                fallback_final_clock initialize_block_not_next
                tt (constructed c w) (Nat.lt_0_succ 2) Hloop)
      as (k & [] & s0 & Hf & Hk & Hnow & Hcase).
    exists k. simpl in Hk, Hnow. split; [lia|]. split; [lia|].
    intros Hk2.
    destruct Hcase as [(a & _ & Hr) | (Hlast & _)];
      [discriminate Hr | simpl in Hlast; lia].
Qed.

Lemma startup_sleeps_at_most_twice_witness :
  __init__ cfg_primary (sample_world primary_down) = (Ok tt, on_sqlite) /\
  exists k,
    (k <= 2)%nat /\
    now (env on_sqlite) = now (sample_world primary_down) + 5 * Z.of_nat k.
Proof.
  assert (H : __init__ cfg_primary (sample_world primary_down)
              = (Ok tt, on_sqlite)) by (vm_compute; reflexivity).
  split; [exact H|].
  destruct (@startup_sleeps_at_most_twice _ _ _ _ H) as (k & Hk & Hnow & _).
  exists k. split; [exact Hk | exact Hnow].
Defined.

(** ** What the read operations leave alone *)

(** Splits a method into its steps, for a relation that the steps which
    only move the oracle and the log keep. *)
Ltac keep_steps Hrefl Htrans Htick Hlog :=
  repeat first
    [ match goal with |- forall _, _ => intro end
    | match goal with
      | |- respects _ (ret _) => apply (@respects_ret _ Hrefl)
      | |- respects _ (raise _) => apply (@respects_raise _ Hrefl)
      | |- respects _ (gets _) => apply (@respects_gets _ Hrefl)
      | |- respects _ (lift _) => apply (@respects_lift _ Hrefl)
      | |- respects _ (outside _ _) => apply (@respects_outside _ Htick)
      | |- respects _ (logger_error _) =>
          apply (@respects_logger_error _ Hlog)
      | |- respects _ (logger_info _) =>
          apply (@respects_logger_info _ Hlog)
      | |- respects _ (bind _ _) => apply (@respects_bind _ Htrans)
      | |- respects _ (try_except _ _) =>
          apply (@respects_try_except _ Htrans)
      | |- respects _ (if ?b then _ else _) => destruct b
      | |- respects _ (match ?x with _ => _ end) => destruct x
      end ].

Ltac data_steps :=
  keep_steps same_data_refl same_data_trans same_data_tick same_data_log.

(** A [with] block whose body commits nothing commits nothing. *)
Lemma scope_same_data A (body : resource -> M A) :
  (forall c, respects same_data (body c)) ->
  respects same_data (get_connection body).
Proof.
  intros Hb s. destruct (get_connection body s) as [r s'] eqn:E.
  apply get_connection_inv in E
    as [[_ Hd] | (s0 & r0 & s1 & Hacq & Hbody & Hd & _)]; simpl;
    [exact Hd|].
  destruct Hacq as (Hd0 & _).
  eapply same_data_trans; [exact Hd0|].
  eapply same_data_trans; [|exact Hd].
  pose proof (Hb (conn_of s) s0) as H. rewrite Hbody in H. exact H.
Qed.

Lemma read_join_query_same_data c q : respects same_data (read_join_query c q).
Proof. unfold read_join_query; data_steps. Qed.

Lemma read_summary_query_same_data c q :
  respects same_data (read_summary_query c q).
Proof. unfold read_summary_query; data_steps. Qed.

Lemma database_stats_try_same_data : respects same_data database_stats_try.
Proof.
  unfold database_stats_try. apply scope_same_data. intros c.
  unfold select_stores, select_count_status_checks, select_latest_summary,
    the_db_type.
  data_steps.
Qed.

Lemma get_latest_status_same_data : respects same_data get_latest_status.
Proof.
  unfold get_latest_status, latest_status_try. data_steps.
  apply scope_same_data. intros c. apply read_join_query_same_data.
Qed.

Lemma get_hourly_data_same_data : respects same_data get_hourly_data.
Proof.
  unfold get_hourly_data, hourly_data_try. data_steps.
  apply scope_same_data. intros c. unfold the_db_type. data_steps;
    apply read_summary_query_same_data.
Qed.

Lemma get_store_logs_same_data limit :
  respects same_data (get_store_logs limit).
Proof.
  unfold get_store_logs, store_logs_try. data_steps.
  apply scope_same_data. intros c. unfold the_db_type. data_steps;
    apply read_join_query_same_data.
Qed.

Lemma get_daily_uptime_same_data : respects same_data get_daily_uptime.
Proof.
  unfold get_daily_uptime, daily_uptime_try. data_steps.
  apply scope_same_data. intros c. unfold the_db_type. data_steps;
    apply read_join_query_same_data.
Qed.

Lemma get_database_stats_same_data : respects same_data get_database_stats.
Proof.
  unfold get_database_stats. data_steps.
  - apply database_stats_try_same_data.
  - unfold the_db_type. data_steps.
Qed.

Lemma close_same_data : respects same_data close.
Proof. unfold close. data_steps. Qed.

(** X3.  The read operations and [close] commit nothing and assign no
    attribute of the instance, whether they succeed or fall back to their
    empty result; [close] returns even when closing the pool fails. *)
Theorem reads_and_close_commit_nothing s limit :
  same_data s (snd (get_latest_status s)) /\
  same_data s (snd (get_hourly_data s)) /\
  same_data s (snd (get_store_logs limit s)) /\
  same_data s (snd (get_daily_uptime s)) /\
  same_data s (snd (get_database_stats s)) /\
  same_data s (snd (close s)) /\
  fst (close s) = Ok tt.
Proof.
  split; [apply get_latest_status_same_data|].
  split; [apply get_hourly_data_same_data|].
  split; [apply get_store_logs_same_data|].
  split; [apply get_daily_uptime_same_data|].
  split; [apply get_database_stats_same_data|].
  split; [apply close_same_data|].
  unfold close, bind, gets, try_except, outside, logger_info,
    logger_error, modify, ret.
  destruct (connection_pool (self s)); [|reflexivity].
  destruct (faults (env s) PG (tick (env s))); reflexivity.
Qed.

(** ** A percentage that is no float *)

Lemma online_percentage_of_raises total online e :
  online_percentage_of total online = Raise e -> e = OverflowError.
Proof.
  unfold online_percentage_of, int_truediv.
  destruct (total >? 0) eqn:Et; [|discriminate].
  destruct (total =? 0) eqn:E0.
  - apply Z.eqb_eq in E0. apply Z.gtb_lt in Et. lia.
  - destruct (SFdiv prec emax (Z2SF online) (Z2SF total));
      intros H; inversion H; reflexivity.
Qed.

Lemma summary_try_raises total online offline e s :
  online_percentage_of total online = Raise e ->
  summary_try total online offline s = (Raise e, s).
Proof. intros H. unfold summary_try, bind, lift. rewrite H. reflexivity. Qed.

Lemma summary_passes_raise total online offline e :
  online_percentage_of total online = Raise e ->
  forall k s,
    exists s1,
      summary_attempts_failed total online offline k s s1 /\
      tick (env s1) = tick (env s) /\ same_data s s1.
Proof.
  intros H; induction k as [|k IH]; intros s.
  - exists s. split; [apply failed_O|]. split; [reflexivity|].
    apply same_data_refl.
  - destruct (IH (between_passes "Failed to save summary report"
                    sleep_retry_delay s)) as (s1 & Hf & Ht & Hd).
    exists s1. split.
    + eapply failed_S;
        [apply (@summary_try_raises _ _ offline _ s H) | exact Hf].
    + split; [rewrite Ht; reflexivity|].
      eapply same_data_trans; [apply between_same_data | exact Hd].
Qed.

(** X4.  The percentage is computed inside the retried block.  When the
    quotient of the two counts is too large for a float the computation
    raises [OverflowError], the only exception it can raise; every attempt
    then fails before a connection is asked for, and [save_summary_report]
    returns [False] with nothing stored and no call to an engine made. *)
Theorem overflowing_percentage_is_reported_as_failure
    total online offline e s :
  online_percentage_of total online = Raise e ->
  (0 < max_retries (self s))%nat ->
  e = OverflowError /\
  exists s',
    save_summary_report total online offline s = (Ok (Some false), s') /\
    tick (env s') = tick (env s) /\
    same_data s s'.
Proof.
  intros H Hn. split; [exact (@online_percentage_of_raises _ _ _ H)|].
  destruct (max_retries (self s)) as [|k] eqn:En; [lia|].
  destruct (@summary_passes_raise _ _ offline _ H k s) as (s1 & Hf & Ht & Hd).
  pose proof (@summary_try_raises _ _ offline _ s1 H) as Hr.
  rewrite save_summary_report_retry.
  rewrite (retry_loop_exhausted
             (logger_error "Failed to save summary report after all attempts"
              ;; ret (Return false))
             (fun _ => summary_try_retries total online offline)
             sleep_retry_delay_retries sleep_retry_delay_ok Hf En Hr).
  eexists. split; [reflexivity|]. split; [exact Ht|].
  eapply same_data_trans; [exact Hd|]. unfold same_data; simpl; auto.
Qed.

Lemma overflowing_percentage_is_reported_as_failure_witness :
  online_percentage_of 1 (2 ^ 1024) = Raise OverflowError /\
  (0 < max_retries (self on_postgresql))%nat /\
  exists s',
    save_summary_report 1 (2 ^ 1024) 0 on_postgresql
    = (Ok (Some false), s') /\
    tick (env s') = tick (env on_postgresql) /\
    same_data on_postgresql s'.
Proof.
  assert (H1 : online_percentage_of 1 (2 ^ 1024) = Raise OverflowError)
    by (vm_compute; reflexivity).
  assert (H2 : (0 < max_retries (self on_postgresql))%nat)
    by (vm_compute; lia).
  split; [exact H1|]. split; [exact H2|].
  exact (proj2 (@overflowing_percentage_is_reported_as_failure
                  _ _ 0 _ on_postgresql H1 H2)).
Defined.

(** ** The reference from status checks to stores *)









(** ** The statistics dictionary *)

Lemma latest_report_cons r l : exists r', latest_report (r :: l) = Some r'.
Proof.
  simpl. destruct (latest_report l) as [r'|]; [|eauto].
  destruct (sr_report_time r' >? sr_report_time r); eauto.
Qed.

(** X6.  On the primary engine the cursor returns the latest summary
    report as a tuple, which [dict(...)] cannot convert.  As long as
    summary_reports is empty [get_database_stats] returns the counts; from
    the first report on it returns the dictionary of its [except] branch,
    with every count zero. *)
Theorem stats_on_primary_are_zero_once_a_report_exists s ss cs :
  primary_ready s ->
  stores (committed (pg (env s))) = Some ss ->
  status_checks (committed (pg (env s))) = Some cs ->
  (summary_reports (committed (pg (env s))) = Some [] ->
   exists s',
     get_database_stats s =
     (Ok {| store_count := Z.of_nat (List.length ss);
            platforms := platform_counts ss;
            total_checks := Z.of_nat (List.length cs);
            latest_summary := None;
            stats_db_type := "postgresql" |}, s')) /\
  (forall r rs,
      summary_reports (committed (pg (env s))) = Some (r :: rs) ->
      exists s',
        get_database_stats s =
        (Ok {| store_count := 0; platforms := []; total_checks := 0;
               latest_summary := None;
               stats_db_type := "postgresql" |}, s')).
Proof.
  intros (Hdb & Hpool & _ & Hpg & _) Hss Hcs. unfold healthy in Hpg.
  split.
  - intros Hrs.
    unfold get_database_stats, database_stats_try, select_stores,
      select_count_status_checks, select_latest_summary.
    unfold_methods. rewrite Hdb. simpl. rewrite Hpool. simpl.
    repeat (rewrite ?Hpg; simpl). unfold view; simpl.
    repeat (rewrite ?Hpg, ?Hdb, ?Hss, ?Hcs, ?Hrs; simpl).
    eexists; reflexivity.
  - intros r rs Hrs.
    destruct (latest_report_cons r rs) as (r' & Hlatest).
    unfold get_database_stats, database_stats_try, select_stores,
      select_count_status_checks, select_latest_summary.
    unfold_methods. rewrite Hdb. simpl. rewrite Hpool. simpl.
    repeat (rewrite ?Hpg; simpl). unfold view; simpl.
    repeat (rewrite ?Hpg, ?Hdb, ?Hss, ?Hcs, ?Hrs, ?Hlatest; simpl).
    eexists; reflexivity.
Qed.

Lemma stats_on_primary_are_zero_once_a_report_exists_witness :
  primary_ready first_report /\
  stores (committed (pg (env first_report))) = Some [] /\
  status_checks (committed (pg (env first_report))) = Some [] /\
  exists s',
    get_database_stats first_report =
    (Ok {| store_count := 0; platforms := []; total_checks := 0;
           latest_summary := None;
           stats_db_type := "postgresql" |}, s').
Proof.
  assert (H1 : primary_ready first_report).
  { unfold primary_ready, healthy, schema_created.
    split; [reflexivity|]. split; [reflexivity|].
    split; [vm_compute; lia|].
    split; [intros k; vm_compute; reflexivity|].
    vm_compute. repeat split; discriminate. }
  assert (H2 : stores (committed (pg (env first_report))) = Some [])
    by (vm_compute; reflexivity).
  assert (H3 : status_checks (committed (pg (env first_report))) = Some [])
    by (vm_compute; reflexivity).
  split; [exact H1|]. split; [exact H2|]. split; [exact H3|].
  eapply (proj2 (stats_on_primary_are_zero_once_a_report_exists H1 H2 H3)).
  vm_compute. reflexivity.
Defined.

Lemma sum_map_add A (f g : A -> Z) l :
  fold_right Z.add 0 (map (fun x => f x + g x) l) =
  fold_right Z.add 0 (map f l) + fold_right Z.add 0 (map g l).
Proof. induction l as [|x l IH]; simpl; lia. Qed.

Lemma sum_map_ext A (f g : A -> Z) l :
  (forall x, In x l -> f x = g x) ->
  fold_right Z.add 0 (map f l) = fold_right Z.add 0 (map g l).
Proof.
  induction l as [|x l IH]; intros H; simpl; [reflexivity|].
  rewrite (H x (or_introl eq_refl)), IH; auto.
  intros y Hy; apply H; right; exact Hy.
Qed.

(** One of the keys [ks], which are distinct, is [k]. *)
Lemma sum_key_indicator k ks :
  NoDup ks ->
  fold_right Z.add 0
    (map (fun p => if (k =? p)%string then 1 else 0) ks) =
  if in_dec string_dec k ks then 1 else 0.
Proof.
  induction 1 as [|p ks Hnot Hnodup IH]; simpl; [reflexivity|].
  rewrite IH.
  destruct (String.eqb_spec k p) as [->|Hne].
  - destruct (string_dec p p) as [Hpp|Hc]; [|contradiction].
    destruct (in_dec string_dec p ks); [contradiction|reflexivity].
  - destruct (string_dec p k) as [Hc|Hc]; [congruence|].
    destruct (in_dec string_dec k ks); reflexivity.
Qed.

Lemma platform_counts_keys l :
  map fst (platform_counts l) = nodup string_dec (map s_platform l).
Proof.
  unfold platform_counts. rewrite map_map. simpl. apply map_id.
Qed.

Lemma platform_count_sum l : forall ks,
  NoDup ks ->
  (forall r, In r l -> In (s_platform r) ks) ->
  fold_right Z.add 0
    (map (fun p => Z.of_nat (List.length
            (filter (fun r => (s_platform r =? p)%string) l))) ks)
  = Z.of_nat (List.length l).
Proof.
  induction l as [|x l IH]; intros ks Hnodup Hin.
  - simpl. clear Hnodup Hin.
    induction ks as [|k ks IHk]; simpl; [reflexivity|exact IHk].
  - rewrite (sum_map_ext
               (fun p => Z.of_nat (List.length
                  (filter (fun r => (s_platform r =? p)%string) (x :: l))))
               (fun p => (if (s_platform x =? p)%string then 1 else 0) +
                  Z.of_nat (List.length
                    (filter (fun r => (s_platform r =? p)%string) l)))).
    + rewrite sum_map_add, (sum_key_indicator _ Hnodup), IH; auto.
      * destruct (in_dec string_dec (s_platform x) ks) as [Hx|Hc].
        -- simpl List.length. lia.
        -- exfalso; apply Hc, Hin; left; reflexivity.
      * intros r Hr; apply Hin; right; exact Hr.
    + intros p _. simpl filter.
      destruct (s_platform x =? p)%string; simpl List.length; lia.
Qed.

(** The counts per platform add up to the number of stores. *)
Lemma platform_counts_total l :
  total_count (platform_counts l) = Z.of_nat (List.length l).
Proof.
  unfold total_count, platform_counts. rewrite map_map. simpl.
  apply platform_count_sum.
  - apply NoDup_nodup.
  - intros r Hr. apply nodup_In. apply in_map. exact Hr.
Qed.

Lemma platform_counts_positive l p n :
  In (p, n) (platform_counts l) -> 0 < n.
Proof.
  unfold platform_counts. intros H. apply in_map_iff in H as (q & Hq & Hin).
  inversion Hq; subst; clear Hq.
  apply nodup_In in Hin. apply in_map_iff in Hin as (r & Hr & Hin).
  assert (Hf : In r (filter (fun r0 => (s_platform r0 =? p)%string) l)).
  { apply filter_In. split; [exact Hin|]. apply String.eqb_eq. exact Hr. }
  destruct (filter _ l); [contradiction|]. simpl List.length. lia.
Qed.

Lemma select_stores_inv c s r s' :
  select_stores c s = (r, s') ->
  same_data s s' /\ view c s' = view c s /\
  match r with
  | Ok l => stores (view c s) = Some l
  | Raise _ => True
  end.
Proof.
  unfold select_stores; run_statement c; try close_statement;
    match goal with
    | |- context [match stores ?t with _ => _ end] =>
        destruct (stores t) eqn:?; simpl
    end; close_statement.
Qed.

Lemma select_count_status_checks_inv c s r s' :
  select_count_status_checks c s = (r, s') ->
  same_data s s' /\ view c s' = view c s /\
  match r with
  | Ok n => exists l, status_checks (view c s) = Some l /\
                      n = Z.of_nat (List.length l)
  | Raise _ => True
  end.
Proof.
  unfold select_count_status_checks; run_statement c; try close_statement;
    match goal with
    | |- context [match status_checks ?t with _ => _ end] =>
        destruct (status_checks t) eqn:?; simpl
    end; close_statement.
Qed.

Lemma select_latest_summary_inv c s r s' :
  select_latest_summary c s = (r, s') ->
  same_data s s' /\ view c s' = view c s /\
  match r with
  | Ok o => exists l, summary_reports (view c s) = Some l /\
                      o = latest_report l
  | Raise _ => True
  end.
Proof.
  unfold select_latest_summary; run_statement c; try close_statement;
    match goal with
    | |- context [match summary_reports ?t with _ => _ end] =>
        destruct (summary_reports t) eqn:?; simpl
    end; close_statement.
Qed.

(** When the [try] block of [get_database_stats] returns, the three
    tables exist and the dictionary holds their counts. *)
Lemma database_stats_try_inv s st s' :
  database_stats_try s = (Ok st, s') ->
  exists ss cs rs,
    stores (active_tables s) = Some ss /\
    status_checks (active_tables s) = Some cs /\
    summary_reports (active_tables s) = Some rs /\
    store_count st = Z.of_nat (List.length ss) /\
    platforms st = platform_counts ss /\
    total_checks st = Z.of_nat (List.length cs) /\
    stats_db_type st = db_type (self s) /\
    match latest_report rs with
    | Some r => exists d, dict_of_row (conn_of s) r = Ok d /\
                          latest_summary st = Some d
    | None => latest_summary st = None
    end.
Proof.
  intros H.
  apply get_connection_inv in H
    as [[H _] | (s0 & r0 & s1 & Hacq & Hbody & Hd & Hr)]; [discriminate H|].
  destruct r0 as [st0|e]; [|discriminate Hr].
  inversion Hr; subst st0; clear Hr.
  pose proof (acquired_view Hacq) as Hv.
  destruct Hacq as (Hd0 & _).
  apply bind_inv in Hbody as [(ss & s2 & H1 & Hbody) | (e & _ & He)];
    [|discriminate He].
  apply select_stores_inv in H1 as (Hd1 & Hv1 & Hss).
  apply bind_inv in Hbody as [(ss' & s3 & H2 & Hbody) | (e & _ & He)];
    [|discriminate He].
  apply select_stores_inv in H2 as (Hd2 & Hv2 & Hss').
  apply bind_inv in Hbody as [(n & s4 & H3 & Hbody) | (e & _ & He)];
    [|discriminate He].
  apply select_count_status_checks_inv in H3
    as (Hd3 & Hv3 & cs & Hcs & ->).
  apply bind_inv in Hbody as [(o & s5 & H4 & Hbody) | (e & _ & He)];
    [|discriminate He].
  apply select_latest_summary_inv in H4 as (Hd4 & Hv4 & rs & Hrs & ->).
  rewrite Hv1, Hv in Hss'. rewrite Hv in Hss.
  rewrite Hv3, Hv2, Hv1, Hv in Hrs. rewrite Hv2, Hv1, Hv in Hcs.
  assert (Hself : db_type (self s5) = db_type (self s)).
  { destruct Hd4 as (-> & _). destruct Hd3 as (-> & _).
    destruct Hd2 as (-> & _). destruct Hd1 as (-> & _).
    destruct Hd0 as (-> & _). reflexivity. }
  exists ss, cs, rs.
  split; [exact Hss|]. split; [exact Hcs|]. split; [exact Hrs|].
  assert (Hsame : ss' = ss) by congruence. subst ss'.
  apply bind_inv in Hbody as [(d & s6 & H5 & Hbody) | (e & _ & He)];
    [|discriminate He].
  unfold the_db_type, bind, gets, ret in Hbody.
  destruct (latest_report rs) as [r|].
  - apply bind_inv in H5 as [(d0 & s7 & H6 & H7) | (e & _ & He)];
      [|discriminate He].
    unfold lift in H6. inversion H6; subst; clear H6.
    inversion H7; subst; clear H7.
    inversion Hbody; subst; clear Hbody. simpl.
    rewrite Hself. repeat split; auto. exists d0. auto.
  - inversion H5; subst; clear H5.
    inversion Hbody; subst; clear Hbody. simpl.
    rewrite Hself. repeat split; auto.
Qed.

(** X7.  Whatever [get_database_stats] returns, the dictionary is
    consistent: the per-platform counts are positive, have distinct keys
    and add up to [store_count], and [db_type] is the engine tag of the
    instance.  The dictionary either holds the sizes of the tables of the
    engine in use or is the all-zero dictionary of the [except] branch. *)
Theorem database_stats_are_consistent s st s' :
  get_database_stats s = (Ok st, s') ->
  total_count (platforms st) = store_count st /\
  NoDup (map fst (platforms st)) /\
  (forall p n, In (p, n) (platforms st) -> 0 < n) /\
  stats_db_type st = db_type (self s) /\
  ((exists ss cs,
       stores (active_tables s) = Some ss /\
       status_checks (active_tables s) = Some cs /\
       store_count st = Z.of_nat (List.length ss) /\
       total_checks st = Z.of_nat (List.length cs)) \/
   st = fallback_stats (db_type (self s))).
Proof.
  unfold get_database_stats, try_except. intros H.
  destruct (database_stats_try s) as [[st0|e] s1] eqn:E.
  - inversion H; subst; clear H.
    apply database_stats_try_inv in E
      as (ss & cs & rs & Hss & Hcs & _ & Hn & Hp & Ht & Hdb & _).
    rewrite Hp, Hn.
    split; [apply platform_counts_total|].
    split; [rewrite platform_counts_keys; apply NoDup_nodup|].
    split; [intros p n; apply platform_counts_positive|].
    split; [exact Hdb|].
    left. exists ss, cs. auto.
  - pose proof (database_stats_try_self s) as Hs. rewrite E in Hs.
    simpl in Hs.
    unfold bind, logger_error, modify, the_db_type, gets, ret in H.
    simpl in H. inversion H; subst; clear H. rewrite Hs. simpl.
    split; [reflexivity|]. split; [constructor|].
    split; [intros p n []|]. split; [reflexivity|].
    right. reflexivity.
Qed.

Lemma database_stats_are_consistent_witness :
  exists s',
    get_database_stats one_store =
    (Ok {| store_count := 1; platforms := [("foodpanda", 1)];
           total_checks := 0; latest_summary := None;
           stats_db_type := "sqlite" |}, s') /\
    total_count [("foodpanda", 1)] = 1.
Proof.
  assert (E : get_database_stats one_store =
              (Ok {| store_count := 1; platforms := [("foodpanda", 1)];
                     total_checks := 0; latest_summary := None;
                     stats_db_type := "sqlite" |},
               snd (get_database_stats one_store)))
    by (vm_compute; reflexivity).
  eexists. split; [exact E|].
  exact (proj1 (@database_stats_are_consistent _ _ _ E)).
Defined.

(** ** A report saved and read back *)






(** ** Creating the schema *)

Lemma rows_kept_refl t : rows_kept t t.
Proof. unfold rows_kept; auto. Qed.

Lemma rows_kept_trans t1 t2 t3 :
  rows_kept t1 t2 -> rows_kept t2 t3 -> rows_kept t1 t3.
Proof. unfold rows_kept; intuition auto. Qed.

Lemma keeps_rows_refl s : keeps_rows s s.
Proof. split; apply rows_kept_refl. Qed.

Lemma keeps_rows_trans s1 s2 s3 :
  keeps_rows s1 s2 -> keeps_rows s2 s3 -> keeps_rows s1 s3.
Proof.
  intros (H1 & H2) (H3 & H4).
  split; eapply rows_kept_trans; eauto.
Qed.

Lemma same_data_keeps_rows s s' : same_data s s' -> keeps_rows s s'.
Proof.
  intros (_ & Hp & Hl). unfold keeps_rows. rewrite Hp, Hl.
  split; apply rows_kept_refl.
Qed.

Lemma execute_create_stores_inv c s r s' :
  execute_create_stores c s = (r, s') ->
  same_data s s' /\
  match r with
  | Raise _ => True
  | Ok _ =>
      view c s' = set_stores (create_if_not_exists (stores (view c s)))
                    (stores_seq (view c s)) (view c s)
  end.
Proof. unfold execute_create_stores; run_statement c; close_statement. Qed.

Lemma execute_create_status_checks_inv c s r s' :
  execute_create_status_checks c s = (r, s') ->
  same_data s s' /\
  match r with
  | Raise _ => True
  | Ok _ =>
      view c s' =
      set_status_checks (create_if_not_exists (status_checks (view c s)))
        (status_checks_seq (view c s)) (view c s)
  end.
Proof.
  unfold execute_create_status_checks; run_statement c;
    try close_statement;
    match goal with
    | |- context [match stores ?t with _ => _ end] =>
        destruct (stores t) eqn:?; simpl
    end; close_statement.
Qed.

Lemma execute_create_summary_reports_inv c s r s' :
  execute_create_summary_reports c s = (r, s') ->
  same_data s s' /\
  match r with
  | Raise _ => True
  | Ok _ =>
      view c s' =
      set_summary_reports
        (create_if_not_exists (summary_reports (view c s)))
        (summary_reports_seq (view c s)) (view c s)
  end.
Proof.
  unfold execute_create_summary_reports; run_statement c; close_statement.
Qed.

Lemma commit_other c s u s' :
  commit c s = (Ok u, s') ->
  committed (engine_of (other c) (env s'))
  = committed (engine_of (other c) (env s)).
Proof. unfold commit; run_statement c; close_statement. Qed.

Lemma create_if_not_exists_exists A (t : option (list A)) :
  create_if_not_exists t <> None.
Proof. destruct t; discriminate. Qed.

(** [_create_tables] commits nothing when it raises.  When it returns,
    the three tables exist on the engine in use, the tables that existed
    have kept their rows, and the other engine is as it was. *)
Lemma create_tables_inv s r s' :
  _create_tables s = (r, s') ->
  match r with
  | Raise _ => same_data s s'
  | Ok _ =>
      self s' = self s /\
      schema_created (active_tables s') /\
      rows_kept (active_tables s) (active_tables s') /\
      committed (engine_of (other (conn_of s)) (env s'))
      = committed (engine_of (other (conn_of s)) (env s))
  end.
Proof.
  intros H.
  apply get_connection_inv in H
    as [[-> Hd] | (s0 & r0 & s1 & Hacq & Hbody & Hd & ->)]; [exact Hd|].
  pose proof (acquired_view Hacq) as Hv.
  pose proof Hacq as (Hd0 & _).
  unfold the_db_type in Hbody. unfold bind at 1, gets in Hbody.
  assert (Hrun :
    ((execute_create_stores (conn_of s) ;;
      execute_create_status_checks (conn_of s) ;;
      execute_create_summary_reports (conn_of s)) ;;
     commit (conn_of s)) s0 = (r0, s1))
    by (destruct (is_postgresql (db_type (self s0))); exact Hbody).
  clear Hbody.
  apply bind_inv in Hrun as [(u & s2 & Hcreate & Hcommit) | (e & Hcreate & ->)].
  - apply bind_inv in Hcreate
      as [(u1 & sa & H1 & Hcreate) | (e & _ & He)]; [|discriminate He].
    apply execute_create_stores_inv in H1 as (Hd1 & Hv1).
    apply bind_inv in Hcreate
      as [(u2 & sb & H2 & H3) | (e & _ & He)]; [|discriminate He].
    apply execute_create_status_checks_inv in H2 as (Hd2 & Hv2).
    apply execute_create_summary_reports_inv in H3 as (Hd3 & Hv3).
    assert (Hd03 : same_data s s2).
    { eapply same_data_trans; [exact Hd0|].
      eapply same_data_trans; [exact Hd1|].
      eapply same_data_trans; [exact Hd2|exact Hd3]. }
    destruct r0 as [u'|e].
    + pose proof (commit_other _ _ Hcommit) as Hother.
      apply commit_inv in Hcommit as (Hs & Hc).
      assert (Hself : self s1 = self s).
      { rewrite Hs. destruct Hd03 as (-> & _). reflexivity. }
      split; [destruct Hd as (-> & _); exact Hself|].
      rewrite (committed_active s Hd Hself eq_refl).
      rewrite Hc, Hv3, Hv2, Hv1, Hv.
      split; [|split].
      * unfold schema_created; simpl.
        repeat split; apply create_if_not_exists_exists.
      * unfold rows_kept; simpl.
        repeat split; intros l ->; reflexivity.
      * destruct Hd as (_ & Hp & Hl).
        destruct Hd03 as (_ & Hp3 & Hl3).
        destruct (conn_of s); simpl in *; congruence.
    + apply commit_inv in Hcommit.
      eapply same_data_trans; [exact Hd03|].
      eapply same_data_trans; [exact Hcommit|exact Hd].
  - apply bind_inv in Hcreate
      as [(u1 & sa & H1 & Hcreate) | (e' & H1 & _)];
      apply execute_create_stores_inv in H1 as (Hd1 & _).
    + apply bind_inv in Hcreate
        as [(u2 & sb & H2 & H3) | (e' & H2 & _)];
        apply execute_create_status_checks_inv in H2 as (Hd2 & _).
      * apply execute_create_summary_reports_inv in H3 as (Hd3 & _).
        eapply same_data_trans; [exact Hd0|].
        eapply same_data_trans; [exact Hd1|].
        eapply same_data_trans; [exact Hd2|].
        eapply same_data_trans; [exact Hd3|exact Hd].
      * eapply same_data_trans; [exact Hd0|].
        eapply same_data_trans; [exact Hd1|].
        eapply same_data_trans; [exact Hd2|exact Hd].
    + eapply same_data_trans; [exact Hd0|].
      eapply same_data_trans; [exact Hd1|exact Hd].
Qed.

Lemma active_tables_engine s :
  active_tables s = committed (engine_of (conn_of s) (env s)).
Proof. reflexivity. Qed.

Lemma create_tables_keeps_rows : respects keeps_rows _create_tables.
Proof.
  intros s. destruct (_create_tables s) as [[u|e] s'] eqn:E;
    apply create_tables_inv in E; simpl.
  - destruct E as (Hself & _ & Hkept & Hother).
    assert (Hc : conn_of s' = conn_of s)
      by (unfold conn_of; rewrite Hself; reflexivity).
    rewrite !active_tables_engine, Hc in Hkept.
    unfold keeps_rows.
    destruct (conn_of s); simpl in *; rewrite Hother;
      split; try exact Hkept; apply rows_kept_refl.
  - apply same_data_keeps_rows. exact E.
Qed.

Ltac rows_frame :=
  first
    [ exact keeps_rows_refl | exact keeps_rows_trans
    | solve [intros; split; apply rows_kept_refl] ].

Lemma initialize_attempt_keeps_rows : respects keeps_rows initialize_attempt.
Proof.
  unfold initialize_attempt, the_db_type.
  apply (@respects_bind _ keeps_rows_trans);
    [apply (@respects_gets _ keeps_rows_refl)|]. intros dbt.
  apply (@respects_bind _ keeps_rows_trans).
  - destruct (is_postgresql dbt).
    + apply respects_init_postgresql; rows_frame.
    + apply respects_init_sqlite; rows_frame.
  - intros _. apply (@respects_bind _ keeps_rows_trans);
      [exact create_tables_keeps_rows|].
    intros _. apply respects_logger_info; rows_frame.
Qed.

Lemma fallback_to_sqlite_keeps_rows : respects keeps_rows fallback_to_sqlite.
Proof.
  unfold fallback_to_sqlite.
  apply (@respects_bind _ keeps_rows_trans);
    [apply respects_logger_error; rows_frame|]. intros _.
  apply (@respects_bind _ keeps_rows_trans);
    [apply respects_modify; rows_frame|]. intros _.
  apply (@respects_bind _ keeps_rows_trans);
    [apply respects_init_sqlite; rows_frame|]. intros _.
  exact create_tables_keeps_rows.
Qed.

(** X9.  Constructing the manager loses nothing that is stored: on both
    engines every table that existed before [__init__] exists afterwards
    with the same rows, whichever engine the instance ends on and whether
    the constructor returns or raises. *)
Theorem startup_keeps_stored_rows c w :
  rows_kept (committed (pg w))
    (committed (pg (env (snd (__init__ c w))))) /\
  rows_kept (committed (sqlite w))
    (committed (sqlite (env (snd (__init__ c w))))).
Proof.
  change (keeps_rows (constructed c w) (snd (__init__ c w))).
  unfold __init__. fold (constructed c w).
  generalize (constructed c w).
  change (respects keeps_rows _initialize_database).
  rewrite _initialize_database_retry.
  apply (@respects_bind _ keeps_rows_trans);
    [|intros; apply (@respects_ret _ keeps_rows_refl)].
  apply (respects_retry_loop keeps_rows_refl keeps_rows_trans).
  - rows_frame.
  - intros _. apply (@respects_bind _ keeps_rows_trans);
      [exact initialize_attempt_keeps_rows
      |intros; apply (@respects_ret _ keeps_rows_refl)].
  - apply (@respects_bind _ keeps_rows_trans);
      [apply respects_logger_info; rows_frame|]. intros _.
    apply respects_sleep_retry_delay; rows_frame.
  - apply (@respects_bind _ keeps_rows_trans);
      [exact fallback_to_sqlite_keeps_rows
      |intros; apply (@respects_ret _ keeps_rows_refl)].
Qed.

(** ** What the constructor leaves behind *)

(** [_init_postgresql] returns only with a well-formed URL, and then the
    pool is set. *)
Lemma init_postgresql_inv s r s' :
  _init_postgresql s = (r, s') ->
  cfg s' = cfg s /\ db_type (self s') = db_type (self s) /\
  sqlite_path (self s') = sqlite_path (self s) /\
  match r with
  | Ok _ =>
      connection_pool (self s') = true /\
      startswith (DATABASE_URL (cfg s)) "postgresql://" = true
  | Raise e => e = ValueError \/ e = OperationalError
  end.
Proof.
  unfold _init_postgresql, try_except, bind, gets, logger_info,
    logger_error, modify, raise, ret, outside. simpl.
  destruct (startswith (DATABASE_URL (cfg s)) "postgresql://"); simpl;
    repeat match goal with
      | |- context [if faults ?w ?c ?k then _ else _] =>
          destruct (faults w c k); simpl
      end;
    intros H; inversion H; subst; clear H; simpl; auto.
Qed.

(** [_init_sqlite] sets the path before it tries anything. *)
Lemma init_sqlite_inv s r s' :
  _init_sqlite s = (r, s') ->
  cfg s' = cfg s /\ db_type (self s') = db_type (self s) /\
  connection_pool (self s') = connection_pool (self s) /\
  sqlite_path (self s') = Some (SQLITE_PATH (cfg s)) /\
  match r with
  | Ok _ => True
  | Raise e => e = OSError \/ e = OperationalError
  end.
Proof.
  unfold _init_sqlite, try_except, bind, gets, logger_info,
    logger_error, modify, raise, ret, outside. simpl.
  repeat match goal with
    | |- context [if faults ?w ?c ?k then _ else _] =>
        destruct (faults w c k); simpl
    end;
    intros H; inversion H; subst; clear H; simpl; auto 10.
Qed.

Lemma create_tables_world : respects same_world _create_tables.
Proof. apply respects_create_tables; frame. Qed.

Lemma create_tables_raises s e s' :
  _create_tables s = (Raise e, s') -> e = PyException.
Proof.
  intros H. apply get_connection_inv in H
    as [[H _] | (s0 & r0 & s1 & _ & _ & _ & H)].
  - inversion H; reflexivity.
  - destruct r0; inversion H; reflexivity.
Qed.

(** An attempt that returns leaves a usable instance on the engine it
    was made for. *)
Lemma initialize_attempt_ok s s' :
  initialize_attempt s = (Ok tt, s') ->
  cfg s' = cfg s /\ db_type (self s') = db_type (self s) /\
  schema_created (active_tables s') /\
  if is_postgresql (db_type (self s))
  then connection_pool (self s') = true /\
       startswith (DATABASE_URL (cfg s)) "postgresql://" = true
  else sqlite_path (self s') = Some (SQLITE_PATH (cfg s)).
Proof.
  unfold initialize_attempt, the_db_type. unfold bind at 1, gets.
  intros H.
  apply bind_inv in H as [(u & s1 & Hinit & H) | (e & _ & He)];
    [|discriminate He].
  apply bind_inv in H as [(u' & s2 & Hcreate & Hlog) | (e & _ & He)];
    [|discriminate He].
  unfold logger_info, modify in Hlog. inversion Hlog; subst; clear Hlog.
  pose proof (create_tables_world s1) as Hw. rewrite Hcreate in Hw.
  simpl in Hw. destruct Hw as (Hcfg & _).
  apply create_tables_inv in Hcreate as (Hself & Hschema & _).
  change (active_tables (with_env (add_log (Info "Database initialized")) s2))
    with (active_tables s2).
  simpl. rewrite Hself, Hcfg.
  destruct (is_postgresql (db_type (self s))).
  - apply init_postgresql_inv in Hinit as (-> & -> & _ & Hpool & Hurl).
    auto.
  - apply init_sqlite_inv in Hinit as (-> & -> & _ & Hpath & _). auto.
Qed.

Lemma fallback_to_sqlite_inv s r s' :
  fallback_to_sqlite s = (r, s') ->
  cfg s' = cfg s /\ db_type (self s') = "sqlite" /\
  sqlite_path (self s') = Some (SQLITE_PATH (cfg s)) /\
  match r with
  | Ok _ => schema_created (active_tables s')
  | Raise e => e = OSError \/ e = OperationalError \/ e = PyException
  end.
Proof.
  unfold fallback_to_sqlite.
  unfold bind at 1, logger_error at 1, modify at 1.
  unfold bind at 1, modify at 1.
  set (s0 := with_self (set_db_type "sqlite")
               (with_env (add_log
                  (Error "All database initialization attempts failed")) s)).
  intros H.
  apply bind_inv in H as [(u & s1 & Hinit & Hcreate) | (e & Hinit & ->)];
    apply init_sqlite_inv in Hinit as (Hcfg & Hdb & _ & Hpath & He).
  - pose proof (create_tables_world s1) as Hw. rewrite Hcreate in Hw.
    simpl in Hw. destruct Hw as (Hcfg' & _).
    rewrite Hcfg', Hcfg.
    destruct r as [u'|e].
    + apply create_tables_inv in Hcreate as (Hself & Hschema & _).
      rewrite Hself. auto.
    + pose proof (@create_tables_raises _ _ _ Hcreate) as ->.
      apply create_tables_inv in Hcreate as (Hself & _).
      rewrite Hself. auto 10.
  - rewrite Hcfg. intuition auto.
Qed.

(** Every run of [_initialize_database]: an attempt returns after fewer
    than [max_retries] failed ones, or all fail and the fallback ends the
    run. *)
Lemma initialize_database_inv s r s' :
  (0 < max_retries (self s))%nat ->
  _initialize_database s = (r, s') ->
  (exists k s1,
      initialize_attempts_failed k s s1 /\ (k < max_retries (self s))%nat /\
      initialize_attempt s1 = (Ok tt, s') /\ r = Ok tt) \/
  (exists k s1 e s2,
      initialize_attempts_failed k s s1 /\ max_retries (self s) = S k /\
      (initialize_attempt ;; ret (Return (L := unit) tt)) s1 = (Raise e, s2) /\
      fallback_to_sqlite
        (with_env (add_log (Error "Database initialization failed")) s2)
      = (r, s')).
Proof.
  intros Hn. rewrite _initialize_database_retry. intros Hrun.
  assert (Hloop : exists o,
    retry_loop (fun _ : unit => tt)
      (fun _ => initialize_attempt ;; ret (Return tt))
      "Database initialization failed"
      (logger_info "Retrying" ;; sleep_retry_delay)
      (fallback_to_sqlite ;; ret (Next tt)) tt s = (o, s') /\
    r = match o with Ok _ => Ok tt | Raise e => Raise e end).
  { apply bind_inv in Hrun as [(o & s1 & Hloop & Hret) | (e & Hloop & ->)].
    - inversion Hret; subst. eauto.
    - eauto. }
  destruct Hloop as (o & Hloop & ->).
  apply (retry_loop_inv (fun _ : unit => tt)
           (fun _ => initialize_attempt ;; ret (Return tt))
           "Database initialization failed"
           (fallback_to_sqlite ;; ret (Next tt))
           (fun _ => initialize_block_retries)
           retrying_retries retrying_ok tt s Hn
           initialize_block_not_next) in Hloop
    as [(k & [] & s1 & a & Hf & Hk & Hok & ->)
       |(k & [] & s1 & e & s2 & Hf & Hk & Hr & Hfin)].
  - left. exists k, s1. split; [exact Hf|]. split; [exact Hk|].
    split; [|reflexivity].
    apply bind_inv in Hok as [(u & sa & Hok & Hret) | (e & _ & He)];
      [|discriminate He].
    inversion Hret; subst. destruct u. exact Hok.
  - right. exists k, s1, e, s2.
    split; [exact Hf|]. split; [exact Hk|]. split; [exact Hr|].
    unfold after_final, bind in Hfin.
    destruct (fallback_to_sqlite _) as [[[]|e'] s3];
      inversion Hfin; subst; reflexivity.
Qed.

Lemma initialize_block_raise_keeps s e s' :
  (initialize_attempt ;; ret (Return (L := unit) tt)) s = (Raise e, s') ->
  same_world s s' /\ same_engine s s'.
Proof.
  intros H.
  pose proof (initialize_block_world s) as Hw.
  pose proof (initialize_block_engine s) as He.
  rewrite H in Hw, He. auto.
Qed.

(** X10.  A constructor that returns leaves a usable instance: the three
    tables exist on the engine named by [db_type]; if that is the primary
    engine the pool is set, the primary engine was the configured one and
    the URL has the scheme; if it is the embedded engine the path is the
    configured one.  The retry settings are 3 attempts, 5 seconds. *)
Theorem constructed_instance_is_usable c w s :
  __init__ c w = (Ok tt, s) ->
  cfg s = c /\
  max_retries (self s) = 3%nat /\ retry_delay (self s) = 5 /\
  schema_created (active_tables s) /\
  (db_type (self s) = "postgresql" ->
   connection_pool (self s) = true /\ USE_SQLITE c = false /\
   startswith (DATABASE_URL c) "postgresql://" = true) /\
  (db_type (self s) = "sqlite" ->
   sqlite_path (self s) = Some (SQLITE_PATH c)).
Proof.
  unfold __init__. fold (constructed c w). intros Hrun.
  pose proof (initialize_database_retries (constructed c w)) as Hret.
  rewrite Hrun in Hret. simpl in Hret. destruct Hret as (Hmax & Hdelay).
  apply initialize_database_inv in Hrun
    as [(k & s1 & Hf & _ & Hok & _)
       |(k & s1 & e & s2 & Hf & _ & Hr & Hfb)]; [| |simpl; lia].
  - destruct (initialize_failed_keeps Hf) as (_ & (Hcfg & _)).
    apply initialize_failed_engine in Hf. unfold same_engine in Hf.
    apply initialize_attempt_ok in Hok as (Hcfg' & Hdb & Hschema & Hcase).
    rewrite Hcfg in Hcase. rewrite Hf in Hcase, Hdb. simpl in *.
    split; [congruence|]. split; [exact Hmax|]. split; [exact Hdelay|].
    split; [exact Hschema|].
    rewrite Hdb. destruct (USE_SQLITE c); simpl in Hcase.
    + split; [discriminate|]. intros _. exact Hcase.
    + split; [|discriminate]. intros _. destruct Hcase; auto.
  - destruct (initialize_failed_keeps Hf) as (_ & (Hcfg & _)).
    apply initialize_block_raise_keeps in Hr as ((Hcfg' & _) & _).
    apply fallback_to_sqlite_inv in Hfb as (Hcfg'' & Hdb & Hpath & Hschema).
    simpl in *.
    assert (Hc : cfg s = c) by congruence.
    split; [exact Hc|]. split; [exact Hmax|]. split; [exact Hdelay|].
    split; [exact Hschema|]. rewrite Hdb.
    split; [discriminate|]. intros _. rewrite Hpath. congruence.
Qed.

Lemma constructed_instance_is_usable_witness :
  __init__ cfg_primary (sample_world all_up) = (Ok tt, on_postgresql) /\
  schema_created (active_tables on_postgresql) /\
  (db_type (self on_postgresql) = "postgresql" ->
   connection_pool (self on_postgresql) = true /\
   USE_SQLITE cfg_primary = false /\
   startswith (DATABASE_URL cfg_primary) "postgresql://" = true).
Proof.
  assert (H : __init__ cfg_primary (sample_world all_up)
              = (Ok tt, on_postgresql)) by (vm_compute; reflexivity).
  split; [exact H|].
  destruct (@constructed_instance_is_usable _ _ _ H)
    as (_ & _ & _ & Hschema & Hpg & _).
  split; [exact Hschema | exact Hpg].
Defined.

(** ** When the constructor raises *)



Lemma init_sqlite_unreachable s :
  unreachable FS s ->
  exists s',
    _init_sqlite s = (Raise OSError, s') /\
    same_world s s' /\ db_type (self s') = db_type (self s).
Proof.
  intros HFS. unfold unreachable in HFS.
  unfold _init_sqlite, try_except, bind, gets, logger_info, logger_error,
    modify, raise, ret, outside. simpl. rewrite HFS. simpl.
  eexists. split; [reflexivity|].
  split; [unfold same_world; simpl; auto 10 | reflexivity].
Qed.

Lemma unreachable_kept r s s' :
  unreachable r s -> same_world s s' -> unreachable r s'.
Proof. intros H (_ & Hf & _) k. rewrite Hf. apply H. Qed.

Lemma embedded_attempts_fail k : forall s,
  db_type (self s) = "sqlite" -> unreachable FS s ->
  exists sx, initialize_attempts_failed k s sx.
Proof.
  induction k as [|k IH]; intros s Hdb HFS.
  - exists s. apply failed_O.
  - destruct (init_sqlite_unreachable HFS) as (s1 & Hinit & Hw & Hdb1).
    assert (E : (initialize_attempt ;; ret (Return (L := unit) tt)) s
                = (Raise OSError, s1)).
    { unfold initialize_attempt, the_db_type.
      unfold bind at 1 2 3, gets. rewrite Hdb. simpl.
      unfold bind at 1. rewrite Hinit. reflexivity. }
    set (s2 := between_passes "Database initialization failed"
                 (logger_info "Retrying" ;; sleep_retry_delay) s1).
    destruct (IH s2) as (sx & Hf).
    + unfold s2; simpl. rewrite Hdb1. exact Hdb.
    + apply (unreachable_kept HFS).
      eapply same_world_trans; [exact Hw|].
      unfold same_world; simpl; auto 10.
    + exists sx. eapply failed_S; [exact E | exact Hf].
Qed.

(** X12.  The fallback is not guarded: when the directory of the
    embedded engine cannot be made and the three attempts have failed
    (as they must when the embedded engine is the configured one), the
    constructor raises the [OSError] of the fallback. *)
Theorem startup_raises_when_storage_path_is_unusable c w :
  unreachable FS (constructed c w) ->
  USE_SQLITE c = true \/
  (exists sx, initialize_attempts_failed 3 (constructed c w) sx) ->
  exists s,
    __init__ c w = (Raise OSError, s) /\ db_type (self s) = "sqlite".
Proof.
  intros HFS Hcase.
  assert (Hfail : exists sx,
            initialize_attempts_failed 3 (constructed c w) sx).
  { destruct Hcase as [Huse | H]; [|exact H].
    apply embedded_attempts_fail; [simpl; rewrite Huse; reflexivity|].
    exact HFS. }
  destruct Hfail as (sx & Hfail).
  apply failed_last in Hfail as ([] & s1 & e & s2 & Hf & Hr).
  fold (initialize_attempts_failed 2 (constructed c w) s1) in Hf.
  destruct (initialize_failed_keeps Hf) as (_ & Hw1).
  pose proof (initialize_block_world s1) as Hw2. rewrite Hr in Hw2.
  simpl in Hw2.
  set (s3 := with_self (set_db_type "sqlite")
               (with_env (add_log
                  (Error "All database initialization attempts failed"))
                  (with_env (add_log
                     (Error "Database initialization failed")) s2))).
  assert (HFS3 : unreachable FS s3).
  { apply (unreachable_kept HFS).
    eapply same_world_trans; [exact Hw1|].
    eapply same_world_trans; [exact Hw2|].
    unfold same_world; simpl; auto 10. }
  destruct (init_sqlite_unreachable HFS3) as (s4 & Hinit & _ & Hdb).
  exists s4. split; [|rewrite Hdb; reflexivity].
  unfold __init__. fold (constructed c w).
  rewrite (@initialize_database_exhausted (constructed c w) 2 s1 e s2
             eq_refl Hf Hr).
  unfold fallback_to_sqlite.
  unfold bind at 1 2, logger_error at 1, modify at 1.
  unfold bind at 1, modify at 1. fold s3.
  unfold bind at 1. rewrite Hinit. reflexivity.
Qed.

Lemma startup_raises_when_storage_path_is_unusable_witness :
  unreachable FS (constructed cfg_primary (sample_world all_down)) /\
  (exists sx,
      initialize_attempts_failed 3
        (constructed cfg_primary (sample_world all_down)) sx) /\
  exists s,
    __init__ cfg_primary (sample_world all_down) = (Raise OSError, s) /\
    db_type (self s) = "sqlite".
Proof.
  assert (H1 : unreachable FS
                 (constructed cfg_primary (sample_world all_down)))
    by (intros k; reflexivity).
  assert (H2 : exists sx,
             initialize_attempts_failed 3
               (constructed cfg_primary (sample_world all_down)) sx).
  { eexists. unfold initialize_attempts_failed.
    eapply failed_S; [vm_compute; reflexivity|].
    eapply failed_S; [vm_compute; reflexivity|].
    eapply failed_S; [vm_compute; reflexivity|].
    apply failed_O. }
  split; [exact H1|]. split; [exact H2|].
  exact (@startup_raises_when_storage_path_is_unusable
           cfg_primary (sample_world all_down) H1 (or_intror H2)).
Defined.

(** ** Stores and their ids *)

Lemma execute_insert_store_id c name url platform s id s' :
  execute_insert_store c name url platform s = (Ok id, s') ->
  id = stores_seq (view c s) + 1.
Proof.
  unfold execute_insert_store; run_statement c;
    try close_statement;
    match goal with
    | |- context [match stores ?t with _ => _ end] =>
        destruct (stores t) as [l|] eqn:?; simpl
    end; try close_statement;
    match goal with
    | |- context [if existsb ?f ?l then _ else _] =>
        destruct (existsb f l) eqn:?; simpl
    end; close_statement.
Qed.

(** A [try] block that creates the store hands out the next id. *)
Lemma store_try_new_id name url s id s' l :
  store_try name url s = (Ok (Return id), s') ->
  stores (active_tables s) = Some l ->
  find (fun x => (s_url x =? url)%string) l = None ->
  id = stores_seq (active_tables s) + 1.
Proof.
  intros H Hl Hfind.
  apply get_connection_inv in H
    as [[H _] | (s0 & r0 & s1 & Hacq & Hbody & Hd & Hr)]; [discriminate H|].
  destruct r0 as [f|e]; [|discriminate Hr]. inversion Hr; subst f; clear Hr.
  unfold the_db_type in Hbody. unfold bind at 1, gets in Hbody.
  assert (Hrun :
    (found_or_new <-
       (result <- execute_select_store_id (conn_of s) url ;;
        match result with
        | Some id => ret (inl id)
        | None =>
            store_id <- execute_insert_store (conn_of s) name url
                          (platform_of url) ;;
            ret (inr store_id)
        end) ;;
     match found_or_new with
     | inl id => ret (Return (L := unit) id)
     | inr store_id => commit (conn_of s) ;; ret (Return store_id)
     end) s0 = (Ok (Return id), s1))
    by (destruct (is_postgresql (db_type (self s0))); exact Hbody).
  clear Hbody.
  apply bind_inv in Hrun as [(v & s2 & H1 & H2) | (e & _ & He)];
    [|discriminate He].
  apply bind_inv in H1 as [(res & sa & Hsel & Hres) | (e & _ & He)];
    [|discriminate He].
  apply execute_select_store_id_inv in Hsel as (_ & Hva & l' & Hl' & ->).
  rewrite (acquired_view Hacq), Hl in Hl'.
  inversion Hl'; subst l'; clear Hl'.
  rewrite Hfind in Hres. simpl in Hres.
  apply bind_inv in Hres as [(sid & sb & Hins & Hr) | (e & _ & He)];
    [|discriminate He].
  inversion Hr; subst; clear Hr.
  apply execute_insert_store_id in Hins.
  rewrite Hva, (acquired_view Hacq) in Hins.
  apply bind_inv in H2 as [(u & s3 & _ & H4) | (e & _ & He)];
    [|discriminate He].
  inversion H4; subst. reflexivity.
Qed.

Lemma get_or_create_store_new_id name url s id s' l :
  get_or_create_store name url s = (Ok (Some id), s') ->
  stores (active_tables s) = Some l ->
  find (fun x => (s_url x =? url)%string) l = None ->
  id = stores_seq (active_tables s) + 1.
Proof.
  intros H Hl Hfind.
  pose proof (positive_retries_store _ _ _ H) as Hn.
  rewrite get_or_create_store_retry in H.
  apply (retry_loop_inv (fun _ : unit => tt) (fun _ => store_try name url)
           "Failed to get_or_create_store" (raise PyException)
           (fun _ => store_try_retries name url)
           sleep_retry_delay_retries sleep_retry_delay_ok tt s Hn
           (fun l0 s0 l' s'0 => @store_try_not_next name url s0 l' s'0)) in H
    as [(k & [] & s1 & a & Hf & _ & Hok & Ha)
       |(k & [] & s1 & e & s2 & _ & _ & _ & Hfin)].
  - inversion Ha; subst a; clear Ha.
    pose proof (store_failed_same_data Hf) as Hd.
    rewrite <- (same_data_active Hd) in Hl |- *.
    exact (@store_try_new_id name url s1 id s' l Hok Hl Hfind).
  - unfold after_final, raise in Hfin. discriminate Hfin.
Qed.

Lemma keyed_rows_equal A B (f : A -> B) l a b :
  NoDup (map f l) -> In a l -> In b l -> f a = f b -> a = b.
Proof.
  induction l as [|x l IH]; intros Hn Ha Hb Hf; [destruct Ha|].
  simpl in Hn. inversion Hn as [|y ys Hnot Hnodup]; subst.
  destruct Ha as [->|Ha], Hb as [->|Hb]; auto.
  - exfalso. apply Hnot. rewrite Hf. apply in_map. exact Hb.
  - exfalso. apply Hnot. rewrite <- Hf. apply in_map. exact Ha.
Qed.

Lemma NoDup_snoc A (l : list A) a :
  NoDup l -> ~ In a l -> NoDup (l ++ [a]).
Proof.
  intros Hl Ha. apply NoDup_app; auto.
  - repeat constructor. intros [].
  - intros x Hx [<-|[]]. contradiction.
Qed.

(** Appending a store with the next id and a new url keeps the table
    well formed. *)
Lemma stores_wellformed_appended t l row :
  stores_wellformed t ->
  stores t = Some l ->
  find (fun x => (s_url x =? s_url row)%string) l = None ->
  s_id row = stores_seq t + 1 ->
  s_platform row = platform_of (s_url row) ->
  stores_wellformed (set_stores (Some (l ++ [row])%list) (s_id row) t).
Proof.
  intros Hwf Hl Hfind Hid Hplat l' Hl'. simpl in Hl'.
  inversion Hl'; subst l'; clear Hl'.
  destruct (Hwf l Hl) as (Hurls & Hids & Hrows).
  split; [|split].
  - apply (@urls_unique_appended (s_url row) l row Hurls Hfind eq_refl).
  - rewrite map_app. simpl. apply NoDup_snoc; [exact Hids|].
    intros Hin. apply in_map_iff in Hin as (r & Hr & Hin).
    destruct (Hrows r Hin) as (Hle & _). lia.
  - intros r Hin. simpl. apply in_app_or in Hin as [Hin|[<-|[]]].
    + destruct (Hrows r Hin) as (Hle & Hp). split; [lia|exact Hp].
    + split; [lia|exact Hplat].
Qed.

Lemma same_data_wellformed s s' :
  same_data s s' ->
  stores_wellformed (active_tables s) ->
  stores_wellformed (active_tables s').
Proof. intros Hd. rewrite (same_data_active Hd). auto. Qed.

Lemma get_or_create_store_wellformed name url s :
  stores_wellformed (active_tables s) ->
  stores_wellformed (active_tables (snd (get_or_create_store name url s))).
Proof.
  intros Hwf.
  destruct (max_retries (self s)) as [|n] eqn:En.
  - rewrite get_or_create_store_retry, retry_loop_zero by exact En.
    exact Hwf.
  - destruct (get_or_create_store name url s) as [r s'] eqn:E. simpl.
    assert (Hn : (0 < max_retries (self s))%nat) by lia.
    destruct (@get_or_create_store_cases name url s r s' Hn E)
      as [(_ & _ & id & l & -> & Hl & Hcase) | (_ & Hd & _)];
      [|exact (@same_data_wellformed _ _ Hd Hwf)].
    destruct Hcase as [(row & _ & _ & Hd) | (Hfind & row & Hv & Hrow)];
      [exact (@same_data_wellformed _ _ Hd Hwf)|].
    destruct Hrow as (Hid & _ & Hurl & Hplat).
    pose proof (@get_or_create_store_new_id _ _ _ _ _ _ E Hl Hfind) as Hnew.
    rewrite Hv. rewrite <- Hid.
    apply stores_wellformed_appended; auto.
    + rewrite Hurl. exact Hfind.
    + congruence.
    + rewrite Hurl. exact Hplat.
Qed.

Lemma status_checks_only_wellformed t v n :
  stores_wellformed t -> stores_wellformed (set_status_checks v n t).
Proof. intros H l Hl. exact (H l Hl). Qed.

Lemma summary_reports_only_wellformed t v n :
  stores_wellformed t -> stores_wellformed (set_summary_reports v n t).
Proof. intros H l Hl. exact (H l Hl). Qed.

Lemma after_wellformed o s :
  stores_wellformed (active_tables s) ->
  stores_wellformed (active_tables (after o s)).
Proof.
  intros Hwf. destruct o as [name url|i b rt m|t o f| | |limit| | |]; simpl.
  - apply get_or_create_store_wellformed. exact Hwf.
  - destruct (max_retries (self s)) as [|n] eqn:En.
    + rewrite save_status_check_retry, retry_loop_zero by exact En.
      exact Hwf.
    + destruct (save_status_check i b rt m s) as [r s'] eqn:E. simpl.
      assert (Hn : (0 < max_retries (self s))%nat) by lia.
      destruct (@save_status_check_cases i b rt m s r s' Hn E)
        as [(_ & _ & _ & l & row & _ & Hv & _) | (_ & Hd & _)];
        [|exact (@same_data_wellformed _ _ Hd Hwf)].
      rewrite Hv. apply status_checks_only_wellformed. exact Hwf.
  - destruct (max_retries (self s)) as [|n] eqn:En.
    + rewrite save_summary_report_retry, retry_loop_zero by exact En.
      exact Hwf.
    + destruct (save_summary_report t o f s) as [r s'] eqn:E. simpl.
      assert (Hn : (0 < max_retries (self s))%nat) by lia.
      destruct (@save_summary_report_cases t o f s r s' Hn E)
        as [(_ & _ & _ & pct & l & row & _ & _ & Hv & _) | (_ & Hd & _)];
        [|exact (@same_data_wellformed _ _ Hd Hwf)].
      rewrite Hv. apply summary_reports_only_wellformed. exact Hwf.
  - exact (@same_data_wellformed _ _ (get_latest_status_same_data s) Hwf).
  - exact (@same_data_wellformed _ _ (get_hourly_data_same_data s) Hwf).
  - exact (@same_data_wellformed _ _
             (get_store_logs_same_data limit s) Hwf).
  - exact (@same_data_wellformed _ _ (get_daily_uptime_same_data s) Hwf).
  - exact (@same_data_wellformed _ _
             (get_database_stats_same_data s) Hwf).
  - exact (@same_data_wellformed _ _ (close_same_data s) Hwf).
Qed.

(** X13.  The stores table stays well formed under every sequence of
    operations: urls are distinct, ids are distinct and none is above the
    last one handed out, and every store carries the platform that its
    url gives. *)
Theorem stores_stay_wellformed os : forall s,
  stores_wellformed (active_tables s) ->
  stores_wellformed (active_tables (after_all os s)).
Proof.
  induction os as [|o os IH]; intros s Hwf; [exact Hwf|].
  unfold after_all. simpl. apply IH. apply after_wellformed. exact Hwf.
Qed.

Lemma stores_stay_wellformed_witness :
  stores_wellformed (active_tables on_sqlite) /\
  stores_wellformed
    (active_tables
       (after_all
          [Op_get_or_create_store "Cocopan Anonas"
             "https://www.foodpanda.ph/restaurant/cocopan-anonas";
           Op_save_status_check 1 true (Some 120) None;
           Op_get_or_create_store "Cocopan Maginhawa"
             "https://food.grab.com/ph/en/restaurant/cocopan-maginhawa"]
          on_sqlite)).
Proof.
  assert (H : stores_wellformed (active_tables on_sqlite)).
  { intros l Hl. vm_compute in Hl. inversion Hl; subst l.
    split; [constructor|]. split; [constructor|]. intros r []. }
  split; [exact H|].
  apply stores_stay_wellformed. exact H.
Defined.

(** X14.  Different urls never share a store: on a well-formed table,
    [get_or_create_store] called for two different urls returns two
    different ids. *)
Theorem different_urls_get_different_ids
    name1 url1 name2 url2 s id1 s1 id2 s2 :
  stores_wellformed (active_tables s) ->
  get_or_create_store name1 url1 s = (Ok (Some id1), s1) ->
  get_or_create_store name2 url2 s1 = (Ok (Some id2), s2) ->
  url1 <> url2 -> id1 <> id2.
Proof.
  intros Hwf H1 H2 Hne.
  pose proof (@get_or_create_store_wellformed name1 url1 s Hwf) as Hwf1.
  rewrite H1 in Hwf1. simpl in Hwf1.
  (* the first call leaves a row with [url1] and [id1] *)
  assert (Hrow1 : exists l1 row1,
            stores (active_tables s1) = Some l1 /\ In row1 l1 /\
            s_url row1 = url1 /\ s_id row1 = id1).
  { destruct (@get_or_create_store_cases _ _ _ _ _
                (@positive_retries_store _ _ _ _ _ H1) H1)
      as [(_ & _ & id & l & Hr & Hl & Hcase) | (Hr & _)];
      [|discriminate Hr].
    inversion Hr; subst id; clear Hr.
    destruct Hcase as [(row & Hfind & Hid & Hd) | (_ & row & Hv & Hrow)].
    - exists l, row. rewrite (same_data_active Hd).
      apply find_some in Hfind as (Hin & Hurl).
      apply String.eqb_eq in Hurl. auto.
    - exists (l ++ [row])%list, row. rewrite Hv. simpl.
      destruct Hrow as (Hid & _ & Hurl & _).
      split; [reflexivity|]. split; [|auto].
      apply in_or_app. right. left. reflexivity. }
  destruct Hrow1 as (l1 & row1 & Hl1 & Hin1 & Hurl1 & Hid1).
  destruct (Hwf1 l1 Hl1) as (_ & Hids & Hrows).
  destruct (@get_or_create_store_cases _ _ _ _ _
              (@positive_retries_store _ _ _ _ _ H2) H2)
    as [(_ & _ & id & l & Hr & Hl & Hcase) | (Hr & _)];
    [|discriminate Hr].
  inversion Hr; subst id; clear Hr.
  rewrite Hl1 in Hl. inversion Hl; subst l; clear Hl.
  destruct Hcase as [(row & Hfind & Hid & _) | (Hfind & _)].
  - apply find_some in Hfind as (Hin & Hurl).
    apply String.eqb_eq in Hurl.
    intros Heq. apply Hne.
    assert (Hsame : row1 = row).
    { apply (@keyed_rows_equal _ _ s_id l1 row1 row Hids Hin1 Hin).
      congruence. }
    subst row. congruence.
  - pose proof (@get_or_create_store_new_id _ _ _ _ _ _ H2 Hl1 Hfind) as Hnew.
    destruct (Hrows row1 Hin1) as (Hle & _). lia.
Qed.

Lemma different_urls_get_different_ids_witness :
  stores_wellformed (active_tables on_sqlite) /\
  get_or_create_store "Cocopan Anonas"
    "https://www.foodpanda.ph/restaurant/cocopan-anonas" on_sqlite
  = (Ok (Some 1), one_store) /\
  (exists s2,
      get_or_create_store "Cocopan Maginhawa"
        "https://food.grab.com/ph/en/restaurant/cocopan-maginhawa" one_store
      = (Ok (Some 2), s2)) /\
  1 <> 2.
Proof.
  assert (H : stores_wellformed (active_tables on_sqlite)).
  { intros l Hl. vm_compute in Hl. inversion Hl; subst l.
    split; [constructor|]. split; [constructor|]. intros r []. }
  assert (H1 : get_or_create_store "Cocopan Anonas"
                 "https://www.foodpanda.ph/restaurant/cocopan-anonas"
                 on_sqlite = (Ok (Some 1), one_store))
    by (vm_compute; reflexivity).
  assert (H2 : get_or_create_store "Cocopan Maginhawa"
                 "https://food.grab.com/ph/en/restaurant/cocopan-maginhawa"
                 one_store
               = (Ok (Some 2),
                  snd (get_or_create_store "Cocopan Maginhawa"
                         "https://food.grab.com/ph/en/restaurant/cocopan-maginhawa"
                         one_store)))
    by (vm_compute; reflexivity).
  split; [exact H|]. split; [exact H1|]. split; [eexists; exact H2|].
  apply (@different_urls_get_different_ids _ _ _ _ _ _ _ _ _ H H1 H2).
  discriminate.
Defined.

(** ** The shape of the hourly result *)

Lemma flat_map_length_bound A B (f : A -> list B) hs :
  (forall h, (List.length (f h) <= 1)%nat) ->
  (List.length (flat_map f hs) <= List.length hs)%nat.
Proof.
  intros H. induction hs as [|h hs IH]; simpl; [lia|].
  rewrite length_app. specialize (H h). lia.
Qed.

Lemma hourly_query_shape ra today hour label l :
  (List.length (rows (hourly_query ra today hour label l)) <= 24)%nat /\
  Forall (fun row => List.length row = 4%nat /\ 1 <= data_points_of row)
    (rows (hourly_query ra today hour label l)).
Proof.
  unfold hourly_query; cbn [rows]. split.
  - change 24%nat with (List.length (map Z.of_nat (seq 0 24))).
    apply flat_map_length_bound. intros h.
    destruct (filter _ (filter today l)); simpl; lia.
  - apply Forall_flat_map. apply Forall_forall. intros h _.
    destruct (filter _ (filter today l)) as [|r bucket]; constructor;
      [|constructor].
    split; [reflexivity|].
    unfold data_points_of. cbn [nth]. simpl List.length. lia.
Qed.

Lemma filter_nil_iff A (f : A -> bool) l :
  filter f l = [] <-> forall x, In x l -> f x = false.
Proof.
  split.
  - intros H x Hx. destruct (f x) eqn:E; [|reflexivity].
    assert (Hin : In x (filter f l)) by (apply filter_In; auto).
    rewrite H in Hin. destruct Hin.
  - intros H. induction l as [|x l IH]; [reflexivity|]. simpl.
    rewrite (H x (or_introl eq_refl)). apply IH.
    intros y Hy. apply H. right. exact Hy.
Qed.

Lemma hourly_query_empty ra today hour label l :
  (forall r, 0 <= hour r < 24) ->
  rows (hourly_query ra today hour label l) = [] <->
  (forall r, In r l -> today r = false).
Proof.
  intros Hrange. rewrite <- filter_nil_iff. split.
  - intros H.
    pose proof (@hourly_query_total ra today hour label l Hrange) as Ht.
    unfold total_data_points in Ht. rewrite H in Ht. simpl in Ht.
    destruct (filter today l); [reflexivity|]. simpl in Ht. lia.
  - intros H. unfold hourly_query; cbn [rows]. rewrite H.
    apply flat_map_all_nil. intros h _. reflexivity.
Qed.

(** The query that the [try] block of [get_hourly_data] runs, for the
    engine in use. *)
Lemma hourly_data_try_query s df s1 :
  hourly_data_try s = (Ok df, s1) ->
  exists l,
    summary_reports (active_tables s) = Some l /\
    df = hourly_query
           (round_avg (env s) (conn_of s)) (reported_today s)
           (fun r => if is_postgresql (db_type (self s))
                     then hour_of (pg_at_time_zone_manila (env s)
                                     (sr_report_time r))
                     else hour_of (sr_report_time r))
           (fun h => if is_postgresql (db_type (self s))
                     then SqlInt h else SqlText (two_digits h)) l.
Proof.
  intros Htry. apply hourly_data_try_inv in Htry as (l & Hl & ->).
  exists l. split; [exact Hl|].
  unfold reported_today, conn_of.
  destruct (is_postgresql (db_type (self s))); reflexivity.
Qed.

Lemma engine_hour_range s r :
  0 <= (if is_postgresql (db_type (self s))
        then hour_of (pg_at_time_zone_manila (env s) (sr_report_time r))
        else hour_of (sr_report_time r)) < 24.
Proof. destruct (is_postgresql _); apply hour_of_range. Qed.

Lemma hourly_data_try_counts s df s1 :
  hourly_data_try s = (Ok df, s1) ->
  exists l,
    summary_reports (active_tables s) = Some l /\
    (rows df = [] <-> forall r, In r l -> reported_today s r = false) /\
    total_data_points df
    = Z.of_nat (List.length (filter (reported_today s) l)).
Proof.
  intros Htry. destruct (@hourly_data_try_query _ _ _ Htry) as (l & Hl & ->).
  exists l. split; [exact Hl|]. split.
  - apply (@hourly_query_empty _ _ _ _ l (engine_hour_range s)).
  - apply (@hourly_query_total _ _ _ _ l (engine_hour_range s)).
Qed.

(** X15.  The hourly result has at most 24 rows, each with four cells
    and a data_points of at least 1, also when the read fell back to the
    empty frame.  When the query ran, the result has no row exactly when
    no stored report passes the WHERE clause of the engine in use, and
    the data_points add up to the number of reports that pass it. *)
Theorem hourly_result_shape s df s' :
  get_hourly_data s = (Ok df, s') ->
  (List.length (rows df) <= 24)%nat /\
  Forall (fun row => List.length row = 4%nat /\ 1 <= data_points_of row)
    (rows df) /\
  (forall s1,
      hourly_data_try s = (Ok df, s1) ->
      exists l,
        summary_reports (active_tables s) = Some l /\
        (rows df = [] <-> forall r, In r l -> reported_today s r = false) /\
        total_data_points df
        = Z.of_nat (List.length (filter (reported_today s) l))).
Proof.
  intros Hrun.
  assert (Hshape :
    (List.length (rows df) <= 24)%nat /\
    Forall (fun row => List.length row = 4%nat /\ 1 <= data_points_of row)
      (rows df)).
  { unfold get_hourly_data, try_except in Hrun.
    destruct (hourly_data_try s) as [[df0|e] s1] eqn:E.
    - inversion Hrun; subst df0 s1; clear Hrun.
      destruct (@hourly_data_try_query _ _ _ E) as (l & _ & ->).
      apply hourly_query_shape.
    - inversion Hrun; subst. simpl. split; [lia|constructor]. }
  destruct Hshape as (Hlen & Hrows).
  split; [exact Hlen|]. split; [exact Hrows|].
  intros s1. apply hourly_data_try_counts.
Qed.

Lemma hourly_result_shape_witness :
  exists s',
    get_hourly_data (two_reports on_sqlite) =
    (Ok {| columns := ["hour"; "online_pct"; "offline_pct"; "data_points"];
           rows := [[SqlText "02"; SqlReal 75; SqlReal 25; SqlInt 2]] |},
     s') /\
    (List.length [[SqlText "02"; SqlReal 75; SqlReal 25; SqlInt 2]]
     <= 24)%nat.
Proof.
  assert (E : get_hourly_data (two_reports on_sqlite) =
    (Ok {| columns := ["hour"; "online_pct"; "offline_pct"; "data_points"];
           rows := [[SqlText "02"; SqlReal 75; SqlReal 25; SqlInt 2]] |},
     snd (get_hourly_data (two_reports on_sqlite))))
    by (vm_compute; reflexivity).
  eexists. split; [exact E|].
  exact (proj1 (@hourly_result_shape _ _ _ E)).
Defined.

(** ** The engine that is not in use *)

Lemma kept_on_refl c s : kept_on c s s.
Proof. split; reflexivity. Qed.

Lemma kept_on_trans c s1 s2 s3 :
  kept_on c s1 s2 -> kept_on c s2 s3 -> kept_on c s1 s3.
Proof. unfold kept_on; intuition congruence. Qed.

Lemma same_data_kept_on c s s' : same_data s s' -> kept_on c s s'.
Proof.
  intros (Hs & Hp & Hl). split; [exact Hs|]. destruct c; simpl; auto.
Qed.

Lemma idle_kept_refl s : idle_kept s s.
Proof. apply kept_on_refl. Qed.

Lemma idle_kept_trans s1 s2 s3 :
  idle_kept s1 s2 -> idle_kept s2 s3 -> idle_kept s1 s3.
Proof.
  unfold idle_kept. intros H12 H23.
  assert (Hc : conn_of s2 = conn_of s1)
    by (unfold conn_of; destruct H12 as (-> & _); reflexivity).
  rewrite Hc in H23. eapply kept_on_trans; eauto.
Qed.

Lemma same_data_idle_kept s s' : same_data s s' -> idle_kept s s'.
Proof. apply same_data_kept_on. Qed.

Lemma select_store_id_kept c url :
  respects (kept_on c) (execute_select_store_id c url).
Proof.
  intros s. destruct (execute_select_store_id c url s) as [r s'] eqn:E.
  apply execute_select_store_id_inv in E as (Hd & _).
  apply same_data_kept_on. exact Hd.
Qed.

Lemma insert_store_kept c name url platform :
  respects (kept_on c) (execute_insert_store c name url platform).
Proof.
  intros s. destruct (execute_insert_store c name url platform s)
    as [r s'] eqn:E.
  apply execute_insert_store_inv in E as (Hd & _).
  apply same_data_kept_on. exact Hd.
Qed.

Lemma insert_status_check_kept c store_id is_online rt msg :
  respects (kept_on c)
    (execute_insert_status_check c store_id is_online rt msg).
Proof.
  intros s.
  destruct (execute_insert_status_check c store_id is_online rt msg s)
    as [r s'] eqn:E.
  apply execute_insert_status_check_inv in E as (Hd & _).
  apply same_data_kept_on. exact Hd.
Qed.

Lemma insert_summary_report_kept c total online offline pct :
  respects (kept_on c)
    (execute_insert_summary_report c total online offline pct).
Proof.
  intros s.
  destruct (execute_insert_summary_report c total online offline pct s)
    as [r s'] eqn:E.
  apply execute_insert_summary_report_inv in E as (Hd & _).
  apply same_data_kept_on. exact Hd.
Qed.

Lemma commit_kept c : respects (kept_on c) (commit c).
Proof.
  intros s. destruct (commit c s) as [[u|e] s'] eqn:E; simpl.
  - split; [|exact (commit_other _ _ E)].
    apply commit_inv in E as (Hs & _). exact Hs.
  - apply commit_inv in E. apply same_data_kept_on. exact E.
Qed.

(** A [with] block whose body writes to its own connection only leaves
    the other engine alone. *)
Lemma scope_idle_kept A (body : resource -> M A) :
  (forall c, respects (kept_on c) (body c)) ->
  respects idle_kept (get_connection body).
Proof.
  intros Hb s. destruct (get_connection body s) as [r s'] eqn:E.
  apply get_connection_inv in E
    as [[_ Hd] | (s0 & r0 & s1 & Hacq & Hbody & Hd & _)]; simpl;
    [apply same_data_idle_kept; exact Hd|].
  destruct Hacq as (Hd0 & _). unfold idle_kept.
  eapply kept_on_trans; [apply same_data_kept_on; exact Hd0|].
  eapply kept_on_trans; [|apply same_data_kept_on; exact Hd].
  pose proof (Hb (conn_of s) s0) as H. rewrite Hbody in H. exact H.
Qed.

Ltac kept_steps c :=
  repeat first
    [ match goal with |- forall _, _ => intro end
    | match goal with
      | |- respects _ (ret _) => apply (@respects_ret _ (kept_on_refl c))
      | |- respects _ (gets _) => apply (@respects_gets _ (kept_on_refl c))
      | |- respects _ (execute_select_store_id _ _) =>
          apply select_store_id_kept
      | |- respects _ (execute_insert_store _ _ _ _) =>
          apply insert_store_kept
      | |- respects _ (execute_insert_status_check _ _ _ _ _) =>
          apply insert_status_check_kept
      | |- respects _ (execute_insert_summary_report _ _ _ _ _) =>
          apply insert_summary_report_kept
      | |- respects _ (commit _) => apply commit_kept
      | |- respects _ (bind _ _) =>
          apply (@respects_bind _ (@kept_on_trans c))
      | |- respects _ (if ?b then _ else _) => destruct b
      | |- respects _ (match ?x with _ => _ end) => destruct x
      end ].

Lemma store_try_idle name url : respects idle_kept (store_try name url).
Proof.
  unfold store_try. apply scope_idle_kept. intros c.
  unfold the_db_type. kept_steps c.
Qed.

Lemma status_try_idle store_id is_online rt msg :
  respects idle_kept (status_try store_id is_online rt msg).
Proof.
  unfold status_try. apply scope_idle_kept. intros c.
  unfold the_db_type. kept_steps c.
Qed.

Lemma summary_try_idle total online offline :
  respects idle_kept (summary_try total online offline).
Proof.
  unfold summary_try.
  apply (@respects_bind _ idle_kept_trans);
    [apply (@respects_lift _ idle_kept_refl)|]. intros pct.
  apply scope_idle_kept. intros c.
  unfold the_db_type. kept_steps c.
Qed.

Ltac idle_frame :=
  first
    [ exact idle_kept_refl | exact idle_kept_trans
    | solve [intros; split; reflexivity] ].

Lemma after_idle_kept o s : idle_kept s (after o s).
Proof.
  destruct o as [name url|i b rt m|t o f| | |limit| | |]; simpl.
  - revert s. change (respects idle_kept (get_or_create_store name url)).
    rewrite get_or_create_store_retry.
    apply (respects_retry_loop idle_kept_refl idle_kept_trans).
    + idle_frame.
    + intros _. apply store_try_idle.
    + apply respects_sleep_retry_delay; idle_frame.
    + apply (@respects_raise _ idle_kept_refl).
  - revert s. change (respects idle_kept (save_status_check i b rt m)).
    rewrite save_status_check_retry.
    apply (respects_retry_loop idle_kept_refl idle_kept_trans).
    + idle_frame.
    + intros msg. apply status_try_idle.
    + apply respects_sleep_retry_delay; idle_frame.
    + apply (@respects_bind _ idle_kept_trans);
        [apply respects_logger_error; idle_frame|].
      intros _. apply (@respects_ret _ idle_kept_refl).
  - revert s. change (respects idle_kept (save_summary_report t o f)).
    rewrite save_summary_report_retry.
    apply (respects_retry_loop idle_kept_refl idle_kept_trans).
    + idle_frame.
    + intros _. apply summary_try_idle.
    + apply respects_sleep_retry_delay; idle_frame.
    + apply (@respects_bind _ idle_kept_trans);
        [apply respects_logger_error; idle_frame|].
      intros _. apply (@respects_ret _ idle_kept_refl).
  - apply same_data_idle_kept, get_latest_status_same_data.
  - apply same_data_idle_kept, get_hourly_data_same_data.
  - apply same_data_idle_kept, get_store_logs_same_data.
  - apply same_data_idle_kept, get_daily_uptime_same_data.
  - apply same_data_idle_kept, get_database_stats_same_data.
  - apply same_data_idle_kept, close_same_data.
Qed.

(** X16.  Operations write to the engine named by [db_type] and to no
    other: whatever sequence of operations runs, nothing is committed to
    the engine that is not in use.  In particular an instance that fell
    back to the embedded engine never writes to the primary one. *)
Theorem idle_engine_is_never_written os : forall s,
  committed (engine_of (other (conn_of s)) (env (after_all os s)))
  = committed (engine_of (other (conn_of s)) (env s)) /\
  (db_type (self s) = "sqlite" ->
   committed (pg (env (after_all os s))) = committed (pg (env s))).
Proof.
  assert (H : forall s, idle_kept s (after_all os s)).
  { induction os as [|o os IH]; intros s; [apply idle_kept_refl|].
    unfold after_all. simpl.
    eapply idle_kept_trans; [apply after_idle_kept | apply IH]. }
  intros s. destruct (H s) as (_ & Hidle). split; [exact Hidle|].
  intros Hdb. unfold conn_of in Hidle. rewrite Hdb in Hidle. exact Hidle.
Qed.

Lemma idle_engine_is_never_written_witness :
  db_type (self on_sqlite) = "sqlite" /\
  committed (pg (env (two_reports on_sqlite)))
  = committed (pg (env on_sqlite)).
Proof.
  assert (H : db_type (self on_sqlite) = "sqlite") by reflexivity.
  split; [exact H|].
  exact (proj2 (idle_engine_is_never_written
                  [Op_save_summary_report 10 7 3;
                   Op_save_summary_report 10 8 2] on_sqlite) H).
Defined.

(** ** Starting on the configured engine *)









(** ** A report saved and counted *)





(** ** The order of the hourly result *)

Lemma StronglySorted_filter A (R : A -> A -> Prop) (f : A -> bool) l :
  StronglySorted R l -> StronglySorted R (filter f l).
Proof.
  induction 1 as [|a l Hs IH Hall]; simpl; [constructor|].
  destruct (f a); [|exact IH].
  constructor; [exact IH|].
  apply Forall_forall. intros x Hx. apply filter_In in Hx as (Hx & _).
  rewrite Forall_forall in Hall. apply Hall. exact Hx.
Qed.

Lemma hours_of_day_sorted : StronglySorted Z.lt hours_of_day.
Proof.
  unfold hours_of_day. simpl.
  repeat (constructor; [|repeat (constructor; [lia|]); constructor]).
  constructor.
Qed.

(** The first cells of the rows are the labels of the hours that have a
    bucket. *)
Lemma hourly_query_hours ra today hour label l :
  map (fun row => nth 0 row SqlNull)
      (rows (hourly_query ra today hour label l)) =
  map label
      (filter (fun h =>
                 negb (Nat.eqb (List.length
                   (filter (fun r => hour r =? h) (filter today l))) 0))
              hours_of_day).
Proof.
  unfold hourly_query; cbn [rows]. fold hours_of_day.
  induction hours_of_day as [|h hs IH]; [reflexivity|].
  cbn [flat_map filter]. rewrite map_app, IH.
  destruct (filter (fun r => hour r =? h) (filter today l)); reflexivity.
Qed.

(** X19.  The hourly result is ordered by hour with one row per hour:
    its hour column lists strictly increasing hours between 0 and 23,
    as integers on the primary engine and as two-digit text on the
    embedded one. *)
Theorem hourly_rows_are_ordered_by_hour s df s1 :
  hourly_data_try s = (Ok df, s1) ->
  exists hs,
    StronglySorted Z.lt hs /\
    Forall (fun h => 0 <= h < 24) hs /\
    map (fun row => nth 0 row SqlNull) (rows df) = map (hour_label s) hs.
Proof.
  intros Htry.
  destruct (@hourly_data_try_query _ _ _ Htry) as (l & _ & ->).
  rewrite hourly_query_hours.
  eexists. split; [|split; [|reflexivity]].
  - apply StronglySorted_filter. exact hours_of_day_sorted.
  - apply Forall_forall. intros h Hh. apply filter_In in Hh as (Hh & _).
    unfold hours_of_day in Hh. apply in_map_iff in Hh as (n & <- & Hn).
    apply in_seq in Hn. lia.
Qed.

Lemma hourly_rows_are_ordered_by_hour_witness :
  exists s1 hs,
    hourly_data_try (two_reports on_sqlite) =
    (Ok {| columns := ["hour"; "online_pct"; "offline_pct"; "data_points"];
           rows := [[SqlText "02"; SqlReal 75; SqlReal 25; SqlInt 2]] |},
     s1) /\
    StronglySorted Z.lt hs /\
    [SqlText "02"] = map (hour_label (two_reports on_sqlite)) hs.
Proof.
  assert (E : hourly_data_try (two_reports on_sqlite) =
    (Ok {| columns := ["hour"; "online_pct"; "offline_pct"; "data_points"];
           rows := [[SqlText "02"; SqlReal 75; SqlReal 25; SqlInt 2]] |},
     snd (hourly_data_try (two_reports on_sqlite))))
    by (vm_compute; reflexivity).
  destruct (@hourly_rows_are_ordered_by_hour _ _ _ E) as (hs & H1 & _ & H2).
  eexists _, hs. split; [exact E|]. split; [exact H1 | exact H2].
Defined.

(** ** The exceptions that reach a caller *)

(** X20.  The exception classes of the drivers never reach a caller of
    [get_connection]: whatever is raised while the connection is
    obtained, probed or used by the body comes out as a plain
    [Exception].  So [_create_tables] and [get_or_create_store] raise
    nothing else, and [get_or_create_store] has committed nothing when it
    raises. *)
Theorem only_plain_exceptions_escape :
  (forall A (body : resource -> M A) s e s',
      get_connection body s = (Raise e, s') -> e = PyException) /\
  (forall s e s', _create_tables s = (Raise e, s') -> e = PyException) /\
  (forall name url s e s',
      (0 < max_retries (self s))%nat ->
      get_or_create_store name url s = (Raise e, s') ->
      e = PyException /\ same_data s s').
Proof.
  split; [|split].
  - intros A body s e s' H.
    apply get_connection_inv in H
      as [[H _] | (s0 & r0 & s1 & _ & _ & _ & H)].
    + inversion H; reflexivity.
    + destruct r0; inversion H; reflexivity.
  - intros s e s'. apply create_tables_raises.
  - intros name url s e s' Hn H.
    destruct (@get_or_create_store_cases name url s _ s' Hn H)
      as [(_ & _ & id & l & Hr & _) | (Hr & Hd & _)];
      [discriminate Hr|].
    inversion Hr; subst. auto.
Qed.

Lemma only_plain_exceptions_escape_witness :
  exists s',
    get_or_create_store "Cocopan Anonas"
      "https://www.foodpanda.ph/restaurant/cocopan-anonas" sqlite_lost
    = (Raise PyException, s') /\
    same_data sqlite_lost s'.
Proof.
  assert (Hn : (0 < max_retries (self sqlite_lost))%nat)
    by (vm_compute; lia).
  assert (E : get_or_create_store "Cocopan Anonas"
                "https://www.foodpanda.ph/restaurant/cocopan-anonas"
                sqlite_lost
              = (Raise PyException,
                 snd (get_or_create_store "Cocopan Anonas"
                        "https://www.foodpanda.ph/restaurant/cocopan-anonas"
                        sqlite_lost)))
    by (vm_compute; reflexivity).
  eexists. split; [exact E|].
  exact (proj2 (proj2 (proj2 only_plain_exceptions_escape) _ _ _ _ _ Hn E)).
Defined.
